(** * Time-Series: frequency conversion and chain-linked real GDP

    A shallow embedding of [code/modules/frequency_converter.py]
    (class [FrequencyConverter]) together with the few helpers of
    [code/utils.py] and [code/config.py] it relies on.

    Numbers are IEEE 754 binary64 values (the kernel's primitive floats),
    so every arithmetic expression below is the very expression the Python
    code evaluates on [numpy.float64].  A data frame is a date column plus
    an ordered association list of named, typed columns; row labels are
    positions, as they are after [reset_index(drop=True)]. *)

From Stdlib Require Import ZArith QArith Qabs Lqa Floats.
From stdpp Require Import gmap strings list sorting pretty.

Local Open Scope Z_scope.

(** ** Calendar dates ([pandas.Timestamp] at midnight) *)

Record date := Date { dt_year : Z; dt_month : Z; dt_day : Z }.

#[global] Instance date_eq_dec : EqDecision date.
Proof. solve_decision. Defined.

Definition is_leap (y : Z) : bool :=
  ((y mod 4 =? 0) && negb (y mod 100 =? 0)) || (y mod 400 =? 0).

Definition days_in_month (y m : Z) : Z :=
  if m =? 2 then (if is_leap y then 29 else 28)
  else if (m =? 4) || (m =? 6) || (m =? 9) || (m =? 11) then 30
  else 31.

(** Day number of a proleptic Gregorian date (days since 1970-01-01). *)
Definition toordinal (d : date) : Z :=
  let y := if dt_month d <=? 2 then dt_year d - 1 else dt_year d in
  let era := y / 400 in
  let yoe := y - era * 400 in
  let mp := if dt_month d >? 2 then dt_month d - 3 else dt_month d + 9 in
  let doy := (153 * mp + 2) / 5 + dt_day d - 1 in
  let doe := yoe * 365 + yoe / 4 - yoe / 100 + doy in
  era * 146097 + doe - 719468.

(** Chronological order, year first, then month, then day. *)
Definition date_ltb (a b : date) : bool :=
  (dt_year a <? dt_year b)
  || ((dt_year a =? dt_year b)
      && ((dt_month a <? dt_month b)
          || ((dt_month a =? dt_month b) && (dt_day a <? dt_day b)))).

Definition date_leb (a b : date) : bool := negb (date_ltb b a).

(** [ts - pd.DateOffset(years=1)]: same month and day one year earlier,
    the day clipped to the length of the month (29 February). *)
Definition minus_one_year (d : date) : date :=
  let y := dt_year d - 1 in
  Date y (dt_month d) (Z.min (dt_day d) (days_in_month y (dt_month d))).


(** Months counted from year 0, the bin label of [resample('MS')]. *)
Definition month_number (d : date) : Z := dt_year d * 12 + (dt_month d - 1).

Definition month_of_number (k : Z) : date := Date (k / 12) (k mod 12 + 1) 1.

(** ** Floating point ([numpy.float64]) *)

Definition notna (x : float) : bool := negb (PrimFloat.is_nan x).

(** [int64] to [float64]; exact below 2^53. *)
Definition float_of_Z (z : Z) : float :=
  match z with
  | Z0 => 0%float
  | Zpos _ => PrimFloat.of_uint63 (Uint63.of_Z z)
  | Zneg _ => PrimFloat.opp (PrimFloat.of_uint63 (Uint63.of_Z (- z)))
  end.

Definition float_of_nat (n : nat) : float := float_of_Z (Z.of_nat n).

(** The growth factor [(1 + growth_rate / 100)] of the chain formula. *)
Definition growth_factor (g : float) : float := (1 + g / 100)%float.

(** ** Data frames *)

(** A cell as Python sees it once read out of a frame. *)
Inductive cell :=
| CNum (x : float)
| CStr (s : string).

(** A column with its dtype: [float64], [int64] or [object].  A missing
    value is NaN, also in an [object] column ([None] below). *)
Inductive column :=
| NumCol (xs : list float)
| IntCol (xs : list Z)
| ObjCol (xs : list (option string)).

Definition col_length (c : column) : nat :=
  match c with
  | NumCol xs => length xs
  | IntCol xs => length xs
  | ObjCol xs => length xs
  end.

Definition col_cell (c : column) (i : nat) : option cell :=
  match c with
  | NumCol xs => CNum <$> xs !! i
  | IntCol xs => (λ z, CNum (float_of_Z z)) <$> xs !! i
  | ObjCol xs => (λ o, match o with Some s => CStr s | None => CNum PrimFloat.nan end) <$> xs !! i
  end.

(** [select_dtypes(include=[np.number])] keeps a column iff this holds. *)
Definition is_numeric (c : column) : bool :=
  match c with
  | NumCol _ | IntCol _ => true
  | ObjCol _ => false
  end.

Record frame := Frame {
  dates : list date;                 (* the 'date' column, parsed *)
  cols : list (string * column)      (* every other column, in order *)
}.

Definition nrows (df : frame) : nat := length (dates df).

Definition columns (df : frame) : list string := (cols df).*1.

Fixpoint get_col (cs : list (string * column)) (name : string) : option column :=
  match cs with
  | [] => None
  | (n, c) :: cs' => if decide (n = name) then Some c else get_col cs' name
  end.

(** [df[name] = c]: overwrite in place when the label exists, else append. *)
Fixpoint set_col (cs : list (string * column)) (name : string) (c : column)
  : list (string * column) :=
  match cs with
  | [] => [(name, c)]
  | (n, c0) :: cs' =>
      if decide (n = name) then (n, c) :: cs' else (n, c0) :: set_col cs' name c
  end.

(** [df.drop(columns=names, errors='ignore')]. *)
Definition drop_cols (cs : list (string * column)) (names : list string)
  : list (string * column) :=
  filter (λ nc, nc.1 ∉ names) cs.

(** [df.loc[i, name]]; [None] is the [KeyError]. *)
Definition loc (df : frame) (i : nat) (name : string) : option cell :=
  c ← get_col (cols df) name; col_cell c i.

(** Arithmetic on a cell: text raises [TypeError]. *)
Definition as_float (c : cell) : option float :=
  match c with
  | CNum x => Some x
  | CStr _ => None
  end.

(** ** Sorting by date

    [sort_values('date')] followed by [reset_index(drop=True)].  The
    library sorts with an algorithm that is not stable, so the code does
    not fix the order in which rows with equal dates come out; the
    embedding lets them keep their input order.  What is stated below
    about a sorted frame either does not depend on that order or assumes
    that the dates are pairwise distinct. *)

Definition date_at (ds : list date) (i : nat) : date :=
  default (Date 0 0 0) (ds !! i).

Fixpoint insert_idx (ds : list date) (i : nat) (p : list nat) : list nat :=
  match p with
  | [] => [i]
  | j :: p' =>
      if date_ltb (date_at ds i) (date_at ds j) then i :: j :: p'
      else j :: insert_idx ds i p'
  end.

Definition argsort (ds : list date) : list nat :=
  foldl (λ p i, insert_idx ds i p) [] (seq 0 (length ds)).

(** [xs.take(p)]: the rows of a column in the order [p]. *)
Definition take_rows {A} (p : list nat) (xs : list A) : list A :=
  omap (λ i, xs !! i) p.

Definition take_col (p : list nat) (c : column) : column :=
  match c with
  | NumCol xs => NumCol (take_rows p xs)
  | IntCol xs => IntCol (take_rows p xs)
  | ObjCol xs => ObjCol (take_rows p xs)
  end.

Definition take_frame (p : list nat) (df : frame) : frame :=
  Frame (take_rows p (dates df)) (prod_map id (take_col p) <$> cols df).

Definition sort_values (df : frame) : frame :=
  take_frame (argsort (dates df)) df.

(** ** Diagnostics

    [utils.print_section], [utils.print_warning] and [utils.print_success]
    write to the console and to the logger; the embedding records what was
    reported, in order. *)

Inductive message :=
| MsgComputeReal (base_year : Z)           (* 计算不变价GDP（基准年=...） *)
| MsgNoAnnualRows                          (* 未找到年度数据（12月31日），尝试使用现有数据 *)
| MsgBaseYearMissing (base_year : Z)       (* 未找到...年数据，使用最近的年份作为基准 *)
| MsgUsingBaseYear (base_year : Z)         (* 使用...年作为基准年 *)
| MsgBaseNominal (base_year : Z) (v : float) (* ...年基准名义GDP: ...亿元 *)
| MsgRealDone (filled total : nat)         (* 不变价GDP计算完成: filled/total行 *)
| MsgFileMissing (filename : string)       (* 文件不存在: ... *)
| MsgProcessing (filename : string)        (* 处理: ... *)
| MsgGdpDetected                           (* 检测到GDP数据，将转换为不变价GDP（基准年=2015） *)
| MsgDaily (date_diff : Q)                 (* 检测到日度数据（平均间隔...天） *)
| MsgQuarterly (date_diff : Q)             (* 检测到季度数据（平均间隔...天） *)
| MsgAnnual (date_diff : Q)                (* 检测到年度数据（平均间隔...天） *)
| MsgAlreadyMonthly (date_diff : option Q) (* 已是月度数据（平均间隔...天），无需转换 *)
| MsgConverted (rows_in rows_out : nat)    (* 转换完成: ...行 → ...行 *)
| MsgFailed.                               (* 处理失败: ... *)

Inductive event :=
| Print_section (m : message)
| Print_warning (m : message)
| Print_success (m : message)
| Print_error (m : message).

(** A computation reports events and then returns or raises. *)
Definition M (A : Type) : Type := (list event * option A)%type.

Definition ret {A} (a : A) : M A := ([], Some a).

Definition emit (e : event) : M unit := ([e], Some tt).

(** An operation that may raise ([KeyError], [IndexError], [TypeError]). *)
Definition lift {A} (o : option A) : M A := ([], o).

Definition bind {A B} (m : M A) (f : A → M B) : M B :=
  match m with
  | (l, None) => (l, None)
  | (l, Some a) => let '(l', r) := f a in (l ++ l', r)
  end.

Notation "'do' x <- m ; k" := (bind m (fun x => k))
  (at level 10, x name, m at level 100, k at level 200).

(** A [for] loop whose body may raise. *)
Fixpoint for_each {S X} (body : S → X → option S) (xs : list X) (s : S) : option S :=
  match xs with
  | [] => Some s
  | x :: xs' => s' ← body s x; for_each body xs' s'
  end.

(** ** Linear interpolation of a column

    [Series.interpolate(method='linear')]: positions count as equally
    spaced; a gap between two valid values is filled along the straight
    line through them; values after the last valid one repeat it; values
    before the first valid one stay missing unless
    [limit_direction='both'], which repeats the first valid value. *)

Fixpoint next_valid (xs : list float) : option (nat * float) :=
  match xs with
  | [] => None
  | x :: xs' =>
      if notna x then Some (0%nat, x)
      else (λ kv, (S kv.1, kv.2)) <$> next_valid xs'
  end.

(** [numpy.interp] at a position [d] after the valid value [a] and
    [span - d] before the valid value [b]: the line through the two points,
    evaluated from the left one; when that is NaN, from the right one;
    when that is NaN too and both points hold the same value, that value. *)
Definition np_interp (a b : float) (d span : nat) : float :=
  let slope := ((b - a) / float_of_nat span)%float in
  let y := (slope * float_of_nat d + a)%float in
  if PrimFloat.is_nan y then
    let y' := (slope * (float_of_nat d - float_of_nat span) + b)%float in
    if PrimFloat.is_nan y' && (a =? b)%float then a else y'
  else y.

Fixpoint interp_from (both : bool) (prev : option (nat * float)) (xs : list float)
  : list float :=
  match xs with
  | [] => []
  | x :: xs' =>
      if notna x then x :: interp_from both (Some (1%nat, x)) xs'
      else
        let y :=
          match prev, next_valid xs' with
          | Some (d, a), Some (k, b) => np_interp a b d (d + S k)
          | Some (_, a), None => a
          | None, Some (_, b) => if both then b else x
          | None, None => x
          end in
        y :: interp_from both ((λ da, (S da.1, da.2)) <$> prev) xs'
  end.

Definition interpolate_linear (both : bool) (xs : list float) : list float :=
  interp_from both None xs.

(** ** Chain-linked real GDP: [FrequencyConverter._convert_gdp_to_real] *)

Definition BASE_YEAR : Z := 2015.

(** The dictionary [annual_real_gdp] and the column [df[real_gdp_col]]. *)
Record chain_state := ChainState {
  annual_real_gdp : gmap Z float;
  real_gdp : list float
}.

Section convert_gdp.
Context (value_col growth_col : string).

Definition real_gdp_col : string := value_col +:+ "_不变价".

(** [df['date'].dt.year] at a row; the helper column ['year'] holds
    exactly these values, so the masks below read the dates. *)
Definition year_at (df : frame) (i : nat) : Z := dt_year (date_at (dates df) i).

(** [df[df['date'].dt.month == 12].index] *)
Definition annual_index (df : frame) : list nat :=
  filter (λ i, dt_month (date_at (dates df) i) = 12) (seq 0 (nrows df)).

(** [annual_df[annual_df['year'] == y].index] *)
Definition year_rows (df : frame) (annual : list nat) (y : Z) : list nat :=
  filter (λ i, year_at df i = y) annual.

(** [sorted(annual_df['year'].unique())] *)
Definition years_of (df : frame) (annual : list nat) : list Z :=
  merge_sort Z.le (remove_dups (year_at df <$> annual)).

(** [years.index(y)] *)
Definition index_of (years : list Z) (y : Z) : option nat :=
  fst <$> list_find (λ x, x = y) years.

(** Lines 293-299: the anchor year. *)
Definition select_base (adf : frame) (annual : list nat) (base_year : Z) : M Z :=
  if decide (year_rows adf annual base_year = []) then
    do _ <- emit (Print_warning (MsgBaseYearMissing base_year));
    do i <- lift (annual !! (length annual / 2)%nat);
    let base_year := year_at adf i in
    do _ <- emit (Print_success (MsgUsingBaseYear base_year));
    ret base_year
  else ret base_year.

(** Lines 316-330, one iteration. *)
Definition forward_step (adf : frame) (annual : list nat) (years : list Z)
    (st : chain_state) (i : nat) : option chain_state :=
  year ← years !! i;
  match year_rows adf annual year with
  | [] => Some st
  | year_idx :: _ =>
      growth_rate ← loc adf year_idx growth_col;
      prev_year ← years !! (i - 1)%nat;
      match annual_real_gdp st !! prev_year with
      | Some prev =>
          g ← as_float growth_rate;
          let v := (prev * growth_factor g)%float in
          Some (ChainState (<[year := v]> (annual_real_gdp st))
                           (<[year_idx := v]> (real_gdp st)))
      | None => Some st
      end
  end.

(** Lines 333-351, one iteration. *)
Definition backward_step (adf : frame) (annual : list nat) (years : list Z)
    (st : chain_state) (i : nat) : option chain_state :=
  year ← years !! i;
  next_year ← years !! (i + 1)%nat;
  match year_rows adf annual year, year_rows adf annual next_year with
  | year_idx :: _, next_year_idx :: _ =>
      growth_rate ← loc adf next_year_idx growth_col;
      match annual_real_gdp st !! next_year with
      | Some next =>
          g ← as_float growth_rate;
          let v := (next / growth_factor g)%float in
          Some (ChainState (<[year := v]> (annual_real_gdp st))
                           (<[year_idx := v]> (real_gdp st)))
      | None => Some st
      end
  | _, _ => Some st
  end.

(** Lines 301-305: the anchor row and its nominal value. *)
Definition anchor (adf : frame) (annual : list nat) (base_year : Z)
    : option (nat * float) :=
  base_idx ← head (year_rows adf annual base_year);
  c ← loc adf base_idx value_col;
  base_nominal_gdp ← as_float c;
  Some (base_idx, base_nominal_gdp).

(** Lines 308-351: forward, then backward propagation from the anchor. *)
Definition propagate (adf : frame) (annual : list nat) (base_year : Z)
    (base_idx : nat) (base_nominal_gdp : float) : option chain_state :=
  let years := years_of adf annual in
  base_year_idx ← index_of years base_year;
  let st0 := ChainState {[ base_year := base_nominal_gdp ]}
               (<[base_idx := base_nominal_gdp]> (replicate (nrows adf) PrimFloat.nan)) in
  st1 ← for_each (forward_step adf annual years)
           (seq (base_year_idx + 1) (length years - (base_year_idx + 1))) st0;
  for_each (backward_step adf annual years) (reverse (seq 0 base_year_idx)) st1.

(** Lines 301-351 as a whole: the chain-linking step. *)
Definition chain_step (adf : frame) (annual : list nat) (base_year : Z)
    : option chain_state :=
  a ← anchor adf annual base_year;
  propagate adf annual base_year a.1 a.2.

(** The frame with its real-value column as it currently stands. *)
Definition with_real (adf : frame) (real : list float) : frame :=
  Frame (dates adf) (set_col (cols adf) real_gdp_col (NumCol real)).

(** Lines 355-377, one iteration; [snap] is the row data [iterrows]
    yields, [real] the current real-value column. *)
Definition fill_row (snap adf : frame) (annual : list nat)
    (dict : gmap Z float) (real : list float) (idx : nat) : option (list float) :=
  cur ← real !! idx;
  if notna cur then Some real
  else
    let year := year_at snap idx in
    growth_rate ← loc snap idx growth_col;
    let prev_year := year - 1 in
    let prev_date := minus_one_year (date_at (dates snap) idx) in
    let prev_rows :=
      filter (λ j, date_at (dates snap) j = prev_date) (seq 0 (nrows snap)) in
    let use_annual_ratio :=
      if decide (is_Some (dict !! prev_year)) then
        nominal_ratio ←
          match year_rows adf annual year with
          | k :: _ =>
              a ← loc snap idx value_col ≫= as_float;
              b ← loc adf k value_col ≫= as_float;
              Some (a / b)%float
          | [] => Some 1%float
          end;
        match dict !! year with
        | Some r => Some (<[idx := (r * nominal_ratio)%float]> real)
        | None => Some real
        end
      else Some real in
    match head prev_rows ≫= (real !!.) with
    | Some prev_real_gdp =>
        if notna prev_real_gdp then
          g ← as_float growth_rate;
          Some (<[idx := (prev_real_gdp * growth_factor g)%float]> real)
        else use_annual_ratio
    | None => use_annual_ratio
    end.

(** Lines 355-377: the records the chain step left unresolved. *)
Definition fill_rows (adf : frame) (annual : list nat) (st : chain_state)
    : option (list float) :=
  for_each (fill_row (with_real adf (real_gdp st)) adf annual (annual_real_gdp st))
    (seq 0 (nrows adf)) (real_gdp st).

(** Lines 380-381: the interpolation fallback. *)
Definition fill_remaining (real : list float) : list float :=
  if decide (Exists (λ x, notna x = false) real) then interpolate_linear false real
  else real.

(** Lines 271-280: helper columns, then the sort by date. *)
Definition prepare (df : frame) : frame :=
  let cs := set_col (cols df) "year" (IntCol (dt_year <$> dates df)) in
  let cs := set_col cs real_gdp_col (NumCol (replicate (nrows df) PrimFloat.nan)) in
  sort_values (Frame (dates df) cs).

(** Lines 286-291: the year-end rows, or every row when there is none. *)
Definition annual_rows (adf : frame) : M (list nat) :=
  if decide (annual_index adf = []) then
    do _ <- emit (Print_warning MsgNoAnnualRows);
    ret (seq 0 (nrows adf))
  else ret (annual_index adf).

(** Lines 388-389: the real column takes the place of the nominal one. *)
Definition finish (adf : frame) (real : list float) : frame :=
  let cs := set_col (cols adf) real_gdp_col (NumCol real) in
  let cs := set_col cs value_col (NumCol real) in
  Frame (dates adf) (drop_cols cs [real_gdp_col; "year"]).

Definition _convert_gdp_to_real (df : frame) (base_year : Z) : M frame :=
  let adf := prepare df in
  do _ <- emit (Print_section (MsgComputeReal base_year));
  do annual <- annual_rows adf;
  do base_year <- select_base adf annual base_year;
  do a <- lift (anchor adf annual base_year);
  do _ <- emit (Print_success (MsgBaseNominal base_year a.2));
  do st <- lift (propagate adf annual base_year a.1 a.2);
  do real <- lift (fill_rows adf annual st);
  let real := fill_remaining real in
  do _ <- emit (Print_success
                  (MsgRealDone (length (filter (λ x, notna x = true) real)) (nrows adf)));
  ret (finish adf real).
End convert_gdp.

(** ** Resampling to months *)

(** The numeric values of a column as [float64]. *)
Definition col_floats (c : column) : list float :=
  match c with
  | NumCol xs => xs
  | IntCol xs => float_of_Z <$> xs
  | ObjCol _ => []
  end.

(** [df.select_dtypes(include=[np.number])] *)
Definition select_numeric (df : frame) : frame :=
  Frame (dates df) (filter (λ nc, is_numeric nc.2 = true) (cols df)).

(** The grouped mean of the library: missing values are skipped, the sum
    is compensated, an empty group gives NaN. *)
Definition mean_acc (acc : float * float * nat) (val : float) : float * float * nat :=
  if notna val then
    let y := (val - acc.1.2)%float in
    let t := (acc.1.1 + y)%float in
    let c := (t - acc.1.1 - y)%float in
    (t, if PrimFloat.is_nan c then 0%float else c, S acc.2)
  else acc.

Definition group_mean (xs : list float) : float :=
  let acc := foldl mean_acc (0%float, 0%float, 0%nat) xs in
  match acc.2 with
  | O => PrimFloat.nan
  | S _ => (acc.1.1 / float_of_nat acc.2)%float
  end.

(** The bins of [resample('MS')] over sorted dates: every calendar month
    from the month of the first date to the month of the last one. *)
Definition month_bins (ds : list date) : list Z :=
  match ds with
  | [] => []
  | d :: _ =>
      let lo := month_number d in
      let hi := month_number (List.last ds d) in
      (λ i : nat, lo + Z.of_nat i) <$> seq 0 (Z.to_nat (hi - lo + 1))
  end.

(** The observations of a column that fall in month [k]. *)
Definition in_month (ds : list date) (xs : list float) (k : Z) : list float :=
  (filter (λ dx, month_number dx.1 = k) (zip ds xs)).*2.

(** [df.resample('MS').mean()] followed by [reset_index()], on a frame
    sorted by date. *)
Definition resample_mean (df : frame) : frame :=
  let bins := month_bins (dates df) in
  Frame (month_of_number <$> bins)
        (prod_map id (λ c, NumCol ((λ k, group_mean (in_month (dates df) (col_floats c) k)) <$> bins))
           <$> cols df).

(** [FrequencyConverter._aggregate_daily_to_monthly] *)
Definition _aggregate_daily_to_monthly (df : frame) : frame :=
  resample_mean (select_numeric (sort_values df)).

(** [config.INTERPOLATION_METHOD] *)
Inductive interpolation_method := linear | cubic | quadratic.

Definition INTERPOLATION_METHOD : interpolation_method := linear.

(** [df.interpolate(method=..., limit_direction='both')], column by
    column; only the configured linear method is embedded. *)
Definition interpolate_both (m : interpolation_method) (c : column) : column :=
  match m, c with
  | linear, NumCol xs => NumCol (interpolate_linear true xs)
  | _, _ => c
  end.

(** [FrequencyConverter._interpolate_quarterly_to_monthly] *)
Definition _interpolate_quarterly_to_monthly (df : frame) : frame :=
  let df_monthly := resample_mean (select_numeric (sort_values df)) in
  Frame (dates df_monthly)
        (prod_map id (interpolate_both INTERPOLATION_METHOD) <$> cols df_monthly).

(** Each row twelve times, for the months 1..12 of its year. *)
Definition repeat12 {A} (xs : list A) : list A := xs ≫= replicate 12.

Definition repeat12_col (c : column) : column :=
  match c with
  | NumCol xs => NumCol (repeat12 xs)
  | IntCol xs => IntCol (repeat12 xs)
  | ObjCol xs => ObjCol (repeat12 xs)
  end.

Definition months_of_year (d : date) : list date :=
  (λ m : nat, Date (dt_year d) (Z.of_nat m) 1) <$> seq 1 12.

(** [FrequencyConverter._repeat_annual_to_monthly]; rows stay in input
    order, and an empty input gives a frame without columns. *)
Definition _repeat_annual_to_monthly (df : frame) : frame :=
  let cs := set_col (cols df) "year" (IntCol (dt_year <$> dates df)) in
  match dates df with
  | [] => Frame [] []
  | _ => Frame (dates df ≫= months_of_year)
               (drop_cols (prod_map id repeat12_col <$> cs) ["year"])
  end.

(** ** Frequency detection and dispatch: [FrequencyConverter.process_file] *)

(** What [os.path] and [utils.read_csv_safe] find under a file name. *)
Inductive file :=
| Missing
| Unreadable
| Csv (df : frame).

(** [series.diff().dt.days] over dates in ascending order. *)
Fixpoint day_gaps (ds : list date) : list Z :=
  match ds with
  | a :: (b :: _) as ds' => (toordinal b - toordinal a) :: day_gaps ds'
  | _ => []
  end.

(** [Series.median()]: the middle value once sorted, the mean of the two
    middle values for an even count, NaN ([None]) for no value at all.
    Day counts and their halves are exact in binary64, so the median is
    kept as a rational. *)
Definition median (xs : list Z) : option Q :=
  let s := merge_sort Z.le xs in
  let n := length s in
  match n with
  | O => None
  | _ =>
      if Nat.odd n then inject_Z <$> s !! (n / 2)%nat
      else
        a ← s !! (n / 2 - 1)%nat;
        b ← s !! (n / 2)%nat;
        Some ((inject_Z a + inject_Z b) / 2)%Q
  end.

(** Line 91: [abs(df_sorted['date'].diff().dt.days.median())] *)
Definition date_diff (df : frame) : option Q :=
  Qabs <$> median (day_gaps (dates (sort_values df))).

(** The label stored in [method]. *)
Inductive method :=
| Daily_mean         (* 日度平均 *)
| Linear_interp      (* 线性插值 *)
| Annual_repeat.     (* 年度重复 *)

(** Lines 116-137: the branch taken for a median gap; a NaN gap fails
    every comparison and reaches the [else]. *)
Definition Qltb (a b : Q) : bool := if Qlt_le_dec a b then true else false.

Definition classify (g : option Q) : option method :=
  match g with
  | None => None
  | Some date_diff =>
      if Qltb date_diff 10 then Some Daily_mean
      else if Qltb 50 date_diff && Qltb date_diff 120 then Some Linear_interp
      else if Qltb 300 date_diff then Some Annual_repeat
      else None
  end.

Definition resample_with (m : method) (df : frame) : frame :=
  match m with
  | Daily_mean => _aggregate_daily_to_monthly df
  | Linear_interp => _interpolate_quarterly_to_monthly df
  | Annual_repeat => _repeat_annual_to_monthly df
  end.

Definition detected (m : method) (g : Q) : message :=
  match m with
  | Daily_mean => MsgDaily g
  | Linear_interp => MsgQuarterly g
  | Annual_repeat => MsgAnnual g
  end.

(** ['GDP' in filename] *)
Fixpoint contains (needle s : string) : bool :=
  String.prefix needle s
  || match s with
     | EmptyString => false
     | String _ s' => contains needle s'
     end.

Definition GDP_VALUE : string := "国内生产总值-绝对值".
Definition GDP_GROWTH : string := "国内生产总值-同比增长".
Definition SECTORS : list string := ["第一产业"; "第二产业"; "第三产业"].

(** Lines 105-114, one sector. *)
Definition convert_sector (df : frame) (sector : string) : M frame :=
  let value_col := sector +:+ "-绝对值" in
  let growth_col := sector +:+ "-同比增长" in
  if decide (value_col ∈ columns df ∧ growth_col ∈ columns df) then
    _convert_gdp_to_real value_col growth_col df BASE_YEAR
  else ret df.

Fixpoint for_each_M {S X} (body : S → X → M S) (xs : list X) (s : S) : M S :=
  match xs with
  | [] => ret s
  | x :: xs' => do s' <- body s x; for_each_M body xs' s'
  end.

(** Lines 94-114: the real-value conversion of GDP files. *)
Definition is_gdp_data (filename : string) (df : frame) : bool :=
  contains "GDP" filename && bool_decide (GDP_VALUE ∈ columns df).

Definition convert_gdp_file (filename : string) (df : frame) : M frame :=
  if is_gdp_data filename df then
    do _ <- emit (Print_success MsgGdpDetected);
    do df <- _convert_gdp_to_real GDP_VALUE GDP_GROWTH df BASE_YEAR;
    for_each_M convert_sector SECTORS df
  else ret df.

(** Lines 85-137: the body of the [try] up to the choice of a strategy;
    [None] is the early [return False] of the [else] branch. *)
Definition convert_file (filename : string) (df : frame) : M (option (method * frame)) :=
  do _ <- emit (Print_section (MsgProcessing filename));
  let g := date_diff df in
  do df <- convert_gdp_file filename df;
  match classify g, g with
  | Some m, Some d =>
      do _ <- emit (Print_success (detected m d));
      ret (Some (m, resample_with m df))
  | _, _ =>
      do _ <- emit (Print_success (MsgAlreadyMonthly g));
      ret None
  end.

(** The result of [process_file]: what it reported, the Boolean it
    returned, and the frame it wrote to the output file, if any. *)
Record processed := Processed {
  reported : list event;
  returned : bool;
  written : option frame
}.

Definition process_file (fs : string → file) (save_ok : bool) (filename : string)
  : processed :=
  match fs filename with
  | Missing => Processed [Print_warning (MsgFileMissing filename)] false None
  | Unreadable => Processed [] false None
  | Csv df =>
      match convert_file filename df with
      | (l, None) => Processed (l ++ [Print_error MsgFailed]) false None
      | (l, Some None) => Processed l false None
      | (l, Some (Some (m, result_df))) =>
          if save_ok then
            Processed (l ++ [Print_success (MsgConverted (nrows df) (nrows result_df))])
                      true (Some result_df)
          else Processed l false None
      end
  end.

(** ** The unified monthly panel: [FrequencyConverter.create_unified_dataset] *)

Definition sort_dates (ds : list date) : list date := take_rows (argsort ds) ds.

(** The rows of a date column that carry the key [k]. *)
Definition rows_with (ds : list date) (k : date) : list nat :=
  filter (λ i, date_at ds i = k) (seq 0 (length ds)).

(** The row pairs of [pd.merge(left, right, on='date', how='outer')]:
    keys in ascending order; for a key on both sides every left row with
    every right row, for a key on one side its rows with nothing opposite. *)
Definition merge_pairs (l r : list date) : list (option nat * option nat) :=
  remove_dups (sort_dates (l ++ r)) ≫= λ k,
    match rows_with l k, rows_with r k with
    | [], rs => (λ j, (None, Some j)) <$> rs
    | ls, [] => (λ i, (Some i, None)) <$> ls
    | ls, rs => ls ≫= λ i, (λ j, (Some i, Some j)) <$> rs
    end.

Definition pair_date (l r : list date) (p : option nat * option nat) : date :=
  match p with
  | (Some i, _) => date_at l i
  | (None, Some j) => date_at r j
  | (None, None) => Date 0 0 0
  end.

(** The rows [p] of a column, the missing marker where there is none. *)
Definition take_opt {A} (missing : A) (p : list (option nat)) (xs : list A) : list A :=
  (λ o, default missing (o ≫= (xs !!.))) <$> p.

(** An [int64] column that receives a missing value becomes [float64]. *)
Definition take_opt_col (p : list (option nat)) (c : column) : column :=
  match c with
  | NumCol xs => NumCol (take_opt PrimFloat.nan p xs)
  | IntCol xs =>
      if decide (Forall is_Some p) then IntCol (take_opt 0 p xs)
      else NumCol (take_opt PrimFloat.nan p (float_of_Z <$> xs))
  | ObjCol xs => ObjCol (take_opt None p xs)
  end.

(** Column labels of the two sides never coincide in this program (the
    right side is renamed with its own prefix first), so no suffix is
    added. *)
Definition merge_outer (left right : frame) : frame :=
  let ps := merge_pairs (dates left) (dates right) in
  Frame (pair_date (dates left) (dates right) <$> ps)
        ((prod_map id (take_opt_col ps.*1) <$> cols left)
           ++ (prod_map id (take_opt_col ps.*2) <$> cols right)).

Definition files_to_merge : list (string * list string) :=
  [ ("CPI_标准日期.csv", ["全国-当月"; "全国-同比增长"]);
    ("PPI_标准日期.csv", ["当月"; "当月同比增长"]);
    ("PMI_标准日期.csv", ["制造业-指数"]);
    ("新增贷款_标准日期.csv", ["当月"; "当月-同比增长"]);
    ("GDP_月度.csv", ["国内生产总值-绝对值"; "国内生产总值-同比增长"]);
    ("国债利差_月度.csv", ["spread"]) ].

(** [filename.split('_')[0]] *)
Fixpoint split_first (s : string) : string :=
  match s with
  | EmptyString => EmptyString
  | String c s' => if Ascii.eqb c (Ascii.ascii_of_nat 95) then EmptyString else String c (split_first s')
  end.

(** Lines 443-453: the selected columns under their new labels
    [prefix_0], [prefix_1], ... *)
Definition available_cols (df : frame) (wanted : list string) : list string :=
  filter (λ col, col ∈ columns df) wanted.

Definition df_subset (filename : string) (df : frame) (wanted : list string) : frame :=
  Frame (dates df)
        (imap (λ i col, (split_first filename +:+ "_" +:+ pretty i,
                         default (NumCol []) (get_col (cols df) col)))
              (available_cols df wanted)).

(** Lines 429-457, one file. *)
Definition merge_file (fs : string → file) (merged_df : frame)
    (entry : string * list string) : frame :=
  match fs entry.1 with
  | Csv df =>
      match available_cols df entry.2 with
      | [] => merged_df
      | _ => merge_outer merged_df (df_subset entry.1 df entry.2)
      end
  | _ => merged_df
  end.

(** Lines 422-424: the base series; [None] is the [KeyError]. *)
Definition base_panel (df : frame) : option frame :=
  a ← get_col (cols df) "全国-当月";
  b ← get_col (cols df) "全国-同比增长";
  Some (Frame (dates df) [("CPI"%string, a); ("CPI_yoy"%string, b)]).

(** The panel returned (and written); [None] when the base file is
    missing or unusable, or the panel cannot be saved. *)
Definition create_unified_dataset (fs : string → file) (save_ok : bool) : option frame :=
  match fs "CPI_标准日期.csv"%string with
  | Csv df =>
      merged_df ← base_panel df;
      let merged_df := foldl (merge_file fs) merged_df (drop 1 files_to_merge) in
      let merged_df := sort_values merged_df in
      if save_ok then Some merged_df else None
  | _ => None
  end.

(** ** Missing values: [utils.check_missing_values] *)

(** [df.isnull().sum()] for one column: NaN in a [float64] column, the
    missing marker in an [object] column; an [int64] column holds none.
    The date column is parsed, holds none either, and is left out. *)
Definition isnull_sum (c : column) : nat :=
  match c with
  | NumCol xs => length (filter (λ x, notna x = false) xs)
  | IntCol _ => 0%nat
  | ObjCol xs => length (filter (λ o, o = None) xs)
  end.

(** [result[key] = value] on a dictionary, kept in insertion order. *)
Fixpoint dict_set {V} (d : list (string * V)) (key : string) (value : V)
  : list (string * V) :=
  match d with
  | [] => [(key, value)]
  | (k, v) :: d' =>
      if decide (k = key) then (k, value) :: d' else (k, v) :: dict_set d' key value
  end.

Record missing_stats := MissingStats { count : nat; percentage : float }.

Section check_missing_values.
(** [round(pct, 2)] on a [numpy.float64]. *)
Context (round_2 : float → float).

Definition check_missing_values (df : frame) : list (string * missing_stats) :=
  let missing := filter (λ nc, (0 < isnull_sum nc.2)%nat) (cols df) in
  foldl (λ result nc,
           let pct := (float_of_nat (isnull_sum nc.2) / float_of_nat (nrows df) * 100)%float in
           dict_set result nc.1 (MissingStats (isnull_sum nc.2) (round_2 pct)))
        [] missing.
End check_missing_values.

(** ** The conversion step: [FrequencyConverter.convert_all_to_monthly]

    The files are those of the data directory [config.DATA_DIR], under
    their names in it; they are frames with a parsed date column.  The
    log file is kept in another directory and is not part of the model.
    The environment decides whether a frame can be saved under a path
    ([utils.save_csv_safe]) and what reading a saved frame gives back; a
    save that fails leaves the files as they were. *)

(** [s.replace(old, new)] for a pattern [old] that is not empty: every
    occurrence, left to right; [skip] counts the characters of a replaced
    occurrence still to be passed over. *)
Fixpoint replace_from (old new : string) (skip : nat) (s : string) : string :=
  match s with
  | EmptyString => EmptyString
  | String c s' =>
      match skip with
      | S k => replace_from old new k s'
      | O =>
          if String.prefix old s
          then new +:+ replace_from old new (String.length old - 1) s'
          else String c (replace_from old new 0 s')
      end
  end.

(** Line 140: [filename.replace('_标准日期.csv', f'{output_suffix}.csv')] *)
Definition output_filename (filename : string) : string :=
  replace_from "_标准日期.csv" "_月度.csv" 0 filename.

(** A call that returns or lets an exception escape. *)
Inductive outcome (A : Type) :=
| Returned (a : A)
| Raised.
Arguments Returned {A} a.
Arguments Raised {A}.

(** Lines 40-44: the files converted when none are given. *)
Definition DEFAULT_FILES : list string :=
  ["GDP_标准日期.csv"; "国债利差_标准日期.csv"].

Section file_system.
Context (can_write : string → frame → bool) (read_back : frame → file).

(** [process_file] together with the file it leaves behind. *)
Definition run_process_file (fs : string → file) (filename : string)
  : bool * (string → file) :=
  let save_ok :=
    match written (process_file fs true filename) with
    | Some result_df => can_write (output_filename filename) result_df
    | None => false
    end in
  let p := process_file fs save_ok filename in
  (returned p,
   match written p with
   | Some result_df =>
       λ name, if decide (name = output_filename filename) then read_back result_df
               else fs name
   | None => fs
   end).

(** Lines 48-50: the loop, with [success_count]. *)
Definition count_file (acc : nat * (string → file)) (filename : string)
  : nat * (string → file) :=
  let r := run_process_file acc.2 filename in
  (if r.1 then S acc.1 else acc.1, r.2).

Definition convert_files (fs : string → file) (files : list string)
  : nat * (string → file) :=
  foldl count_file (0%nat, fs) files.

(** [create_unified_dataset] as a call, together with the files it
    leaves behind: selecting the CPI columns of a base file that lacks one
    raises [KeyError], which nothing catches here; the panel is saved as
    ['统一月度数据集.csv'] (line 464). *)
Definition run_create_unified_dataset (fs : string → file)
  : outcome (option frame) * (string → file) :=
  match fs "CPI_标准日期.csv"%string with
  | Csv df =>
      match base_panel df with
      | Some _ =>
          let save_ok :=
            match create_unified_dataset fs true with
            | Some merged_df => can_write "统一月度数据集.csv" merged_df
            | None => false
            end in
          let r := create_unified_dataset fs save_ok in
          (Returned r,
           match r with
           | Some merged_df =>
               λ name, if decide (name = "统一月度数据集.csv"%string)
                       then read_back merged_df else fs name
           | None => fs
           end)
      | None => (Raised, fs)
      end
  | _ => (Returned None, fs)
  end.

(** The value returned and the files left behind. *)
Definition convert_all_to_monthly (fs : string → file) (files : option (list string))
  : outcome nat * (string → file) :=
  let files := match files with Some files => files | None => DEFAULT_FILES end in
  let r := convert_files fs files in
  if decide (0 < r.1)%nat then
    let u := run_create_unified_dataset r.2 in
    (match u.1 with
     | Returned _ => Returned r.1
     | Raised => Raised
     end, u.2)
  else (Returned r.1, r.2).

(** [DataPipeline.step_interpolate] of [code/main.py] *)
Definition step_interpolate (fs : string → file) : bool :=
  match (convert_all_to_monthly fs None).1 with
  | Returned count => bool_decide (0 < count)%nat
  | Raised => false
  end.
End file_system.

(** ** Example inputs *)

(** Two observations fifty days apart. *)
Definition gap50 : frame :=
  Frame [Date 2020 1 1; Date 2020 2 20] [("v"%string, NumCol [1; 2]%float)].

(** Two observations thirty days apart. *)
Definition gap30 : frame :=
  Frame [Date 2020 1 1; Date 2020 1 31] [("v"%string, NumCol [1; 2]%float)].

(** Two quarter ends, ninety-one days apart (Scenario A). *)
Definition quarters : frame :=
  Frame [Date 2020 3 31; Date 2020 6 30] [("v"%string, NumCol [100; 110]%float)].

(** Two annual observations with a text column. *)
Definition annual_text : frame :=
  Frame [Date 2020 12 31; Date 2021 12 31]
        [("v"%string, NumCol [500; 510]%float);
         ("t"%string, ObjCol [Some "a"; Some "b"]%string)].

(** Scenario C: base year 2015 with nominal level 1000, growth 4% in
    2015 and 5% in 2016; rows out of order, with a text column. *)
Definition scenario_c : frame :=
  Frame [Date 2016 12 31; Date 2014 12 31; Date 2015 12 31]
        [("v"%string, NumCol [1200; 900; 1000]%float);
         ("g"%string, NumCol [5; 3; 4]%float);
         ("t"%string, ObjCol [Some "c"; Some "a"; Some "b"]%string)].

(** Year-end records three years apart: 2012, 2015 (base year), 2018. *)
Definition gap_years : frame :=
  Frame [Date 2012 12 31; Date 2015 12 31; Date 2018 12 31]
        [("v"%string, NumCol [700; 1000; 1300]%float);
         ("g"%string, NumCol [2; 4; 5]%float)].

(** Scenario D: growth of -100% reported for 2015 (the base year) and
    for 2016. *)
Definition degenerate_growth : frame :=
  Frame [Date 2014 12 31; Date 2015 12 31; Date 2016 12 31]
        [("v"%string, NumCol [900; 1000; 1200]%float);
         ("g"%string, NumCol [3; -100; -100]%float)].


(** Three files for the panel: the CPI base (January and February 2020),
    PMI (February and March 2020) and monthly GDP (December 2019). *)
Definition panel_cpi : frame :=
  Frame [Date 2020 2 1; Date 2020 1 1]
        [("全国-当月"%string, NumCol [101; 102]%float);
         ("全国-同比增长"%string, NumCol [1; 2]%float)].

Definition panel_files (filename : string) : file :=
  if decide (filename = "CPI_标准日期.csv"%string) then Csv panel_cpi
  else if decide (filename = "PMI_标准日期.csv"%string) then
    Csv (Frame [Date 2020 3 1; Date 2020 2 1] [("制造业-指数"%string, IntCol [50; 51]%Z)])
  else if decide (filename = "GDP_月度.csv"%string) then
    Csv (Frame [Date 2019 12 1] [("国内生产总值-同比增长"%string, NumCol [6]%float)])
  else Missing.

(** Quarterly observations whose first and last values are missing. *)
Definition quarters_open : frame :=
  Frame [Date 2020 3 31; Date 2020 6 30; Date 2020 9 30; Date 2020 12 31]
        [("v"%string, NumCol [PrimFloat.nan; 100; 110; PrimFloat.nan]%float)].

(** Quarterly cumulative GDP with year-end records for 2014-2016. *)
Definition quarterly_gdp : frame :=
  Frame [Date 2014 3 31; Date 2014 12 31; Date 2015 3 31; Date 2015 12 31;
         Date 2016 3 31; Date 2016 12 31]
        [("v"%string, NumCol [190; 900; 200; 1000; 250; 1200]%float);
         ("g"%string, NumCol [3; 3; 4; 4; 5; 5]%float)].

(** A series with a single observation. *)
Definition single_row : frame :=
  Frame [Date 2020 1 1] [("v"%string, NumCol [1]%float)].

(** A GDP file without any row. *)
Definition empty_gdp : frame :=
  Frame [] [("国内生产总值-绝对值"%string, NumCol []);
            ("国内生产总值-同比增长"%string, NumCol [])].

(** A GDP file with the level of two years and no growth column. *)
Definition gdp_without_growth : frame :=
  Frame [Date 2015 12 31; Date 2016 12 31]
        [("国内生产总值-绝对值"%string, NumCol [1000; 1200]%float)].

(** A quarterly GDP file with the level and the growth of the total and
    of one sector. *)
Definition gdp_quarterly : frame :=
  Frame [Date 2015 3 31; Date 2015 6 30; Date 2015 9 30; Date 2015 12 31]
        [("国内生产总值-绝对值"%string, NumCol [200; 450; 700; 1000]%float);
         ("国内生产总值-同比增长"%string, NumCol [4; 4; 4; 4]%float);
         ("第一产业-绝对值"%string, NumCol [20; 45; 70; 100]%float);
         ("第一产业-同比增长"%string, IntCol [3; 3; 3; 3]%Z)].

(** The quarterly GDP file and the CPI base file; no panel yet. *)
Definition step_files (filename : string) : file :=
  if decide (filename = "CPI_标准日期.csv"%string) then Csv panel_cpi
  else if decide (filename = "GDP_标准日期.csv"%string) then Csv gdp_quarterly
  else Missing.

(** Year-end records whose level is missing in the base year 2015. *)
Definition anchor_missing : frame :=
  Frame [Date 2014 12 31; Date 2015 12 31; Date 2016 12 31]
        [("v"%string, NumCol [900; PrimFloat.nan; 1200]%float);
         ("g"%string, NumCol [3; 4; 5]%float)].

(** A file system holding one file. *)
Definition one_file (name : string) (df : frame) (filename : string) : file :=
  if decide (filename = name) then Csv df else Missing.

(** * Vocabulary of the properties *)

Local Close Scope Z_scope.

(** [a] is not later than [b]. *)
Definition date_le (a b : date) : Prop := date_ltb b a = false.


(** The year-end rows the conversion works with. *)
Definition annual_of (adf : frame) : list nat :=
  if decide (annual_index adf = []) then seq 0 (nrows adf) else annual_index adf.

(** The record that stands for year [y]: the first year-end row of [y]. *)
Definition first_row (adf : frame) (annual : list nat) (y : Z) : option nat :=
  head (year_rows adf annual y).

(** The growth rate [G] and the nominal level [L] read at a row. *)
Definition growth_of (g : string) (adf : frame) (i : nat) : option float :=
  loc adf i g ≫= as_float.

Definition nominal_of (v : string) (adf : frame) (i : nat) : option float :=
  loc adf i v ≫= as_float.

(** A numeric column that covers every row. *)
Definition numeric_col (df : frame) (n : string) : Prop :=
  ∃ c, get_col (cols df) n = Some c ∧ is_numeric c = true ∧ col_length c = nrows df.

(** Years [p < y] with year-end records and none in between. *)
Definition adjacent_years (years : list Z) (p y : Z) : Prop :=
  (p < y)%Z ∧ p ∈ years ∧ y ∈ years ∧ ∀ z, (p < z < y)%Z → z ∉ years.

(** What holds of the dictionary and the real-value column once the
    forward loop has run through the positions [F] of [years] and the
    backward loop through the positions [B]. *)
Definition linked (g : string) (adf : frame) (annual : list nat)
    (base_year : Z) (L : float) (F B : list nat) (st : chain_state) : Prop :=
  length (real_gdp st) = nrows adf ∧
  annual_real_gdp st !! base_year = Some L ∧
  (∀ y, is_Some (annual_real_gdp st !! y) →
     y = base_year ∨ ∃ j, (j ∈ F ∨ j ∈ B) ∧ years_of adf annual !! j = Some y) ∧
  (∀ j y, j ∈ F ∨ j ∈ B → years_of adf annual !! j = Some y →
     is_Some (annual_real_gdp st !! y)) ∧
  (∀ y r, annual_real_gdp st !! y = Some r →
     ∃ idx, first_row adf annual y = Some idx ∧ real_gdp st !! idx = Some r) ∧
  (∀ j y p, j ∈ F → years_of adf annual !! j = Some y →
     years_of adf annual !! (j - 1) = Some p →
     ∃ idx gr rp, first_row adf annual y = Some idx ∧ growth_of g adf idx = Some gr ∧
       annual_real_gdp st !! p = Some rp ∧
       annual_real_gdp st !! y = Some (rp * growth_factor gr)%float) ∧
  (∀ j y nx, j ∈ B → years_of adf annual !! j = Some y →
     years_of adf annual !! (j + 1) = Some nx →
     ∃ nidx gr rn, first_row adf annual nx = Some nidx ∧ growth_of g adf nidx = Some gr ∧
       annual_real_gdp st !! nx = Some rn ∧
       annual_real_gdp st !! y = Some (rn / growth_factor gr)%float).

(** [m] is a median of [ys]: it occurs in [ys], at most half of the values
    lie below it and at most half lie above it. *)
Definition is_median (m : Z) (ys : list Z) : Prop :=
  m ∈ ys ∧
  2 * length (filter (λ y, (y < m)%Z) ys) ≤ length ys ∧
  2 * length (filter (λ y, (m < y)%Z) ys) ≤ length ys.

(** Every column covers every row. *)
Definition wf_frame (df : frame) : Prop :=
  Forall (λ nc, col_length nc.2 = nrows df) (cols df).

(** What a file of [files_to_merge] contributes to the panel, if anything. *)
Definition contribution (fs : string → file) (entry : string * list string)
  : option frame :=
  match fs entry.1 with
  | Csv df =>
      match available_cols df entry.2 with
      | [] => None
      | _ => Some (df_subset entry.1 df entry.2)
      end
  | _ => None
  end.

(** The cell of a missing value. *)
Definition missing : option cell := Some (CNum PrimFloat.nan).

(** The columns [block] of panel [m] are those of series [s], missing at
    every row whose date is not a date of [s]. *)
Definition block_of (m s : frame) (block : list (string * column)) : Prop :=
  block.*1 = columns s ∧
  ∀ i d, dates m !! i = Some d → d ∉ dates s →
    Forall (λ nc, col_cell nc.2 i = missing) block.

(** A row pair of the outer join and its key. *)
Definition pair_ok (l r : list date) (p : option nat * option nat) (k : date) : Prop :=
  pair_date l r p = k ∧
  (∀ i, p.1 = Some i → l !! i = Some k) ∧
  (∀ j, p.2 = Some j → r !! j = Some k) ∧
  (p.1 = None → k ∉ l) ∧
  (p.2 = None → k ∉ r) ∧
  (is_Some p.1 ∨ is_Some p.2).

(** The panel [m] is the outer join of [series]: its dates are theirs, and
    its columns are theirs block by block. *)
Definition panel_inv (m : frame) (series : list frame) : Prop :=
  wf_frame m ∧
  (∀ d, d ∈ dates m ↔ ∃ s, s ∈ series ∧ d ∈ dates s) ∧
  ∃ blocks, cols m = List.concat blocks ∧ Forall2 (block_of m) series blocks.

(** The record a year before record [idx] to the day: the first row with
    that date, if any. *)
Definition prior_row (adf : frame) (idx : nat) : option nat :=
  head (filter (λ j, date_at (dates adf) j = minus_one_year (date_at (dates adf) idx))
          (seq 0 (nrows adf))).

(** The state the chain step leaves on [quarterly_gdp], and the column the
    record loop leaves. *)
Definition quarterly_gdp_chain : chain_state :=
  default (ChainState ∅ [])
    (chain_step "v" "g" (prepare "v" quarterly_gdp)
       (annual_of (prepare "v" quarterly_gdp)) 2015).

Definition quarterly_gdp_real : list float :=
  default []
    (fill_rows "v" "g" (prepare "v" quarterly_gdp)
       (annual_of (prepare "v" quarterly_gdp)) quarterly_gdp_chain).

(** Nothing is resolved: the year map and the real-value column hold
    missing values only; the column covers [k] rows. *)
Definition all_missing (k : nat) (st : chain_state) : Prop :=
  (∀ y r, annual_real_gdp st !! y = Some r → notna r = false) ∧
  length (real_gdp st) = k ∧
  Forall (λ x, notna x = false) (real_gdp st).

(** Every column is numeric and covers every row. *)
Definition all_numeric (df : frame) : Prop :=
  Forall (λ nc, is_numeric nc.2 = true ∧ col_length nc.2 = nrows df) (cols df).

(** The labels a panel can carry: those of the base series, then
    [prefix_0], [prefix_1], ... for the columns wanted of each further
    file, in the order of [files_to_merge]. *)
Definition panel_labels : list string :=
  "CPI"%string :: "CPI_yoy"%string ::
  (drop 1 files_to_merge ≫= λ e,
     imap (λ (i : nat) (_ : string), split_first e.1 +:+ "_" +:+ pretty i) e.2).

(** The columns [block] of panel [m] carry the values of series [s]: a
    row of the panel whose date is a date of [s] holds, in every column
    of the block, the value that a row of [s] with that date has in the
    column of the same label. *)
Definition block_carries (m s : frame) (block : list (string * column)) : Prop :=
  ∀ i d, dates m !! i = Some d → d ∈ dates s →
    ∃ j, dates s !! j = Some d ∧
         Forall2 (λ nc nc', nc.1 = nc'.1 ∧ col_cell nc.2 i = col_cell nc'.2 j)
           block (cols s).

(** The panel [m] holds what each of [series] holds, block by block. *)
Definition panel_carries (m : frame) (series : list frame) : Prop :=
  wf_frame m ∧
  (∀ s d, s ∈ series → d ∈ dates s → d ∈ dates m) ∧
  ∃ blocks, cols m = List.concat blocks ∧ Forall2 (block_carries m) series blocks.

(** * Properties *)

(** ** The monad *)

Lemma bind_Some {A B} (m : M A) (f : A → M B) l b :
  bind m f = (l, Some b) →
  ∃ l1 a l2, m = (l1, Some a) ∧ f a = (l2, Some b) ∧ l = l1 ++ l2.
Proof.
  destruct m as [l1 [a|]]; simpl; [|intros [=]].
  destruct (f a) as [l2 r] eqn:E. intros [= <- ->]. eauto 6.
Qed.

Lemma bind_ret_Some {A B} (m : M A) (f : A → M B) l1 a :
  m = (l1, Some a) → bind m f = (l1 ++ (f a).1, (f a).2).
Proof. intros ->. simpl. by destruct (f a). Qed.

(** ** Frequency classes (lines 116-137) *)

Lemma Qltb_lt (a b : Q) : Qltb a b = true ↔ (a < b)%Q.
Proof. unfold Qltb. destruct (Qlt_le_dec a b); split; intros; try done; lra. Qed.

Lemma Qltb_ge (a b : Q) : Qltb a b = false ↔ (b <= a)%Q.
Proof. unfold Qltb. destruct (Qlt_le_dec a b); split; intros; try done; lra. Qed.

Lemma classify_quarterly (g : Q) :
  classify (Some g) = Some Linear_interp ↔ (50 < g)%Q ∧ (g < 120)%Q.
Proof.
  unfold classify.
  destruct (Qltb g 10) eqn:E1; [apply Qltb_lt in E1|apply Qltb_ge in E1].
  { split; [done|]. intros [? ?]; lra. }
  destruct (Qltb 50 g) eqn:E2; [apply Qltb_lt in E2|apply Qltb_ge in E2];
  destruct (Qltb g 120) eqn:E3; [apply Qltb_lt in E3|apply Qltb_ge in E3| |];
    simpl; try (split; [done|intros [? ?]; lra]).
  - destruct (Qltb 300 g); split; try done; intros [? ?]; lra.
  - destruct (Qltb 300 g); split; try done; intros [? ?]; lra.
  - apply Qltb_lt in E3. destruct (Qltb 300 g); split; try done; intros [? ?]; lra.
  - apply Qltb_ge in E3. destruct (Qltb 300 g); split; try done; intros [? ?]; lra.
Qed.

Lemma classify_monthly (g : Q) :
  classify (Some g) = None ↔
  ((10 <= g)%Q ∧ (g <= 50)%Q) ∨ ((120 <= g)%Q ∧ (g <= 300)%Q).
Proof.
  unfold classify.
  destruct (Qltb g 10) eqn:E1; [apply Qltb_lt in E1|apply Qltb_ge in E1].
  { split; [done|]. intros [[? ?]|[? ?]]; lra. }
  destruct (Qltb 50 g) eqn:E2; [apply Qltb_lt in E2|apply Qltb_ge in E2];
  destruct (Qltb g 120) eqn:E3; [apply Qltb_lt in E3|apply Qltb_ge in E3| |];
    simpl.
  - split; [done|]. intros [[? ?]|[? ?]]; lra.
  - destruct (Qltb 300 g) eqn:E4; [apply Qltb_lt in E4|apply Qltb_ge in E4].
    + split; [done|]. intros [[? ?]|[? ?]]; lra.
    + split; [|done]. intros _. right. split; lra.
  - apply Qltb_lt in E3.
    destruct (Qltb 300 g) eqn:E4; [apply Qltb_lt in E4|apply Qltb_ge in E4].
    + lra.
    + split; [|done]. intros _. left. split; lra.
  - apply Qltb_ge in E3. lra.
Qed.

Lemma process_file_converted fs filename df l m df' :
  fs filename = Csv df →
  convert_gdp_file filename df = (l, Some df') →
  classify (date_diff df) = Some m →
  returned (process_file fs true filename) = true ∧
  written (process_file fs true filename) = Some (resample_with m df').
Proof.
  intros Hfs Hgdp Hm. unfold process_file, convert_file. rewrite Hfs.
  destruct (date_diff df) as [g|] eqn:Hg; [|done].
  cbn [bind emit]. rewrite Hgdp, Hm. cbn. done.
Qed.

Lemma process_file_skipped fs save_ok filename df :
  fs filename = Csv df →
  classify (date_diff df) = None →
  returned (process_file fs save_ok filename) = false ∧
  written (process_file fs save_ok filename) = None.
Proof.
  intros Hfs Hm. unfold process_file, convert_file. rewrite Hfs, Hm.
  cbn [bind emit].
  destruct (convert_gdp_file filename df) as [l [df'|]]; cbn; done.
Qed.

(** C3, the claim as stated fails at its endpoints: a series whose median
    gap is exactly 50 days (and one whose gap is exactly 120 days) is not
    taken as quarterly; nothing is interpolated or written. *)
Lemma gap_50_not_quarterly :
  date_diff gap50 = Some 50%Q ∧
  (50 <= 50)%Q ∧ (50 <= 120)%Q ∧
  classify (date_diff gap50) ≠ Some Linear_interp ∧
  written (process_file (one_file "s.csv" gap50) true "s.csv") = None ∧
  classify (Some 120%Q) ≠ Some Linear_interp.
Proof. vm_compute. repeat split; congruence. Qed.

(** C3, amended: a series is taken as quarterly exactly when its median
    gap g satisfies 50 < g < 120, both endpoints excluded; such a series
    is resampled by [_interpolate_quarterly_to_monthly] and the result is
    written. *)
Theorem quarterly_strictly_between fs filename df g l df' :
  fs filename = Csv df →
  date_diff df = Some g →
  (50 < g)%Q → (g < 120)%Q →
  convert_gdp_file filename df = (l, Some df') →
  (∀ g', classify (Some g') = Some Linear_interp ↔ (50 < g')%Q ∧ (g' < 120)%Q) ∧
  classify (date_diff df) = Some Linear_interp ∧
  returned (process_file fs true filename) = true ∧
  written (process_file fs true filename)
    = Some (_interpolate_quarterly_to_monthly df').
Proof.
  intros Hfs Hg H1 H2 Hgdp.
  assert (Hc : classify (date_diff df) = Some Linear_interp).
  { rewrite Hg. by apply classify_quarterly. }
  split; [apply classify_quarterly|]. split; [done|].
  apply (process_file_converted fs filename df l Linear_interp df'); done.
Qed.

Lemma quarterly_strictly_between_witness :
  written (process_file (one_file "s.csv" quarters) true "s.csv")
    = Some (_interpolate_quarterly_to_monthly quarters).
Proof.
  refine (proj2 (proj2 (proj2
    (quarterly_strictly_between (one_file "s.csv" quarters) "s.csv" quarters
       91%Q [] quarters _ _ _ _ _)))); vm_compute; reflexivity.
Defined.

(** C4, the claim as stated fails: a series with a median gap of 30 days
    is not passed through as a successful monthly output; [process_file]
    returns [False] and writes nothing. *)
Lemma gap_30_not_passed_through :
  date_diff gap30 = Some 30%Q ∧
  (10 <= 30)%Q ∧ (30 <= 50)%Q ∧
  returned (process_file (one_file "s.csv" gap30) true "s.csv") = false ∧
  written (process_file (one_file "s.csv" gap30) true "s.csv") = None.
Proof. vm_compute. repeat split; congruence. Qed.

(** C4, amended: for a median gap g with 10 <= g <= 50 or 120 <= g <= 300
    the series counts as already monthly: no strategy is selected, no
    resampling is performed, nothing is written, and [process_file]
    returns [False] (the file is not counted as converted). *)
Theorem monthly_not_converted fs save_ok filename df g :
  fs filename = Csv df →
  date_diff df = Some g →
  ((10 <= g)%Q ∧ (g <= 50)%Q) ∨ ((120 <= g)%Q ∧ (g <= 300)%Q) →
  classify (date_diff df) = None ∧
  returned (process_file fs save_ok filename) = false ∧
  written (process_file fs save_ok filename) = None.
Proof.
  intros Hfs Hg Hr.
  assert (Hc : classify (date_diff df) = None).
  { rewrite Hg. by apply classify_monthly. }
  split; [done|]. by apply (process_file_skipped fs save_ok filename df).
Qed.

Lemma monthly_not_converted_witness :
  classify (date_diff gap30) = None ∧
  returned (process_file (one_file "s.csv" gap30) true "s.csv") = false ∧
  written (process_file (one_file "s.csv" gap30) true "s.csv") = None.
Proof.
  apply (monthly_not_converted (one_file "s.csv" gap30) true "s.csv" gap30 30%Q).
  - vm_compute; reflexivity.
  - vm_compute; reflexivity.
  - left. split; vm_compute; congruence.
Defined.

(** ** Dates and the sort by date *)

Ltac date_order :=
  unfold date_le, date_ltb in *;
  repeat match goal with
         | d : date |- _ => destruct d
         end;
  simpl in *;
  repeat match goal with
         | H : context [(?a <? ?b)%Z] |- _ => destruct (Z.ltb_spec a b)
         | |- context [(?a <? ?b)%Z] => destruct (Z.ltb_spec a b)
         | H : context [(?a =? ?b)%Z] |- _ => destruct (Z.eqb_spec a b)
         | |- context [(?a =? ?b)%Z] => destruct (Z.eqb_spec a b)
         end;
  simpl in *; try done; try lia.

#[local] Instance date_le_trans : Transitive date_le.
Proof. intros a b c Hab Hbc. date_order. Qed.

Lemma date_le_total a b : date_le a b ∨ date_le b a.
Proof. date_order; auto. Qed.

Lemma date_ltb_false_le a b : date_ltb a b = false → date_le b a.
Proof. done. Qed.

Lemma date_ltb_true_le a b : date_ltb a b = true → date_le a b.
Proof. intros H. date_order. Qed.

Lemma date_le_year a b : date_le a b → (dt_year a ≤ dt_year b)%Z.
Proof. intros H. date_order. Qed.

Lemma date_le_antisym a b : date_le a b → date_le b a → a = b.
Proof. intros H1 H2. date_order. f_equal; lia. Qed.


Lemma insert_idx_Permutation ds i p : insert_idx ds i p ≡ₚ i :: p.
Proof.
  induction p as [|j p IH]; simpl; [done|].
  case_match; [done|]. by rewrite IH, Permutation_swap.
Qed.

Lemma foldl_insert_idx_Permutation ds l acc :
  foldl (λ p i, insert_idx ds i p) acc l ≡ₚ l ++ acc.
Proof.
  revert acc. induction l as [|i l IH]; intros acc; simpl; [done|].
  rewrite IH, insert_idx_Permutation. by rewrite Permutation_middle.
Qed.

Lemma argsort_Permutation ds : argsort ds ≡ₚ seq 0 (length ds).
Proof.
  unfold argsort. rewrite foldl_insert_idx_Permutation. by rewrite app_nil_r.
Qed.

Lemma argsort_length ds : length (argsort ds) = length ds.
Proof. by rewrite argsort_Permutation, length_seq. Qed.

Lemma argsort_lt ds : Forall (λ i, i < length ds) (argsort ds).
Proof.
  rewrite argsort_Permutation. apply Forall_forall. intros i Hi.
  apply elem_of_seq in Hi. lia.
Qed.

Lemma argsort_NoDup ds : NoDup (argsort ds).
Proof. rewrite argsort_Permutation. apply NoDup_seq. Qed.

Lemma insert_idx_Sorted ds i p :
  Sorted (λ a b, date_le (date_at ds a) (date_at ds b)) p →
  Sorted (λ a b, date_le (date_at ds a) (date_at ds b)) (insert_idx ds i p).
Proof.
  induction 1 as [|j p Hs IH Hhd]; simpl.
  { repeat constructor. }
  destruct (date_ltb (date_at ds i) (date_at ds j)) eqn:E.
  - constructor; [by constructor|]. constructor. by apply date_ltb_true_le.
  - constructor; [done|].
    destruct Hhd as [|k p' Hjk]; simpl.
    + constructor. by apply date_ltb_false_le.
    + case_match; constructor; [by apply date_ltb_false_le|done].
Qed.

Lemma argsort_Sorted ds :
  Sorted (λ a b, date_le (date_at ds a) (date_at ds b)) (argsort ds).
Proof.
  unfold argsort. generalize (seq 0 (length ds)).
  assert (Hnil : Sorted (λ a b, date_le (date_at ds a) (date_at ds b)) []) by constructor.
  revert Hnil. generalize (@nil nat) as acc. intros acc Hacc l. revert acc Hacc.
  induction l as [|i l IH]; intros acc Hacc; simpl; [done|].
  apply IH. by apply insert_idx_Sorted.
Qed.

(** Rows taken at valid positions: one row per position. *)
Lemma take_rows_fmap {A} (d : A) (p : list nat) (xs : list A) :
  Forall (λ i, i < length xs) p →
  take_rows p xs = (λ i, default d (xs !! i)) <$> p.
Proof.
  unfold take_rows. induction 1 as [|i p Hi Hp IH]; csimpl; [done|].
  destruct (lookup_lt_is_Some_2 xs i Hi) as [x Hx]. rewrite Hx. simpl.
  by rewrite IH.
Qed.

Lemma take_rows_length {A} (p : list nat) (xs : list A) :
  Forall (λ i, i < length xs) p → length (take_rows p xs) = length p.
Proof.
  intros Hp. destruct xs as [|x xs].
  { destruct Hp as [|i p Hi]; [done|simpl in Hi; lia]. }
  by rewrite (take_rows_fmap x), length_fmap.
Qed.

Lemma take_rows_lookup {A} (p : list nat) (xs : list A) k :
  Forall (λ i, i < length xs) p →
  take_rows p xs !! k = p !! k ≫= (xs !!.).
Proof.
  intros Hp. destruct xs as [|x xs].
  { destruct Hp as [|i p Hi]; [by destruct k|simpl in Hi; lia]. }
  rewrite (take_rows_fmap x) by done. rewrite list_lookup_fmap.
  destruct (p !! k) as [i|] eqn:E; simpl; [|done].
  eapply Forall_lookup_1 in Hp; [|done].
  by destruct (lookup_lt_is_Some_2 (x :: xs) i Hp) as [y ->].
Qed.

Lemma sort_dates_length ds : length (sort_dates ds) = length ds.
Proof.
  unfold sort_dates. rewrite take_rows_length by apply argsort_lt.
  apply argsort_length.
Qed.

Lemma sort_dates_Sorted ds : Sorted date_le (sort_dates ds).
Proof.
  unfold sort_dates.
  rewrite (take_rows_fmap (Date 0 0 0)) by apply argsort_lt.
  eapply Sorted_fmap; [|apply argsort_Sorted]. done.
Qed.

Lemma fmap_lookup_seq {A} (d : A) (xs : list A) :
  (λ i, default d (xs !! i)) <$> seq 0 (length xs) = xs.
Proof.
  apply list_eq. intros i. rewrite list_lookup_fmap.
  destruct (decide (i < length xs)) as [Hi|Hi].
  - rewrite lookup_seq_lt by done. simpl.
    by destruct (lookup_lt_is_Some_2 xs i Hi) as [y ->].
  - rewrite lookup_seq_ge by lia. simpl. symmetry. apply lookup_ge_None. lia.
Qed.

Lemma sort_dates_Permutation ds : sort_dates ds ≡ₚ ds.
Proof.
  unfold sort_dates.
  rewrite (take_rows_fmap (Date 0 0 0)) by apply argsort_lt.
  rewrite argsort_Permutation. by rewrite fmap_lookup_seq.
Qed.

#[local] Instance date_le_antisymm : AntiSymm (=) date_le.
Proof. intros a b. apply date_le_antisym. Qed.

(** With pairwise distinct dates the date order is unique: whatever
    permutation of the rows puts the dates in ascending order, it is the
    one computed by [argsort]. *)
Lemma argsort_unique ds p :
  NoDup ds → p ≡ₚ seq 0 (length ds) → Sorted date_le (take_rows p ds) →
  p = argsort ds.
Proof.
  intros Hnd Hp Hs.
  assert (Hlt : Forall (λ i, i < length ds) p).
  { rewrite Hp. apply Forall_seq. lia. }
  rewrite (take_rows_fmap (Date 0 0 0)) in Hs by done.
  pose proof (sort_dates_Sorted ds) as Hs'. unfold sort_dates in Hs'.
  rewrite (take_rows_fmap (Date 0 0 0)) in Hs' by apply argsort_lt.
  assert (E : (λ i, default (Date 0 0 0) (ds !! i)) <$> p
              = (λ i, default (Date 0 0 0) (ds !! i)) <$> argsort ds).
  { apply (Sorted_unique date_le); [done|done|].
    by rewrite Hp, argsort_Permutation. }
  pose proof (argsort_lt ds) as Hq. revert E Hq. generalize (argsort ds) as q.
  clear Hp Hs Hs'. induction Hlt as [|i p Hi Hlt IH]; intros [|j q] E Hq; try done.
  apply Forall_cons in Hq as [Hj Hq]. injection E as Ehd Etl.
  f_equal; [|by apply IH].
  destruct (lookup_lt_is_Some_2 ds i Hi) as [x Hx].
  destruct (lookup_lt_is_Some_2 ds j Hj) as [y Hy].
  rewrite Hx, Hy in Ehd. simpl in Ehd. subst y.
  by eapply NoDup_lookup.
Qed.

Lemma sort_dates_elem_of ds d : d ∈ sort_dates ds ↔ d ∈ ds.
Proof. by rewrite sort_dates_Permutation. Qed.

Lemma dates_sort_values df : dates (sort_values df) = sort_dates (dates df).
Proof. done. Qed.

Lemma nrows_sort_values df : nrows (sort_values df) = nrows df.
Proof. unfold nrows. rewrite dates_sort_values. apply sort_dates_length. Qed.

(** ** Columns of a frame *)

Implicit Types cs : list (string * column).
Implicit Types ns : list string.
Implicit Types n : string.

Lemma names_fmap (f : column → column) cs : (prod_map id f <$> cs).*1 = cs.*1.
Proof. induction cs as [|[n c] cs IH]; csimpl; [done|]. by rewrite IH. Qed.

Lemma get_col_fmap (f : column → column) cs n :
  get_col (prod_map id f <$> cs) n = f <$> get_col cs n.
Proof.
  induction cs as [|[m c] cs IH]; csimpl; [done|]. by case_decide.
Qed.

Lemma get_col_Some_elem cs n c : get_col cs n = Some c → n ∈ cs.*1.
Proof.
  induction cs as [|[m c0] cs IH]; csimpl; [done|].
  case_decide as E; [intros _; subst; left|intros Hg; right; auto].
Qed.

Lemma get_col_filter (P : string * column → Prop) `{!∀ x, Decision (P x)} cs n c :
  get_col cs n = Some c → P (n, c) → get_col (filter P cs) n = Some c.
Proof.
  induction cs as [|[m c0] cs IH]; csimpl; [done|]. intros Hg HP.
  rewrite filter_cons. case_decide as Hm.
  - simplify_eq. rewrite decide_True by done. simpl. by rewrite decide_True.
  - case_decide; simpl; [rewrite decide_False by done|]; auto.
Qed.

Lemma filter_fmap_comm {A B} (f : A → B) (P : B → Prop) (Q : A → Prop)
    `{!∀ x, Decision (P x)} `{!∀ x, Decision (Q x)} (l : list A) :
  (∀ x, P (f x) ↔ Q x) → filter P (f <$> l) = f <$> filter Q l.
Proof.
  intros HPQ. induction l as [|x l IH]; csimpl; [done|].
  rewrite !filter_cons. destruct (decide (P (f x))) as [HP|HP];
    destruct (decide (Q x)) as [HQ|HQ]; csimpl; rewrite ?IH; try done;
    [by apply HPQ in HP | by apply HPQ in HQ].
Qed.

Lemma set_col_notin cs n c : n ∉ cs.*1 → set_col cs n c = cs ++ [(n, c)].
Proof.
  induction cs as [|[m c0] cs IH]; csimpl; [done|]. intros Hn.
  rewrite not_elem_of_cons in Hn. destruct Hn as [Hne Hn].
  rewrite decide_False by done. by rewrite IH.
Qed.

Lemma set_col_app_l cs cs' n c :
  n ∈ cs.*1 → set_col (cs ++ cs') n c = set_col cs n c ++ cs'.
Proof.
  induction cs as [|[m c0] cs IH]; csimpl; [by intros ?%elem_of_nil|].
  intros Hn. case_decide; [done|].
  apply elem_of_cons in Hn as [->|Hn]; [done|]. by rewrite IH.
Qed.

Lemma set_col_app_r cs cs' n c :
  n ∉ cs.*1 → set_col (cs ++ cs') n c = cs ++ set_col cs' n c.
Proof.
  induction cs as [|[m c0] cs IH]; csimpl; [done|]. intros Hn.
  rewrite not_elem_of_cons in Hn. destruct Hn as [Hne Hn].
  rewrite decide_False by done. by rewrite IH.
Qed.

Lemma replace_absent cs n (c : column) :
  n ∉ cs.*1 → (λ nc, (nc.1, if decide (nc.1 = n) then c else nc.2)) <$> cs = cs.
Proof.
  induction cs as [|[m c0] cs IH]; csimpl; [done|]. intros Hn.
  rewrite not_elem_of_cons in Hn. destruct Hn as [Hne Hn].
  rewrite decide_False by done. by rewrite IH.
Qed.

(** With distinct labels, assigning to an existing column rewrites that
    column and leaves every other one alone. *)
Lemma set_col_replace cs n c :
  NoDup cs.*1 → n ∈ cs.*1 →
  set_col cs n c = (λ nc, (nc.1, if decide (nc.1 = n) then c else nc.2)) <$> cs.
Proof.
  induction cs as [|[m c0] cs IH]; csimpl; [by intros _ ?%elem_of_nil|].
  intros [Hm Hnd]%NoDup_cons Hn. case_decide as E.
  - subst. f_equal. by rewrite replace_absent.
  - apply elem_of_cons in Hn as [->|Hn]; [done|]. by rewrite IH.
Qed.

Lemma drop_cols_app cs cs' ns :
  drop_cols (cs ++ cs') ns = drop_cols cs ns ++ drop_cols cs' ns.
Proof. apply filter_app. Qed.

Lemma drop_cols_disjoint cs ns :
  (∀ n, n ∈ cs.*1 → n ∉ ns) → drop_cols cs ns = cs.
Proof.
  unfold drop_cols. induction cs as [|[m c0] cs IH]; csimpl; [done|]. intros H.
  rewrite filter_cons. rewrite decide_True by (apply H; left).
  rewrite IH; [done|]. intros n Hn. apply H. by right.
Qed.

Lemma drop_cols_set_col cs n c : drop_cols (set_col cs n c) [n] = drop_cols cs [n].
Proof.
  unfold drop_cols. induction cs as [|[m c0] cs IH]; csimpl.
  - rewrite filter_cons. simpl. rewrite decide_False; [done|]. set_solver.
  - case_decide as E.
    + subst. rewrite !filter_cons. simpl.
      rewrite !decide_False; [done|set_solver..].
    + rewrite !filter_cons. simpl. by rewrite IH.
Qed.

Lemma is_numeric_take_col p c : is_numeric (take_col p c) = is_numeric c.
Proof. by destruct c. Qed.

Lemma string_app_length (a b : string) :
  String.length (a +:+ b) = String.length a + String.length b.
Proof. induction a as [|x a IH]; simpl; [done|]. by rewrite IH. Qed.

Lemma real_gdp_col_not_year v : real_gdp_col v ≠ "year"%string.
Proof.
  intros H. apply (f_equal String.length) in H. unfold real_gdp_col in H.
  rewrite string_app_length in H. simpl in H. lia.
Qed.

Lemma real_gdp_col_not_value v : real_gdp_col v ≠ v.
Proof.
  intros H. apply (f_equal String.length) in H. unfold real_gdp_col in H.
  rewrite string_app_length in H. simpl in H. lia.
Qed.

(** ** Which columns survive resampling (lines 170-245) *)

Lemma select_numeric_sort_values df :
  cols (select_numeric (sort_values df))
  = prod_map id (take_col (argsort (dates df))) <$> cols (select_numeric df).
Proof.
  unfold select_numeric, sort_values, take_frame. simpl.
  apply filter_fmap_comm. intros [n c]. simpl. by rewrite is_numeric_take_col.
Qed.

Lemma resample_mean_columns df : columns (resample_mean df) = columns df.
Proof. unfold columns, resample_mean. simpl. apply names_fmap. Qed.

Lemma resample_mean_numeric df :
  Forall (λ nc, is_numeric nc.2 = true) (cols (resample_mean df)).
Proof.
  unfold resample_mean. simpl. apply Forall_fmap, Forall_forall.
  by intros [n c] _.
Qed.

Lemma aggregate_columns df :
  columns (_aggregate_daily_to_monthly df) = columns (select_numeric df).
Proof.
  unfold _aggregate_daily_to_monthly. rewrite resample_mean_columns.
  unfold columns. rewrite select_numeric_sort_values. apply names_fmap.
Qed.

Lemma interpolate_columns df :
  columns (_interpolate_quarterly_to_monthly df) = columns (select_numeric df).
Proof.
  unfold _interpolate_quarterly_to_monthly, columns. cbn [cols]. rewrite names_fmap.
  apply (aggregate_columns df).
Qed.

Lemma interpolate_numeric df :
  Forall (λ nc, is_numeric nc.2 = true) (cols (_interpolate_quarterly_to_monthly df)).
Proof.
  unfold _interpolate_quarterly_to_monthly. cbn [cols]. apply Forall_fmap.
  eapply Forall_impl; [apply resample_mean_numeric|].
  intros [n c]. simpl. unfold interpolate_both, INTERPOLATION_METHOD. by destruct c.
Qed.

Lemma drop_cols_fmap (f : column → column) cs ns :
  drop_cols (prod_map id f <$> cs) ns = prod_map id f <$> drop_cols cs ns.
Proof. unfold drop_cols. apply filter_fmap_comm. by intros [??]. Qed.

Lemma drop_cols_year cs :
  drop_cols cs ["year"%string] = filter (λ nc, nc.1 ≠ "year"%string) cs.
Proof.
  unfold drop_cols. apply list_filter_iff. intros [n c]. simpl.
  by rewrite list_elem_of_singleton.
Qed.

Lemma repeat_annual_cols df :
  dates df ≠ [] →
  cols (_repeat_annual_to_monthly df)
  = prod_map id repeat12_col <$> filter (λ nc, nc.1 ≠ "year"%string) (cols df).
Proof.
  intros Hne. unfold _repeat_annual_to_monthly.
  destruct (dates df) as [|d ds] eqn:E; [done|]. cbn [cols].
  by rewrite drop_cols_fmap, drop_cols_set_col, drop_cols_year.
Qed.

(** C6, the claim as stated fails for annual repetition: the text column
    of an annual series is carried into the monthly output. *)
Lemma annual_keeps_text_column :
  classify (date_diff annual_text) = Some Annual_repeat ∧
  get_col (cols annual_text) "t" = Some (ObjCol [Some "a"; Some "b"]%string) ∧
  get_col (cols (_repeat_annual_to_monthly annual_text)) "t"
    = Some (ObjCol (replicate 12 (Some "a"%string) ++ replicate 12 (Some "b"%string))) ∧
  written (process_file (one_file "s.csv" annual_text) true "s.csv")
    = Some (_repeat_annual_to_monthly annual_text).
Proof. vm_compute. repeat split; reflexivity. Qed.

(** C6, amended: daily aggregation and quarterly interpolation keep
    exactly the numeric columns of their input, every non-numeric column
    being dropped; annual repetition keeps every column of its input,
    text included (twelve copies of each cell), and drops only the
    helper column ['year']. *)
Theorem numeric_only_except_annual df :
  (columns (_aggregate_daily_to_monthly df) = columns (select_numeric df)
   ∧ Forall (λ nc, is_numeric nc.2 = true) (cols (_aggregate_daily_to_monthly df)))
  ∧ (columns (_interpolate_quarterly_to_monthly df) = columns (select_numeric df)
     ∧ Forall (λ nc, is_numeric nc.2 = true) (cols (_interpolate_quarterly_to_monthly df)))
  ∧ (dates df ≠ [] →
     cols (_repeat_annual_to_monthly df)
     = prod_map id repeat12_col <$> filter (λ nc, nc.1 ≠ "year"%string) (cols df)).
Proof.
  split_and!.
  - apply aggregate_columns.
  - apply resample_mean_numeric.
  - apply interpolate_columns.
  - apply interpolate_numeric.
  - apply repeat_annual_cols.
Qed.

Lemma numeric_only_except_annual_witness :
  cols (_repeat_annual_to_monthly annual_text)
  = prod_map id repeat12_col <$> filter (λ nc, nc.1 ≠ "year"%string) (cols annual_text).
Proof.
  apply (proj2 (proj2 (numeric_only_except_annual annual_text))).
  vm_compute. congruence.
Defined.

(** ** The frame returned by [_convert_gdp_to_real] (lines 386-391) *)

Lemma annual_rows_value adf : (annual_rows adf).2 = Some (annual_of adf).
Proof. unfold annual_rows, annual_of. by case_decide. Qed.

Lemma lift_Some {A} (o : option A) l a : lift o = (l, Some a) → o = Some a ∧ l = [].
Proof. unfold lift. by intros [= <- ->]. Qed.

Lemma convert_gdp_inv v g df base_year l out :
  _convert_gdp_to_real v g df base_year = (l, Some out) →
  ∃ base_year' a st real,
    (select_base (prepare v df) (annual_of (prepare v df)) base_year).2 = Some base_year' ∧
    anchor v (prepare v df) (annual_of (prepare v df)) base_year' = Some a ∧
    propagate g (prepare v df) (annual_of (prepare v df)) base_year' a.1 a.2 = Some st ∧
    fill_rows v g (prepare v df) (annual_of (prepare v df)) st = Some real ∧
    out = finish v (prepare v df) (fill_remaining real).
Proof.
  unfold _convert_gdp_to_real. intros H.
  apply bind_Some in H as (? & [] & ? & _ & H & _).
  apply bind_Some in H as (? & annual & ? & Ha & H & _).
  assert (annual = annual_of (prepare v df)) as ->.
  { pose proof (annual_rows_value (prepare v df)) as E. rewrite Ha in E.
    simpl in E. congruence. }
  apply bind_Some in H as (? & by' & ? & Hb & H & _).
  apply bind_Some in H as (? & a & ? & [Han _]%lift_Some & H & _).
  apply bind_Some in H as (? & [] & ? & _ & H & _).
  apply bind_Some in H as (? & st & ? & [Hp _]%lift_Some & H & _).
  apply bind_Some in H as (? & real & ? & [Hf _]%lift_Some & H & _).
  apply bind_Some in H as (? & [] & ? & _ & H & _).
  injection H as _ <-.
  exists by', a, st, real. rewrite Hb. done.
Qed.

Lemma prepare_cols v df :
  "year"%string ∉ columns df → real_gdp_col v ∉ columns df →
  cols (prepare v df)
  = (prod_map id (take_col (argsort (dates df))) <$> cols df)
      ++ [("year"%string, take_col (argsort (dates df)) (IntCol (dt_year <$> dates df)));
          (real_gdp_col v,
           take_col (argsort (dates df)) (NumCol (replicate (nrows df) PrimFloat.nan)))].
Proof.
  intros Hy Hr. unfold prepare, sort_values, take_frame. cbn [cols dates].
  rewrite (set_col_notin (cols df)) by done.
  rewrite set_col_app_r by done. cbn [set_col].
  rewrite decide_False by (intros E; by apply (real_gdp_col_not_year v)).
  by rewrite fmap_app.
Qed.

Lemma anchor_value_col v adf annual base_year a :
  anchor v adf annual base_year = Some a → v ∈ columns adf.
Proof.
  unfold anchor, loc. intros H.
  destruct (head _) as [i|]; [|done]. simpl in H.
  destruct (get_col (cols adf) v) as [c|] eqn:E; [|done].
  by eapply get_col_Some_elem.
Qed.

Lemma finish_cols v df real :
  NoDup (columns df) →
  "year"%string ∉ columns df → real_gdp_col v ∉ columns df →
  v ∈ columns (prepare v df) →
  cols (finish v (prepare v df) real)
  = (λ nc, (nc.1, if decide (nc.1 = v) then NumCol real
                  else take_col (argsort (dates df)) nc.2)) <$> cols df.
Proof.
  intros Hnd Hy Hr Hv. unfold finish, columns in *. cbn [cols].
  rewrite prepare_cols in * by done.
  set (T := prod_map id (take_col (argsort (dates df)))) in *.
  assert (HT : (T <$> cols df).*1 = (cols df).*1) by apply names_fmap.
  rewrite set_col_app_r by (by rewrite HT). cbn [set_col].
  rewrite decide_False by (intros E; by apply (real_gdp_col_not_year v)).
  rewrite decide_True by done.
  rewrite fmap_app, HT in Hv. cbn in Hv.
  assert (Hdrop : ∀ c1 c2, drop_cols [("year"%string, c1); (real_gdp_col v, c2)]
                             [real_gdp_col v; "year"%string] = []).
  { intros c1 c2. unfold drop_cols. rewrite !filter_cons. simpl.
    rewrite !decide_False by set_solver. done. }
  assert (Hkeep : ∀ cs', cs'.*1 = (cols df).*1 →
            drop_cols cs' [real_gdp_col v; "year"%string] = cs').
  { intros cs' E. apply drop_cols_disjoint. intros n Hn. rewrite E in Hn.
    set_solver. }
  assert (Hmap : (λ nc, (nc.1, if decide (nc.1 = v) then NumCol real else nc.2)) <$> (T <$> cols df)
          = (λ nc, (nc.1, if decide (nc.1 = v) then NumCol real
                          else take_col (argsort (dates df)) nc.2)) <$> cols df).
  { rewrite <- list_fmap_compose. apply list_fmap_ext. by intros _ [n c] _. }
  destruct (decide (v ∈ (cols df).*1)) as [Hin|Hnin].
  - rewrite set_col_app_l by (by rewrite HT).
    rewrite set_col_replace by (by rewrite HT).
    rewrite drop_cols_app, Hdrop, app_nil_r, Hmap.
    apply Hkeep. rewrite <- list_fmap_compose. done.
  - rewrite set_col_app_r by (by rewrite HT).
    apply elem_of_app in Hv as [Hv|Hv]; [done|].
    rewrite <- Hmap, replace_absent by (by rewrite HT).
    apply elem_of_cons in Hv as [->|Hv].
    + cbn [set_col]. rewrite decide_True by done.
      rewrite drop_cols_app, Hdrop, app_nil_r. by apply Hkeep.
    + apply list_elem_of_singleton in Hv. by destruct (real_gdp_col_not_value v).
Qed.

(** ** The chain-linking step (lines 301-351) *)

Lemma numeric_col_loc df n i :
  numeric_col df n → i < nrows df → ∃ x, loc df i n = Some (CNum x).
Proof.
  intros (c & Hc & Hnum & Hlen) Hi. unfold loc. rewrite Hc. simpl.
  rewrite <- Hlen in Hi.
  destruct c as [xs|xs|xs]; simpl in *; [| |done].
  - destruct (lookup_lt_is_Some_2 xs i Hi) as [x ->]. by eexists.
  - destruct (lookup_lt_is_Some_2 xs i Hi) as [x ->]. by eexists.
Qed.

Lemma numeric_col_float df n i :
  numeric_col df n → i < nrows df → ∃ x, loc df i n ≫= as_float = Some x.
Proof.
  intros Hn Hi. destruct (numeric_col_loc df n i Hn Hi) as [x ->]. by exists x.
Qed.

Lemma for_each_prefix {S X} (body : S → X → option S) (Inv : list X → S → Prop) xs s :
  Inv [] s →
  (∀ done x rest s, xs = done ++ x :: rest → Inv done s →
     ∃ s', body s x = Some s' ∧ Inv (done ++ [x]) s') →
  ∃ s', for_each body xs s = Some s' ∧ Inv xs s'.
Proof.
  intros H0 Hstep.
  assert (Hgen : ∀ rest done s, xs = done ++ rest → Inv done s →
                  ∃ s', for_each body rest s = Some s' ∧ Inv xs s').
  { induction rest as [|x rest IH]; intros done s1 Hxs Hinv; simpl.
    - rewrite app_nil_r in Hxs. subst. eauto.
    - destruct (Hstep done x rest s1 Hxs Hinv) as (s' & Hb & Hinv').
      rewrite Hb. simpl. apply (IH (done ++ [x])); [|done].
      by rewrite <- app_assoc. }
  by apply (Hgen xs []).
Qed.

Lemma for_each_invariant {S X} (body : S → X → option S) (P : S → Prop) xs s s' :
  (∀ s x s', body s x = Some s' → P s → P s') →
  for_each body xs s = Some s' → P s → P s'.
Proof.
  intros Hstep. revert s. induction xs as [|x xs IH]; intros s; simpl.
  - by intros [= <-].
  - destruct (body s x) as [s1|] eqn:E; [|done]. simpl. intros Hrun Hs.
    apply (IH s1); [done|]. by eapply Hstep.
Qed.

Lemma StronglySorted_lt_lookup (l : list Z) i j a b :
  StronglySorted Z.lt l → l !! i = Some a → l !! j = Some b → i < j → (a < b)%Z.
Proof.
  intros Hs. revert i j. induction Hs as [|x l Hs IH Hall]; intros i j Ha Hb Hij.
  { by rewrite lookup_nil in Ha. }
  destruct j as [|j]; [lia|]. simpl in Hb.
  destruct i as [|i]; simpl in Ha.
  - simplify_eq. eapply Forall_forall in Hall; [done|].
    by eapply list_elem_of_lookup_2.
  - apply (IH i j); [done..|lia].
Qed.

Lemma StronglySorted_lt_index (l : list Z) i j a b :
  StronglySorted Z.lt l → l !! i = Some a → l !! j = Some b → (a < b)%Z → i < j.
Proof.
  intros Hs Ha Hb Hab. destruct (decide (i < j)) as [|Hn]; [done|].
  destruct (decide (i = j)) as [->|Hne]; [simplify_eq; lia|].
  pose proof (StronglySorted_lt_lookup l j i b a Hs Hb Ha). lia.
Qed.

Lemma adjacent_years_lookup (years : list Z) p y :
  StronglySorted Z.lt years → adjacent_years years p y →
  ∃ i, years !! i = Some p ∧ years !! (i + 1) = Some y.
Proof.
  intros Hs (Hlt & Hp & Hy & Hbetween).
  apply list_elem_of_lookup in Hp as [i Hi]. apply list_elem_of_lookup in Hy as [j Hj].
  exists i. split; [done|].
  pose proof (StronglySorted_lt_index years i j p y Hs Hi Hj Hlt) as Hij.
  destruct (decide (j = i + 1)) as [->|Hne]; [done|].
  assert (Hk : i + 1 < length years) by (apply lookup_lt_Some in Hj; lia).
  destruct (lookup_lt_is_Some_2 years (i + 1) Hk) as [z Hz].
  pose proof (StronglySorted_lt_lookup years i (i + 1) p z Hs Hi Hz).
  pose proof (StronglySorted_lt_lookup years (i + 1) j z y Hs Hz Hj).
  destruct (Hbetween z); [lia|]. by eapply list_elem_of_lookup_2.
Qed.

Lemma lookup_adjacent_years (years : list Z) i p y :
  StronglySorted Z.lt years →
  years !! i = Some p → years !! (i + 1) = Some y → adjacent_years years p y.
Proof.
  intros Hs Hi Hj. split_and!.
  - apply (StronglySorted_lt_lookup years i (i + 1)); [done..|lia].
  - by eapply list_elem_of_lookup_2.
  - by eapply list_elem_of_lookup_2.
  - intros z Hz [k Hk]%list_elem_of_lookup.
    pose proof (StronglySorted_lt_index years i k p z Hs Hi Hk).
    pose proof (StronglySorted_lt_index years k (i + 1) z y Hs Hk Hj). lia.
Qed.

Lemma StronglySorted_le_lt (l : list Z) :
  StronglySorted Z.le l → NoDup l → StronglySorted Z.lt l.
Proof.
  induction 1 as [|x l Hs IH Hall]; intros Hnd; constructor.
  - apply IH. by apply NoDup_cons in Hnd as [_ ?].
  - apply NoDup_cons in Hnd as [Hx _].
    apply Forall_forall. intros z Hz.
    pose proof (proj1 (Forall_forall _ _) Hall z Hz) as Hle. simpl in Hle.
    assert (x ≠ z) by (intros ->; done). lia.
Qed.

Lemma years_of_sorted adf annual : StronglySorted Z.lt (years_of adf annual).
Proof.
  unfold years_of. apply StronglySorted_le_lt.
  - apply StronglySorted_merge_sort; apply _.
  - rewrite merge_sort_Permutation. apply NoDup_remove_dups.
Qed.

Lemma years_of_NoDup adf annual : NoDup (years_of adf annual).
Proof. unfold years_of. rewrite merge_sort_Permutation. apply NoDup_remove_dups. Qed.

Lemma years_of_elem adf annual y :
  y ∈ years_of adf annual ↔ ∃ i, i ∈ annual ∧ year_at adf i = y.
Proof.
  unfold years_of. rewrite merge_sort_Permutation, elem_of_remove_dups.
  rewrite list_elem_of_fmap. naive_solver.
Qed.

Lemma first_row_Some adf annual y idx :
  first_row adf annual y = Some idx → idx ∈ annual ∧ year_at adf idx = y.
Proof.
  unfold first_row, year_rows. intros H%head_Some_elem_of.
  apply list_elem_of_filter in H. naive_solver.
Qed.

Lemma first_row_exists adf annual y :
  y ∈ years_of adf annual → ∃ idx, first_row adf annual y = Some idx.
Proof.
  intros (i & Hi & Hy)%years_of_elem. unfold first_row, year_rows.
  destruct (filter _ annual) as [|k l] eqn:E; [|by eexists].
  exfalso. eapply (filter_nil_not_elem_of _ annual i); [done| |done]. done.
Qed.

Lemma first_row_year_rows adf annual y idx :
  first_row adf annual y = Some idx → ∃ l, year_rows adf annual y = idx :: l.
Proof. unfold first_row. by intros ?%head_Some. Qed.

Lemma first_row_in_years adf annual y idx :
  first_row adf annual y = Some idx → y ∈ years_of adf annual.
Proof. intros [? ?]%first_row_Some. apply years_of_elem. eauto. Qed.

Lemma index_of_Some (years : list Z) y b :
  index_of years y = Some b → years !! b = Some y.
Proof.
  unfold index_of. intros ([i x] & H & ?)%fmap_Some. simpl in *. subst.
  apply list_find_Some in H. naive_solver.
Qed.

Lemma index_of_exists (years : list Z) y :
  y ∈ years → ∃ b, index_of years y = Some b.
Proof.
  intros Hy. unfold index_of.
  destruct (list_find_elem_of (λ x, x = y) years y Hy eq_refl) as [[i x] H].
  rewrite H. by eexists.
Qed.

Lemma NoDup_lookup_eq (l : list Z) i j x :
  NoDup l → l !! i = Some x → l !! j = Some x → i = j.
Proof. intros. by eapply NoDup_lookup. Qed.

(** Positions of the forward and of the backward loop. *)
Lemma seq_prefix_split b m (done : list nat) j rest :
  seq b m = done ++ j :: rest →
  j = b + length done ∧ (∀ k, k ∈ done → b ≤ k < j) ∧ j < b + m ∧
  (length done ≠ 0 → j - 1 ∈ done).
Proof.
  intros E.
  assert (Hj : seq b m !! length done = Some j).
  { rewrite E. by rewrite list_lookup_middle. }
  apply lookup_seq in Hj as [-> Hlt].
  assert (Hk : ∀ i k, done !! i = Some k → k = b + i).
  { intros i k Hi. assert (seq b m !! i = Some k) as Hs.
    { rewrite E. by rewrite lookup_app_l by (by eapply lookup_lt_Some). }
    by apply lookup_seq in Hs as [-> _]. }
  split_and!; [done| |lia|].
  - intros k [i Hi]%list_elem_of_lookup. pose proof (Hk i k Hi).
    apply lookup_lt_Some in Hi. lia.
  - intros Hne. apply list_elem_of_lookup. exists (length done - 1).
    destruct (lookup_lt_is_Some_2 done (length done - 1)) as [k Hi]; [lia|].
    rewrite Hi. f_equal. pose proof (Hk _ _ Hi). lia.
Qed.

Lemma reverse_seq_prefix_split b (done : list nat) j rest :
  reverse (seq 0 b) = done ++ j :: rest →
  j + length done + 1 = b ∧ (∀ k, k ∈ done → j < k < b) ∧
  (length done ≠ 0 → j + 1 ∈ done).
Proof.
  intros E.
  assert (Hlen : length done < b).
  { apply (f_equal length) in E.
    rewrite length_reverse, length_seq, length_app in E. simpl in E. lia. }
  assert (Hk : ∀ i k, i < b → reverse (seq 0 b) !! i = Some k → k = b - 1 - i).
  { intros i k Hi Hs. rewrite reverse_lookup in Hs by (by rewrite length_seq).
    rewrite length_seq in Hs. apply lookup_seq in Hs as [-> _]. lia. }
  assert (Hd : ∀ i k, done !! i = Some k → k = b - 1 - i ∧ i < length done).
  { intros i k Hi. pose proof (lookup_lt_Some _ _ _ Hi). split; [|done].
    apply Hk; [lia|]. rewrite E. by rewrite lookup_app_l. }
  assert (Hj : j = b - 1 - length done).
  { apply Hk; [done|]. rewrite E. by rewrite list_lookup_middle. }
  split_and!; [lia| |].
  - intros k [i Hi]%list_elem_of_lookup. destruct (Hd i k Hi). lia.
  - intros Hne. apply list_elem_of_lookup. exists (length done - 1).
    destruct (lookup_lt_is_Some_2 done (length done - 1)) as [k Hi]; [lia|].
    rewrite Hi. f_equal. destruct (Hd _ _ Hi). lia.
Qed.

Section chain.
Context (g : string) (adf : frame) (annual : list nat).
Context (Hannual : Forall (λ i, i < nrows adf) annual).
Context (Hgrowth : numeric_col adf g).

Local Abbreviation years := (years_of adf annual).

Lemma first_row_lt y idx : first_row adf annual y = Some idx → idx < nrows adf.
Proof.
  intros [Hin _]%first_row_Some. by eapply Forall_forall in Hannual.
Qed.

Lemma growth_of_row y idx :
  first_row adf annual y = Some idx → ∃ gr, growth_of g adf idx = Some gr.
Proof.
  intros H%first_row_lt. by apply numeric_col_float.
Qed.

(** Storing the value of a year not yet in the dictionary. *)
Lemma linked_insert base_year L F B F' B' st j y idx r :
  linked g adf annual base_year L F B st →
  annual_real_gdp st !! y = None →
  years !! j = Some y →
  first_row adf annual y = Some idx →
  (F' = F ++ [j] ∧ B' = B ∧
   ∀ p, years !! (j - 1) = Some p →
     ∃ gr rp, growth_of g adf idx = Some gr ∧ annual_real_gdp st !! p = Some rp ∧
              r = (rp * growth_factor gr)%float)
  ∨ (F' = F ∧ B' = B ++ [j] ∧
     ∀ nx, years !! (j + 1) = Some nx →
       ∃ nidx gr rn, first_row adf annual nx = Some nidx ∧ growth_of g adf nidx = Some gr ∧
                     annual_real_gdp st !! nx = Some rn ∧ r = (rn / growth_factor gr)%float) →
  linked g adf annual base_year L F' B'
    (ChainState (<[y := r]> (annual_real_gdp st)) (<[idx := r]> (real_gdp st))).
Proof.
  intros (Hlen & Hbase & Hdom & Hdom2 & Hreal & HF & HB) Hfresh Hj Hrow Hnew.
  assert (Hmem : ∀ k, (k ∈ F' ∨ k ∈ B') ↔ (k ∈ F ∨ k ∈ B) ∨ k = j).
  { intros k. destruct Hnew as [(-> & -> & _)|(-> & -> & _)];
      rewrite elem_of_app, list_elem_of_singleton; tauto. }
  assert (Hold : ∀ k x, annual_real_gdp st !! k = Some x →
            <[y := r]> (annual_real_gdp st) !! k = Some x).
  { intros k x Hk. rewrite lookup_insert_ne; [done|]. intros ->. congruence. }
  unfold linked. cbn [annual_real_gdp real_gdp]. split_and!.
  - by rewrite length_insert.
  - by apply Hold.
  - intros y' Hy'. destruct (decide (y' = y)) as [->|Hne].
    + right. exists j. split; [|done]. apply Hmem. by right.
    + rewrite lookup_insert_ne in Hy' by done.
      destruct (Hdom y' Hy') as [->|(k & Hk & Hyk)]; [by left|].
      right. exists k. split; [|done]. apply Hmem. by left.
  - intros k y' Hk Hy'. apply Hmem in Hk as [Hk| ->].
    + destruct (Hdom2 k y' Hk Hy') as [x Hx]. exists x. by apply Hold.
    + simplify_eq. rewrite lookup_insert_eq. by eexists.
  - intros y' r' Hy'. destruct (decide (y' = y)) as [->|Hne].
    + rewrite lookup_insert_eq in Hy'. simplify_eq. exists idx. split; [done|].
      apply list_lookup_insert_eq. rewrite Hlen. by eapply first_row_lt.
    + rewrite lookup_insert_ne in Hy' by done.
      destruct (Hreal y' r' Hy') as (idx' & Hrow' & Hr'). exists idx'. split; [done|].
      rewrite list_lookup_insert_ne; [done|]. intros ->.
      apply first_row_Some in Hrow as [_ <-]. apply first_row_Some in Hrow' as [_ <-].
      done.
  - intros k y' p Hk Hy' Hp.
    destruct Hnew as [(-> & -> & Hnew)|(-> & -> & Hnew)].
    + apply elem_of_app in Hk as [Hk| ->%list_elem_of_singleton].
      * destruct (HF k y' p Hk Hy' Hp) as (idx' & gr & rp & ? & ? & ? & ?).
        exists idx', gr, rp. split_and!; [done..|by apply Hold|by apply Hold].
      * simplify_eq. destruct (Hnew p Hp) as (gr & rp & ? & ? & Er). subst r.
        exists idx, gr, rp. split_and!; [done..|by apply Hold|by rewrite lookup_insert_eq].
    + destruct (HF k y' p Hk Hy' Hp) as (idx' & gr & rp & ? & ? & ? & ?).
      exists idx', gr, rp. split_and!; [done..|by apply Hold|by apply Hold].
  - intros k y' nx Hk Hy' Hn.
    destruct Hnew as [(-> & -> & Hnew)|(-> & -> & Hnew)].
    + destruct (HB k y' nx Hk Hy' Hn) as (idx' & gr & rn & ? & ? & ? & ?).
      exists idx', gr, rn. split_and!; [done..|by apply Hold|by apply Hold].
    + apply elem_of_app in Hk as [Hk| ->%list_elem_of_singleton].
      * destruct (HB k y' nx Hk Hy' Hn) as (idx' & gr & rn & ? & ? & ? & ?).
        exists idx', gr, rn. split_and!; [done..|by apply Hold|by apply Hold].
      * simplify_eq. destruct (Hnew nx Hn) as (nidx & gr & rn & ? & ? & ? & Er). subst r.
        exists nidx, gr, rn. split_and!; [done..|by apply Hold|by rewrite lookup_insert_eq].
Qed.

Lemma forward_step_eq st j y idx gr p rp :
  years !! j = Some y →
  first_row adf annual y = Some idx →
  growth_of g adf idx = Some gr →
  years !! (j - 1) = Some p →
  annual_real_gdp st !! p = Some rp →
  forward_step g adf annual years st j
  = Some (ChainState (<[y := (rp * growth_factor gr)%float]> (annual_real_gdp st))
                     (<[idx := (rp * growth_factor gr)%float]> (real_gdp st))).
Proof.
  intros Hj [l Hrow]%first_row_year_rows Hg Hp Hrp.
  unfold forward_step, growth_of in *. rewrite Hj. simpl. rewrite Hrow.
  destruct (loc adf idx g) as [c|]; [|done]. simpl in *.
  rewrite Hp. simpl. rewrite Hrp, Hg. done.
Qed.

Lemma backward_step_eq st j y idx nx nidx gr rn :
  years !! j = Some y →
  years !! (j + 1) = Some nx →
  first_row adf annual y = Some idx →
  first_row adf annual nx = Some nidx →
  growth_of g adf nidx = Some gr →
  annual_real_gdp st !! nx = Some rn →
  backward_step g adf annual years st j
  = Some (ChainState (<[y := (rn / growth_factor gr)%float]> (annual_real_gdp st))
                     (<[idx := (rn / growth_factor gr)%float]> (real_gdp st))).
Proof.
  intros Hj Hn [l Hrow]%first_row_year_rows [l' Hrow']%first_row_year_rows Hg Hrn.
  unfold backward_step, growth_of in *. rewrite Hj. simpl. rewrite Hn. simpl.
  rewrite Hrow, Hrow'.
  destruct (loc adf nidx g) as [c|]; [|done]. simpl in *.
  rewrite Hrn, Hg. done.
Qed.

Lemma years_lookup_row j y :
  years !! j = Some y →
  ∃ idx gr, first_row adf annual y = Some idx ∧ growth_of g adf idx = Some gr.
Proof.
  intros Hj. destruct (first_row_exists adf annual y) as [idx Hidx].
  { by eapply list_elem_of_lookup_2. }
  destruct (growth_of_row y idx Hidx) as [gr Hgr]. eauto.
Qed.

Lemma forward_loop base_year L b st0 :
  years !! b = Some base_year →
  linked g adf annual base_year L [] [] st0 →
  ∃ st1,
    for_each (forward_step g adf annual years)
      (seq (b + 1) (length years - (b + 1))) st0 = Some st1 ∧
    linked g adf annual base_year L (seq (b + 1) (length years - (b + 1))) [] st1.
Proof.
  intros Hb H0.
  apply (for_each_prefix _ (λ done st, linked g adf annual base_year L done [] st)); [done|].
  intros done j rest st E Hinv.
  destruct (seq_prefix_split _ _ _ _ _ E) as (Hj & Hdone & Hlt & Hprev).
  assert (Hjlen : j < length years) by lia.
  destruct (lookup_lt_is_Some_2 years j Hjlen) as [y Hy].
  destruct (lookup_lt_is_Some_2 years (j - 1)) as [p Hp]; [lia|].
  destruct (years_lookup_row j y Hy) as (idx & gr & Hidx & Hgr).
  pose proof Hinv as (_ & Hbase & Hdom & Hdom2 & _).
  assert (∃ rp, annual_real_gdp st !! p = Some rp) as [rp Hrp].
  { destruct (decide (length done = 0)) as [Hz|Hnz].
    - assert (j - 1 = b) as Hjb by lia. rewrite Hjb in Hp. simplify_eq. eauto.
    - apply (Hdom2 (j - 1) p); [left; by apply Hprev|done]. }
  assert (Hfresh : annual_real_gdp st !! y = None).
  { destruct (annual_real_gdp st !! y) as [r|] eqn:Ey; [|done]. exfalso.
    destruct (Hdom y) as [->|(k & [Hk|Hk] & Hyk)]; [by eexists| | |].
    - pose proof (NoDup_lookup_eq _ _ _ _ (years_of_NoDup adf annual) Hb Hy). lia.
    - pose proof (NoDup_lookup_eq _ _ _ _ (years_of_NoDup adf annual) Hy Hyk).
      subst k. apply Hdone in Hk. lia.
    - by apply elem_of_nil in Hk. }
  eexists. split; [by eapply forward_step_eq|].
  eapply linked_insert; [done..|]. left. split_and!; [done..|].
  intros p' Hp'. simplify_eq. eauto.
Qed.

Lemma backward_loop base_year L b F st1 :
  years !! b = Some base_year →
  (∀ k, k ∈ F → b < k) →
  linked g adf annual base_year L F [] st1 →
  ∃ st2,
    for_each (backward_step g adf annual years) (reverse (seq 0 b)) st1 = Some st2 ∧
    linked g adf annual base_year L F (reverse (seq 0 b)) st2.
Proof.
  intros Hb HF H0.
  apply (for_each_prefix _ (λ done st, linked g adf annual base_year L F done st)); [done|].
  intros done j rest st E Hinv.
  destruct (reverse_seq_prefix_split _ _ _ _ E) as (Hj & Hdone & Hnext).
  pose proof (lookup_lt_Some _ _ _ Hb) as Hblen.
  destruct (lookup_lt_is_Some_2 years j) as [y Hy]; [lia|].
  destruct (lookup_lt_is_Some_2 years (j + 1)) as [nx Hn]; [lia|].
  destruct (years_lookup_row j y Hy) as (idx & _ & Hidx & _).
  destruct (years_lookup_row (j + 1) nx Hn) as (nidx & gr & Hnidx & Hgr).
  pose proof Hinv as (_ & Hbase & Hdom & Hdom2 & _).
  assert (∃ rn, annual_real_gdp st !! nx = Some rn) as [rn Hrn].
  { destruct (decide (length done = 0)) as [Hz|Hnz].
    - assert (j + 1 = b) as Hjb by lia. rewrite Hjb in Hn. simplify_eq. eauto.
    - apply (Hdom2 (j + 1) nx); [right; by apply Hnext|done]. }
  assert (Hfresh : annual_real_gdp st !! y = None).
  { destruct (annual_real_gdp st !! y) as [r|] eqn:Ey; [|done]. exfalso.
    destruct (Hdom y) as [->|(k & [Hk|Hk] & Hyk)]; [by eexists| | |].
    - pose proof (NoDup_lookup_eq _ _ _ _ (years_of_NoDup adf annual) Hb Hy). lia.
    - pose proof (NoDup_lookup_eq _ _ _ _ (years_of_NoDup adf annual) Hy Hyk).
      subst k. apply HF in Hk. lia.
    - pose proof (NoDup_lookup_eq _ _ _ _ (years_of_NoDup adf annual) Hy Hyk).
      subst k. apply Hdone in Hk. lia. }
  eexists. split; [by eapply backward_step_eq|].
  eapply linked_insert; [done..|]. right. split_and!; [done..|].
  intros n' Hn'. simplify_eq. eauto 10.
Qed.

Lemma propagate_linked base_year base_idx L :
  first_row adf annual base_year = Some base_idx →
  ∃ st b,
    index_of years base_year = Some b ∧
    propagate g adf annual base_year base_idx L = Some st ∧
    linked g adf annual base_year L
      (seq (b + 1) (length years - (b + 1))) (reverse (seq 0 b)) st.
Proof.
  intros Hrow.
  destruct (index_of_exists years base_year) as [b Hb].
  { by eapply first_row_in_years. }
  pose proof (index_of_Some _ _ _ Hb) as Hyb.
  set (st0 := ChainState {[ base_year := L ]}
                (<[base_idx := L]> (replicate (nrows adf) PrimFloat.nan))).
  assert (H0 : linked g adf annual base_year L [] [] st0).
  { unfold linked, st0. cbn [annual_real_gdp real_gdp]. split_and!.
    - by rewrite length_insert, length_replicate.
    - apply lookup_singleton_eq.
    - intros y [r Hr]. apply lookup_singleton_Some in Hr as [<- _]. by left.
    - intros j y [Hj|Hj]; by apply elem_of_nil in Hj.
    - intros y r Hr. apply lookup_singleton_Some in Hr as [<- <-].
      exists base_idx. split; [done|]. apply list_lookup_insert_eq.
      rewrite length_replicate. by eapply first_row_lt.
    - intros j y p Hj. by apply elem_of_nil in Hj.
    - intros j y nx Hj. by apply elem_of_nil in Hj. }
  destruct (forward_loop base_year L b st0 Hyb H0) as (st1 & Hf & H1).
  destruct (backward_loop base_year L b (seq (b + 1) (length years - (b + 1))) st1 Hyb)
    as (st2 & Hbk & H2); [|done|].
  { intros k Hk%elem_of_seq. lia. }
  exists st2, b. split; [done|]. split; [|done].
  unfold propagate. rewrite Hb. simpl. fold st0. rewrite Hf. simpl. done.
Qed.

End chain.

Lemma get_col_set_col cs m c n :
  get_col (set_col cs m c) n = if decide (m = n) then Some c else get_col cs n.
Proof.
  induction cs as [|[k c0] cs IH]; csimpl.
  - by case_decide.
  - destruct (decide (k = m)) as [->|Hkm]; csimpl.
    + by case_decide.
    + destruct (decide (k = n)) as [->|Hkn].
      * by rewrite decide_False by done.
      * done.
Qed.

Lemma col_length_take_col p c :
  Forall (λ i, i < col_length c) p → col_length (take_col p c) = length p.
Proof. destruct c; simpl; apply take_rows_length. Qed.

Lemma nrows_prepare v df : nrows (prepare v df) = nrows df.
Proof. unfold prepare. by rewrite nrows_sort_values. Qed.

Lemma dates_prepare v df : dates (prepare v df) = sort_dates (dates df).
Proof. done. Qed.

Lemma numeric_col_prepare v df n : numeric_col df n → numeric_col (prepare v df) n.
Proof.
  intros (c & Hc & Hnum & Hlen). unfold numeric_col.
  rewrite nrows_prepare. unfold prepare, sort_values, take_frame. cbn [cols dates].
  rewrite get_col_fmap, !get_col_set_col.
  assert (Hp : ∀ c', col_length c' = nrows df →
            col_length (take_col (argsort (dates df)) c') = nrows df).
  { intros c' Hc'. rewrite col_length_take_col; [apply argsort_length|].
    rewrite Hc'. apply argsort_lt. }
  destruct (decide (real_gdp_col v = n)) as [E1|E1];
    [|destruct (decide ("year"%string = n)) as [E2|E2]; [|rewrite Hc]];
    (eexists; split; [reflexivity|]);
    rewrite is_numeric_take_col; (split; [done|]); apply Hp; cbn [col_length];
    rewrite ?length_replicate, ?length_fmap; done.
Qed.

Lemma annual_of_lt adf : Forall (λ i, i < nrows adf) (annual_of adf).
Proof.
  apply Forall_forall. intros i. unfold annual_of, annual_index.
  case_decide; [|rewrite list_elem_of_filter]; rewrite elem_of_seq; lia.
Qed.

Lemma first_row_functional adf annual y i j :
  first_row adf annual y = Some i → first_row adf annual y = Some j → i = j.
Proof. congruence. Qed.

Lemma select_base_present adf annual base_year base_idx :
  first_row adf annual base_year = Some base_idx →
  select_base adf annual base_year = ([], Some base_year).
Proof.
  intros [l Hl]%first_row_year_rows. unfold select_base.
  rewrite decide_False; [done|]. by rewrite Hl.
Qed.

(** The chain step returns, and its result is linked through every pair
    of neighbouring positions of [years]. *)
Lemma chain_step_linked v g adf annual base_year base_idx :
  Forall (λ i, i < nrows adf) annual →
  numeric_col adf v → numeric_col adf g →
  first_row adf annual base_year = Some base_idx →
  ∃ L st b,
    nominal_of v adf base_idx = Some L ∧
    anchor v adf annual base_year = Some (base_idx, L) ∧
    index_of (years_of adf annual) base_year = Some b ∧
    propagate g adf annual base_year base_idx L = Some st ∧
    chain_step v g adf annual base_year = Some st ∧
    linked g adf annual base_year L
      (seq (b + 1) (length (years_of adf annual) - (b + 1))) (reverse (seq 0 b)) st.
Proof.
  intros Hann Hv Hg Hrow.
  destruct (numeric_col_loc adf v base_idx Hv) as [L HL].
  { by eapply first_row_lt. }
  destruct (propagate_linked g adf annual Hann Hg base_year base_idx L Hrow)
    as (st & b & Hb & Hp & Hl).
  assert (Ha : anchor v adf annual base_year = Some (base_idx, L)).
  { unfold anchor. fold (first_row adf annual base_year). rewrite Hrow. simpl.
    rewrite HL. done. }
  exists L, st, b. split_and!; try done.
  - unfold nominal_of. by rewrite HL.
  - unfold chain_step. rewrite Ha. done.
Qed.

(** Two neighbouring positions [i], [i + 1] of [years]: after the base
    year the later value is the earlier one times the later growth
    factor; up to the base year the earlier value is the later one
    divided by the later growth factor. *)
Lemma linked_neighbours g adf annual base_year L b st i p y :
  linked g adf annual base_year L
    (seq (b + 1) (length (years_of adf annual) - (b + 1))) (reverse (seq 0 b)) st →
  years_of adf annual !! i = Some p →
  years_of adf annual !! (i + 1) = Some y →
  ∃ ip iy gr rp ry,
    first_row adf annual p = Some ip ∧ first_row adf annual y = Some iy ∧
    growth_of g adf iy = Some gr ∧
    annual_real_gdp st !! p = Some rp ∧ annual_real_gdp st !! y = Some ry ∧
    real_gdp st !! ip = Some rp ∧ real_gdp st !! iy = Some ry ∧
    (b ≤ i → ry = (rp * growth_factor gr)%float) ∧
    (i < b → rp = (ry / growth_factor gr)%float).
Proof.
  intros (_ & _ & _ & _ & Hreal & HF & HB) Hp Hy.
  pose proof (lookup_lt_Some _ _ _ Hy) as Hlen.
  destruct (decide (b ≤ i)) as [Hbi|Hbi].
  - destruct (HF (i + 1) y p) as (iy & gr & rp & Hiy & Hgr & Hrp & Hry).
    { apply elem_of_seq. lia. }
    { done. }
    { by replace (i + 1 - 1) with i by lia. }
    destruct (Hreal p rp Hrp) as (ip & Hip & Hrip).
    destruct (Hreal y _ Hry) as (iy' & Hiy' & Hriy). simplify_eq.
    exists ip, iy, gr, rp, (rp * growth_factor gr)%float.
    split_and!; try done; lia.
  - destruct (HB i p y) as (iy & gr & ry & Hiy & Hgr & Hry & Hrp).
    { apply elem_of_reverse, elem_of_seq. lia. }
    { done. }
    { done. }
    destruct (Hreal p _ Hrp) as (ip & Hip & Hrip).
    destruct (Hreal y ry Hry) as (iy' & Hiy' & Hriy). simplify_eq.
    exists ip, iy, gr, (ry / growth_factor gr)%float, ry.
    split_and!; try done; lia.
Qed.

Lemma chain_step_adjacent v g adf annual base_year base_idx :
  Forall (λ i, i < nrows adf) annual →
  numeric_col adf v → numeric_col adf g →
  first_row adf annual base_year = Some base_idx →
  ∃ L st,
    nominal_of v adf base_idx = Some L ∧
    anchor v adf annual base_year = Some (base_idx, L) ∧
    propagate g adf annual base_year base_idx L = Some st ∧
    chain_step v g adf annual base_year = Some st ∧
    annual_real_gdp st !! base_year = Some L ∧
    real_gdp st !! base_idx = Some L ∧
    length (real_gdp st) = nrows adf ∧
    (∀ y, is_Some (annual_real_gdp st !! y) → y ∈ years_of adf annual) ∧
    (∀ p y, adjacent_years (years_of adf annual) p y →
       ∃ ip iy gr rp ry,
         first_row adf annual p = Some ip ∧ first_row adf annual y = Some iy ∧
         growth_of g adf iy = Some gr ∧
         annual_real_gdp st !! p = Some rp ∧ annual_real_gdp st !! y = Some ry ∧
         real_gdp st !! ip = Some rp ∧ real_gdp st !! iy = Some ry ∧
         ((base_year ≤ p)%Z → ry = (rp * growth_factor gr)%float) ∧
         ((y ≤ base_year)%Z → rp = (ry / growth_factor gr)%float)).
Proof.
  intros Hann Hv Hg Hrow.
  destruct (chain_step_linked v g adf annual base_year base_idx Hann Hv Hg Hrow)
    as (L & st & b & HL & Ha & Hb & Hp & Hc & Hl).
  pose proof (index_of_Some _ _ _ Hb) as Hyb.
  pose proof (years_of_sorted adf annual) as Hs.
  pose proof Hl as (Hlen & Hbase & Hdom & _ & Hreal & _).
  exists L, st. split_and!; try done.
  - destruct (Hreal base_year L Hbase) as (idx & Hidx & Hr). by simplify_eq.
  - intros y Hy. destruct (Hdom y Hy) as [->|(j & _ & Hj)];
      by eapply list_elem_of_lookup_2.
  - intros p y Hadj.
    destruct (adjacent_years_lookup _ p y Hs Hadj) as (i & Hi & Hi').
    destruct (linked_neighbours g adf annual base_year L b st i p y Hl Hi Hi')
      as (ip & iy & gr & rp & ry & ? & ? & ? & ? & ? & ? & ? & Hfw & Hbw).
    exists ip, iy, gr, rp, ry. split_and!; try done.
    + intros Hle. apply Hfw. destruct (decide (b ≤ i)) as [|Hn]; [done|].
      pose proof (StronglySorted_lt_lookup _ i b p base_year Hs Hi Hyb). lia.
    + intros Hle. apply Hbw. destruct (decide (i < b)) as [|Hn]; [done|].
      destruct (decide (b = i + 1)) as [->|Hne]; [lia|].
      pose proof (StronglySorted_lt_lookup _ b (i + 1) base_year y Hs Hyb Hi'). lia.
Qed.

(** C1: when the base year has a year-end record, the chain step
    returns; the real value of the base year is its nominal level, in the
    year map and in the record; for a later year y whose preceding year
    y-1 is resolved, R[y] = R[y-1] * (1 + G[y]/100); for an earlier year y
    whose following year y+1 is resolved, R[y] = R[y+1] / (1 + G[y+1]/100). *)
Theorem chain_link_anchor_and_neighbours v g df base_year base_idx :
  numeric_col df v → numeric_col df g →
  first_row (prepare v df) (annual_of (prepare v df)) base_year = Some base_idx →
  ∃ L st,
    select_base (prepare v df) (annual_of (prepare v df)) base_year = ([], Some base_year) ∧
    nominal_of v (prepare v df) base_idx = Some L ∧
    chain_step v g (prepare v df) (annual_of (prepare v df)) base_year = Some st ∧
    annual_real_gdp st !! base_year = Some L ∧
    real_gdp st !! base_idx = Some L ∧
    (∀ y iy rp, (base_year < y)%Z →
       first_row (prepare v df) (annual_of (prepare v df)) y = Some iy →
       annual_real_gdp st !! (y - 1)%Z = Some rp →
       ∃ gr, growth_of g (prepare v df) iy = Some gr ∧
             annual_real_gdp st !! y = Some (rp * (1 + gr / 100))%float ∧
             real_gdp st !! iy = Some (rp * (1 + gr / 100))%float) ∧
    (∀ y iy rn, (y < base_year)%Z →
       first_row (prepare v df) (annual_of (prepare v df)) y = Some iy →
       annual_real_gdp st !! (y + 1)%Z = Some rn →
       ∃ inx gr, first_row (prepare v df) (annual_of (prepare v df)) (y + 1)%Z = Some inx ∧
                 growth_of g (prepare v df) inx = Some gr ∧
                 annual_real_gdp st !! y = Some (rn / (1 + gr / 100))%float ∧
                 real_gdp st !! iy = Some (rn / (1 + gr / 100))%float).
Proof.
  intros Hv Hg Hrow.
  destruct (chain_step_adjacent v g (prepare v df) (annual_of (prepare v df))
              base_year base_idx (annual_of_lt _) (numeric_col_prepare v df v Hv)
              (numeric_col_prepare v df g Hg) Hrow)
    as (L & st & HL & _ & _ & Hc & Hbase & Hreal & _ & Hdom & Hadj).
  exists L, st. split_and!; try done.
  - by eapply select_base_present.
  - intros y iy rp Hlt Hiy Hrp.
    destruct (Hadj (y - 1)%Z y) as (ip & iy' & gr & rp' & ry & ? & ? & ? & ? & ? & ? & ? & Hfw & _).
    { split_and!; [lia|apply Hdom; by eexists|by eapply first_row_in_years|intros; lia]. }
    simplify_eq. exists gr. change (1 + gr / 100)%float with (growth_factor gr).
    rewrite <- Hfw by lia. done.
  - intros y iy rn Hlt Hiy Hrn.
    destruct (Hadj y (y + 1)%Z) as (ip & iy' & gr & rp & ry & ? & ? & ? & ? & ? & ? & ? & _ & Hbw).
    { split_and!; [lia|by eapply first_row_in_years|apply Hdom; by eexists|intros; lia]. }
    simplify_eq. exists iy', gr. change (1 + gr / 100)%float with (growth_factor gr).
    rewrite <- Hbw by lia. done.
Qed.

Lemma scenario_c_numeric :
  numeric_col scenario_c "v" ∧ numeric_col scenario_c "g".
Proof. split; eexists; (split; [reflexivity|]); by vm_compute. Defined.

(** On scenario C (rows in date order: 2014, 2015, 2016; growth 3, 4, 5):
    R[2015] = 1000, R[2016] = 1000 * (1 + 5/100) and
    R[2014] = 1000 / (1 + 4/100). *)
Lemma chain_link_anchor_and_neighbours_witness :
  ∃ st,
    chain_step "v" "g" (prepare "v" scenario_c) (annual_of (prepare "v" scenario_c)) 2015
      = Some st ∧
    annual_real_gdp st !! 2015%Z = Some 1000%float ∧
    real_gdp st !! 1 = Some 1000%float ∧
    annual_real_gdp st !! 2016%Z = Some (1000 * (1 + 5 / 100))%float ∧
    real_gdp st !! 2 = Some (1000 * (1 + 5 / 100))%float ∧
    annual_real_gdp st !! 2014%Z = Some (1000 / (1 + 4 / 100))%float ∧
    real_gdp st !! 0 = Some (1000 / (1 + 4 / 100))%float.
Proof.
  destruct (chain_link_anchor_and_neighbours "v" "g" scenario_c 2015 1
              (proj1 scenario_c_numeric) (proj2 scenario_c_numeric) eq_refl)
    as (L & st & _ & H1 & H2 & H3 & H4 & Hfw & Hbw).
  assert (L = 1000%float) as -> by (vm_compute in H1; congruence).
  destruct (Hfw 2016%Z 2 1000%float) as (gr & Hg & Ha & Hr);
    [lia|by vm_compute|exact H3|].
  assert (gr = 5%float) as -> by (vm_compute in Hg; congruence).
  destruct (Hbw 2014%Z 0 1000%float) as (inx & gr & Hi & Hg' & Ha' & Hr');
    [lia|by vm_compute|exact H3|].
  assert (inx = 1) as -> by (vm_compute in Hi; congruence).
  assert (gr = 4%float) as -> by (vm_compute in Hg'; congruence).
  by exists st.
Defined.

(** Scenario C evaluated: R[2015] = 1000, R[2016] = 1000 * 1.05 = 1050 and
    R[2014] = 1000 / 1.04 (rows in date order: 2014, 2015, 2016). *)
Example scenario_c_chain :
  real_gdp <$> chain_step "v" "g" (prepare "v" scenario_c)
                 (annual_of (prepare "v" scenario_c)) 2015
  = Some [(1000 / (1 + 4 / 100)); 1000; 1050]%float.
Proof. vm_compute. reflexivity. Qed.

(** C10: propagation links neighbouring available year-end records, not
    neighbouring calendar years: for years p < y that both have a year-end
    record, with no year-end record in between (however many calendar
    years apart), R[y] = R[p] * (1 + G[y]/100) when p is at or after the
    base year, and R[p] = R[y] / (1 + G[y]/100) when y is at or before it. *)
Theorem chain_links_adjacent_available_years v g df base_year base_idx p y :
  numeric_col df v → numeric_col df g →
  first_row (prepare v df) (annual_of (prepare v df)) base_year = Some base_idx →
  adjacent_years (years_of (prepare v df) (annual_of (prepare v df))) p y →
  ∃ st ip iy gr rp ry,
    chain_step v g (prepare v df) (annual_of (prepare v df)) base_year = Some st ∧
    first_row (prepare v df) (annual_of (prepare v df)) p = Some ip ∧
    first_row (prepare v df) (annual_of (prepare v df)) y = Some iy ∧
    growth_of g (prepare v df) iy = Some gr ∧
    annual_real_gdp st !! p = Some rp ∧ annual_real_gdp st !! y = Some ry ∧
    real_gdp st !! ip = Some rp ∧ real_gdp st !! iy = Some ry ∧
    ((base_year ≤ p)%Z → ry = (rp * (1 + gr / 100))%float) ∧
    ((y ≤ base_year)%Z → rp = (ry / (1 + gr / 100))%float).
Proof.
  intros Hv Hg Hrow Hadj.
  destruct (chain_step_adjacent v g (prepare v df) (annual_of (prepare v df))
              base_year base_idx (annual_of_lt _) (numeric_col_prepare v df v Hv)
              (numeric_col_prepare v df g Hg) Hrow)
    as (L & st & _ & _ & _ & Hc & _ & _ & _ & _ & Hlink).
  destruct (Hlink p y Hadj) as (ip & iy & gr & rp & ry & H).
  by exists st, ip, iy, gr, rp, ry.
Qed.

Lemma gap_years_numeric : numeric_col gap_years "v" ∧ numeric_col gap_years "g".
Proof. split; eexists; (split; [reflexivity|]); by vm_compute. Defined.

Lemma gap_years_adjacent :
  adjacent_years (years_of (prepare "v" gap_years) (annual_of (prepare "v" gap_years)))
    2015 2018.
Proof.
  assert (E : years_of (prepare "v" gap_years) (annual_of (prepare "v" gap_years))
              = [2012; 2015; 2018]%Z) by (by vm_compute).
  rewrite E. split_and!; [lia|set_solver..|].
  intros z Hz Hin. set_unfold in Hin. lia.
Defined.

(** A three-year gap evaluated: R[2018] = R[2015] * 1.05 and
    R[2012] = R[2015] / 1.04, one-year rates across three years. *)
Example gap_years_chain :
  real_gdp <$> chain_step "v" "g" (prepare "v" gap_years)
                 (annual_of (prepare "v" gap_years)) 2015
  = Some [(1000 / (1 + 4 / 100)); 1000; (1000 * (1 + 5 / 100))]%float.
Proof. vm_compute. reflexivity. Qed.

(** The year-end records of 2015 (rate 4) and 2018 (rate 5) are neighbours
    three calendar years apart: R[2015] = 1000 and
    R[2018] = 1000 * (1 + 5/100), the rate of 2018 applied once. *)
Lemma chain_links_adjacent_available_years_witness :
  ∃ st,
    chain_step "v" "g" (prepare "v" gap_years) (annual_of (prepare "v" gap_years)) 2015
      = Some st ∧
    annual_real_gdp st !! 2015%Z = Some 1000%float ∧
    annual_real_gdp st !! 2018%Z = Some (1000 * (1 + 5 / 100))%float ∧
    real_gdp st !! 1 = Some 1000%float ∧
    real_gdp st !! 2 = Some (1000 * (1 + 5 / 100))%float.
Proof.
  destruct (chain_links_adjacent_available_years "v" "g" gap_years 2015 1 2015 2018
              (proj1 gap_years_numeric) (proj2 gap_years_numeric) eq_refl
              gap_years_adjacent)
    as (st & ip & iy & gr & rp & ry & Hc & Hp & Hy & Hg & Hrp & Hry & Hip & Hiy & Hfw & _).
  assert (ip = 1) as -> by (vm_compute in Hp; congruence).
  assert (iy = 2) as -> by (vm_compute in Hy; congruence).
  assert (gr = 5%float) as -> by (vm_compute in Hg; congruence).
  assert (rp = 1000%float) as ->.
  { pose proof gap_years_chain as E. rewrite Hc in E.
    cbn [fmap option_fmap option_map] in E. injection E as E.
    rewrite E in Hip. vm_compute in Hip. congruence. }
  rewrite (Hfw ltac:(lia)) in Hry, Hiy.
  by exists st.
Defined.

(** ** The remaining records and the interpolation fallback (lines 355-381) *)

Lemma nrows_with_real v adf real : nrows (with_real v adf real) = nrows adf.
Proof. done. Qed.

Lemma numeric_col_with_real v adf real c :
  length real = nrows adf → numeric_col adf c → numeric_col (with_real v adf real) c.
Proof.
  intros Hlen (col & Hcol & Hnum & Hl). unfold numeric_col, with_real. cbn [cols].
  rewrite get_col_set_col. case_decide; eexists; (split; [done|]); by split.
Qed.

(** One iteration either leaves the column alone or fills the row at
    hand, which was missing. *)
Lemma fill_row_shape v g snap adf annual dict real idx :
  numeric_col snap g → numeric_col snap v → numeric_col adf v →
  nrows snap = nrows adf →
  Forall (λ i, i < nrows adf) annual →
  idx < length real → idx < nrows adf →
  ∃ real', fill_row v g snap adf annual dict real idx = Some real' ∧
    (real' = real ∨
     ∃ c x, real !! idx = Some c ∧ notna c = false ∧ real' = <[idx := x]> real).
Proof.
  intros Hg Hv Hv' Hn Hann Hlen Hidx. unfold fill_row.
  destruct (lookup_lt_is_Some_2 real idx Hlen) as [c Hc]. rewrite Hc. simpl.
  destruct (notna c) eqn:Ec; [eauto|].
  destruct (numeric_col_loc snap g idx Hg) as [gr Hgr]; [lia|]. rewrite Hgr. simpl.
  destruct (numeric_col_loc snap v idx Hv) as [a Ha]; [lia|]. rewrite Ha. simpl.
  match goal with
  | |- context [if decide (is_Some ?d) then ?A else ?B] =>
      assert (∃ r, (if decide (is_Some d) then A else B) = Some r ∧
                (r = real ∨ ∃ x, r = <[idx := x]> real)) as (r & Hr & Hs)
  end.
  { case_decide; [|eauto].
    destruct (year_rows adf annual (year_at snap idx)) as [|k l] eqn:Ek.
    - simpl. destruct (dict !! year_at snap idx); eauto.
    - assert (k < nrows adf) as Hk.
      { eapply Forall_forall in Hann; [done|].
        assert (k ∈ year_rows adf annual (year_at snap idx)) as Hin by (rewrite Ek; left).
        unfold year_rows in Hin. apply list_elem_of_filter in Hin. naive_solver. }
      destruct (numeric_col_loc adf v k Hv' Hk) as [b Hb]. rewrite Hb. simpl.
      destruct (dict !! year_at snap idx); eauto. }
  assert (Hshape : ∃ real', Some r = Some real' ∧
            (real' = real ∨ ∃ c0 x, Some c = Some c0 ∧ notna c0 = false ∧
                                    real' = <[idx := x]> real)).
  { exists r. split; [done|]. destruct Hs as [->|[x ->]]; [by left|right; eauto]. }
  destruct (head _ ≫= _) as [p|]; [destruct (notna p)|]; rewrite ?Hr; eauto 10.
Qed.

Lemma fill_row_kept v g snap adf annual dict real idx :
  numeric_col snap g → numeric_col snap v → numeric_col adf v →
  nrows snap = nrows adf →
  Forall (λ i, i < nrows adf) annual →
  length real = nrows adf → idx < nrows adf →
  ∃ real', fill_row v g snap adf annual dict real idx = Some real' ∧
    length real' = nrows adf ∧
    (∀ k x, real !! k = Some x → notna x = true → real' !! k = Some x).
Proof.
  intros Hg Hv Hv' Hn Hann Hlen Hidx.
  destruct (fill_row_shape v g snap adf annual dict real idx) as (real' & Hf & Hs);
    [done..|lia|done|].
  exists real'. split; [done|].
  destruct Hs as [->|(c & x & Hc & Hna & ->)]; [done|].
  split; [by rewrite length_insert|].
  intros k y Hk Hy. rewrite list_lookup_insert_ne; [done|].
  intros ->. simplify_eq. congruence.
Qed.

Lemma fill_rows_kept v g adf annual st :
  numeric_col adf g → numeric_col adf v →
  Forall (λ i, i < nrows adf) annual →
  length (real_gdp st) = nrows adf →
  ∃ real, fill_rows v g adf annual st = Some real ∧
    length real = nrows adf ∧
    (∀ k x, real_gdp st !! k = Some x → notna x = true → real !! k = Some x).
Proof.
  intros Hg Hv Hann Hlen. unfold fill_rows.
  apply (for_each_prefix _ (λ _ real, length real = nrows adf ∧
           ∀ k x, real_gdp st !! k = Some x → notna x = true → real !! k = Some x)).
  { done. }
  intros done idx rest real E [Hl Hk].
  assert (idx < nrows adf) as Hidx.
  { assert (idx ∈ seq 0 (nrows adf)) as Hin by (rewrite E; set_solver).
    apply elem_of_seq in Hin. lia. }
  destruct (fill_row_kept v g (with_real v adf (real_gdp st)) adf annual
              (annual_real_gdp st) real idx) as (real' & Hf & Hl' & Hk');
    [by apply numeric_col_with_real..|done|done|done|done|done|].
  exists real'. split; [done|]. split; [done|]. eauto.
Qed.

Lemma interp_from_length both prev xs :
  length (interp_from both prev xs) = length xs.
Proof.
  revert prev. induction xs as [|x xs IH]; intros prev; simpl; [done|].
  destruct (notna x); simpl; by rewrite IH.
Qed.

(** Interpolation never touches a value that is present. *)
Lemma interp_from_kept both prev xs k x :
  xs !! k = Some x → notna x = true → interp_from both prev xs !! k = Some x.
Proof.
  revert prev k. induction xs as [|y xs IH]; intros prev k Hk Hx; [done|].
  destruct k as [|k]; simpl in *.
  - simplify_eq. by rewrite Hx.
  - destruct (notna y); simpl; by apply IH.
Qed.

Lemma fill_remaining_length real : length (fill_remaining real) = length real.
Proof.
  unfold fill_remaining, interpolate_linear. case_decide; [|done].
  apply interp_from_length.
Qed.

Lemma fill_remaining_kept real k x :
  real !! k = Some x → notna x = true → fill_remaining real !! k = Some x.
Proof.
  intros Hk Hx. unfold fill_remaining, interpolate_linear. case_decide; [|done].
  by apply interp_from_kept.
Qed.

Lemma get_col_drop_cols cs ns n :
  n ∉ ns → get_col (drop_cols cs ns) n = get_col cs n.
Proof.
  intros Hn. unfold drop_cols. induction cs as [|[m c] cs IH]; csimpl; [done|].
  rewrite filter_cons. simpl. destruct (decide (m = n)) as [->|Hne].
  - rewrite decide_True by done. simpl. by rewrite decide_True.
  - case_decide; simpl; [by rewrite decide_False|done].
Qed.

Lemma finish_value_col v adf real :
  v ≠ "year"%string → get_col (cols (finish v adf real)) v = Some (NumCol real).
Proof.
  intros Hv. unfold finish. cbn [cols]. rewrite get_col_drop_cols.
  - rewrite get_col_set_col. by rewrite decide_True.
  - rewrite !not_elem_of_cons. split_and!; [|done|apply not_elem_of_nil].
    intros E. by apply (real_gdp_col_not_value v).
Qed.

(** The anchor year and its record (lines 293-301). *)
Lemma select_base_spec adf annual base_year :
  annual ≠ [] →
  ∃ lsel by' idx,
    select_base adf annual base_year = (lsel, Some by') ∧
    first_row adf annual by' = Some idx ∧
    (year_rows adf annual base_year ≠ [] → by' = base_year ∧ lsel = []) ∧
    (year_rows adf annual base_year = [] →
       ∃ i, annual !! (length annual / 2) = Some i ∧ by' = year_at adf i ∧
            lsel = [Print_warning (MsgBaseYearMissing base_year);
                    Print_success (MsgUsingBaseYear by')]).
Proof.
  intros Hne. unfold select_base.
  destruct (decide (year_rows adf annual base_year = [])) as [E|E].
  - assert (length annual / 2 < length annual) as Hlt.
    { assert (0 < length annual) by (destruct annual; [done|simpl; lia]).
      apply Nat.div_lt; lia. }
    destruct (lookup_lt_is_Some_2 annual _ Hlt) as [i Hi].
    rewrite Hi. cbn.
    destruct (first_row_exists adf annual (year_at adf i)) as [idx Hidx].
    { apply years_of_elem. exists i. split; [by eapply list_elem_of_lookup_2|done]. }
    exists [Print_warning (MsgBaseYearMissing base_year);
            Print_success (MsgUsingBaseYear (year_at adf i))], (year_at adf i), idx.
    split_and!; [done|done|done|]. intros _. by exists i.
  - destruct (year_rows adf annual base_year) as [|idx l] eqn:Er; [done|].
    exists [], base_year, idx. unfold first_row. rewrite Er.
    split_and!; [done|done|done|]. intros [=].
Qed.

Lemma annual_rows_run adf :
  annual_rows adf = ((annual_rows adf).1, Some (annual_of adf)).
Proof. unfold annual_rows, annual_of. by case_decide. Qed.

Lemma convert_gdp_run v g df base_year lsel by' a st real :
  select_base (prepare v df) (annual_of (prepare v df)) base_year = (lsel, Some by') →
  anchor v (prepare v df) (annual_of (prepare v df)) by' = Some a →
  propagate g (prepare v df) (annual_of (prepare v df)) by' a.1 a.2 = Some st →
  fill_rows v g (prepare v df) (annual_of (prepare v df)) st = Some real →
  _convert_gdp_to_real v g df base_year
  = (Print_section (MsgComputeReal base_year) :: (annual_rows (prepare v df)).1 ++ lsel
       ++ [Print_success (MsgBaseNominal by' a.2);
           Print_success (MsgRealDone
             (length (filter (λ x, notna x = true) (fill_remaining real)))
             (nrows (prepare v df)))],
     Some (finish v (prepare v df) (fill_remaining real))).
Proof.
  intros Hsel Ha Hp Hf. unfold _convert_gdp_to_real.
  rewrite annual_rows_run. cbn [bind emit].
  rewrite Hsel. cbn [bind emit lift]. rewrite Ha. cbn [bind emit lift].
  rewrite Hp. cbn [bind emit lift]. rewrite Hf. cbn [bind emit lift ret].
  cbn [app fst]. done.
Qed.

(** ** The frame the reconstruction returns, column by column (lines 379-391) *)

Lemma forward_step_length g adf annual years st i st' :
  forward_step g adf annual years st i = Some st' →
  length (real_gdp st') = length (real_gdp st).
Proof.
  unfold forward_step. intros Hstep.
  destruct (years !! i) as [y|]; [|done]. cbn [mbind option_bind] in Hstep.
  destruct (year_rows adf annual y) as [|idx rest]; [by simplify_eq|].
  destruct (loc adf idx g) as [gr|]; [|done]. cbn [mbind option_bind] in Hstep.
  destruct (years !! (i - 1)) as [p|]; [|done]. cbn [mbind option_bind] in Hstep.
  destruct (annual_real_gdp st !! p) as [prev|]; [|by simplify_eq].
  destruct (as_float gr) as [x|]; [|done]. cbn [mbind option_bind] in Hstep.
  simplify_eq. cbn [real_gdp]. by rewrite length_insert.
Qed.

Lemma backward_step_length g adf annual years st i st' :
  backward_step g adf annual years st i = Some st' →
  length (real_gdp st') = length (real_gdp st).
Proof.
  unfold backward_step. intros Hstep.
  destruct (years !! i) as [y|]; [|done]. cbn [mbind option_bind] in Hstep.
  destruct (years !! (i + 1)) as [nx|]; [|done]. cbn [mbind option_bind] in Hstep.
  destruct (year_rows adf annual y) as [|idx rest]; [by simplify_eq|].
  destruct (year_rows adf annual nx) as [|nidx nrest]; [by simplify_eq|].
  destruct (loc adf nidx g) as [gr|]; [|done]. cbn [mbind option_bind] in Hstep.
  destruct (annual_real_gdp st !! nx) as [next|]; [|by simplify_eq].
  destruct (as_float gr) as [x|]; [|done]. cbn [mbind option_bind] in Hstep.
  simplify_eq. cbn [real_gdp]. by rewrite length_insert.
Qed.

(** The real-value column the chain step leaves covers every row. *)
Lemma propagate_length g adf annual base_year base_idx L st :
  propagate g adf annual base_year base_idx L = Some st →
  length (real_gdp st) = nrows adf.
Proof.
  unfold propagate. intros Hrun.
  destruct (index_of _ base_year) as [b|]; [|done]. cbn [mbind option_bind] in Hrun.
  destruct (for_each (forward_step _ _ _ _) _ _) as [st1|] eqn:Hfw; [|done].
  cbn [mbind option_bind] in Hrun.
  eapply (for_each_invariant _ (λ s, length (real_gdp s) = nrows adf)); [|exact Hrun|].
  { intros s x s' Hs <-. by eapply backward_step_length. }
  eapply (for_each_invariant _ (λ s, length (real_gdp s) = nrows adf)); [|exact Hfw|].
  { intros s x s' Hs <-. by eapply forward_step_length. }
  cbn [real_gdp]. by rewrite length_insert, length_replicate.
Qed.

(** One iteration of the record loop, whatever the columns hold: the
    column is left alone, or the row at hand, which was missing, is
    filled. *)
Lemma fill_row_cases v g snap adf annual dict real idx real' :
  fill_row v g snap adf annual dict real idx = Some real' →
  real' = real ∨
  ∃ c x, real !! idx = Some c ∧ notna c = false ∧ real' = <[idx := x]> real.
Proof.
  unfold fill_row. intros Hrow.
  destruct (real !! idx) as [cur|] eqn:Hcur; [|done]. cbn [mbind option_bind] in Hrow.
  destruct (notna cur) eqn:Hna; [left; by simplify_eq|].
  destruct (loc snap idx g) as [gr|]; [|done]. cbn [mbind option_bind] in Hrow.
  match type of Hrow with
  | match ?o with Some _ => _ | None => ?u end = _ =>
      assert (Huse : u = Some real' → real' = real ∨ ∃ x, real' = <[idx := x]> real)
  end.
  { case_decide; [|intros; left; by simplify_eq].
    intros Huse.
    match type of Huse with
    | ?o ≫= _ = _ => destruct o as [ratio|]; [|done]
    end.
    cbn [mbind option_bind] in Huse.
    destruct (dict !! year_at snap idx); simplify_eq; eauto. }
  destruct (head _ ≫= _) as [p|].
  - destruct (notna p).
    + destruct (as_float gr) as [x|]; [|done]. cbn [mbind option_bind] in Hrow.
      simplify_eq. right. by exists cur, (p * growth_factor x)%float.
    + destruct (Huse Hrow) as [->|[x ->]]; [by left|right; by exists cur, x].
  - destruct (Huse Hrow) as [->|[x ->]]; [by left|right; by exists cur, x].
Qed.

(** The record loop keeps the length of the column and every value that
    is present. *)
Lemma fill_rows_keeps v g adf annual st R :
  fill_rows v g adf annual st = Some R →
  length R = length (real_gdp st) ∧
  (∀ k x, real_gdp st !! k = Some x → notna x = true → R !! k = Some x).
Proof.
  unfold fill_rows. intros Hrun.
  eapply (for_each_invariant _
            (λ real, length real = length (real_gdp st) ∧
                     ∀ k x, real_gdp st !! k = Some x → notna x = true →
                            real !! k = Some x));
    [|exact Hrun|done].
  intros s idx s' Hrow [Hl Hk].
  apply fill_row_cases in Hrow as [->|(c & x & Hc & Hna & ->)]; [done|].
  split; [by rewrite length_insert|].
  intros k y Hky Hy. rewrite list_lookup_insert_ne; [by apply Hk|].
  intros ->. rewrite (Hk _ _ Hky Hy) in Hc. simplify_eq. congruence.
Qed.

(** C7, the claim as stated fails: the growth-rate column is still in the
    output of the reconstruction (Scenario C, rows sorted by date). *)
Lemma growth_column_kept :
  ∃ l out,
    _convert_gdp_to_real "v" "g" scenario_c 2015 = (l, Some out) ∧
    columns out = ["v"; "g"; "t"]%string ∧
    get_col (cols out) "g" = Some (NumCol [3; 4; 5]%float).
Proof. eexists _, _. split; [vm_compute; reflexivity|]. by vm_compute. Qed.

(** C7, amended: in the frame the reconstruction returns, the column of
    the nominal level holds the reconstructed real values, that is the
    column the chain step and the record loop computed, after the
    interpolation fallback: one value per input row, every value the
    chain step or the record loop resolved standing at its row; the helper
    columns (the real-value work column and ['year']) are absent; every
    other column, the growth-rate column included, is kept under its label
    with its values, the rows being in date order.  The dates of the input
    are pairwise distinct, so that the date order is the same under any
    sorting algorithm: every permutation of the rows that puts the dates
    in ascending order is the one used here. *)
Theorem real_replaces_nominal_growth_kept v g df base_year l out :
  NoDup (columns df) →
  NoDup (dates df) →
  "year"%string ∉ columns df →
  real_gdp_col v ∉ columns df →
  _convert_gdp_to_real v g df base_year = (l, Some out) →
  ∃ by' st R,
    (select_base (prepare v df) (annual_of (prepare v df)) base_year).2 = Some by' ∧
    chain_step v g (prepare v df) (annual_of (prepare v df)) by' = Some st ∧
    fill_rows v g (prepare v df) (annual_of (prepare v df)) st = Some R ∧
    length (fill_remaining R) = nrows df ∧
    (∀ k x, real_gdp st !! k = Some x → notna x = true →
       fill_remaining R !! k = Some x) ∧
    (∀ k x, R !! k = Some x → notna x = true → fill_remaining R !! k = Some x) ∧
    dates out = sort_dates (dates df) ∧
    columns out = columns df ∧
    (v ≠ "year"%string →
       v ∈ columns df ∧ get_col (cols out) v = Some (NumCol (fill_remaining R))) ∧
    cols out = (λ nc, (nc.1, if decide (nc.1 = v) then NumCol (fill_remaining R)
                             else take_col (argsort (dates df)) nc.2)) <$> cols df ∧
    (∀ p, p ≡ₚ seq 0 (nrows df) → Sorted date_le (take_rows p (dates df)) →
          p = argsort (dates df)).
Proof.
  intros Hnd Hdd Hy Hr H.
  apply convert_gdp_inv in H as (by' & a & st & R & Hsel & Ha & Hp & Hf & ->).
  pose proof (propagate_length _ _ _ _ _ _ _ Hp) as Hl.
  destruct (fill_rows_keeps _ _ _ _ _ _ Hf) as [HlR Hkept].
  pose proof (anchor_value_col _ _ _ _ _ Ha) as Hin.
  pose proof (finish_cols v df (fill_remaining R) Hnd Hy Hr Hin) as Hc.
  exists by', st, R. split_and!.
  - done.
  - unfold chain_step. by rewrite Ha.
  - done.
  - by rewrite fill_remaining_length, HlR, Hl, nrows_prepare.
  - intros k x Hk Hx. apply fill_remaining_kept; eauto.
  - apply fill_remaining_kept.
  - done.
  - unfold columns. rewrite Hc, <- list_fmap_compose.
    apply list_fmap_ext. by intros _ [n c] _.
  - intros Hv. split; [|by apply finish_value_col].
    unfold columns in Hin. rewrite prepare_cols in Hin by done.
    rewrite fmap_app, names_fmap in Hin. cbn in Hin.
    apply elem_of_app in Hin as [Hin|Hin]; [done|].
    apply elem_of_cons in Hin as [->|Hin]; [done|].
    apply list_elem_of_singleton in Hin. by destruct (real_gdp_col_not_value v).
  - done.
  - intros p. by apply argsort_unique.
Qed.

(** Scenario C (input rows 2016, 2014, 2015; base year 2015): the level
    column of the output is [1000 / (1 + 4/100); 1000; 1000 * (1 + 5/100)]
    in date order, the growth column [3; 4; 5] and the text column follow
    the same order. *)
Lemma real_replaces_nominal_growth_kept_witness :
  ∃ R out,
    (_convert_gdp_to_real "v" "g" scenario_c 2015).2 = Some out ∧
    fill_rows "v" "g" (prepare "v" scenario_c) (annual_of (prepare "v" scenario_c))
      (default (ChainState ∅ [])
         (chain_step "v" "g" (prepare "v" scenario_c)
            (annual_of (prepare "v" scenario_c)) 2015)) = Some R ∧
    fill_remaining R = [1000 / (1 + 4 / 100); 1000; 1000 * (1 + 5 / 100)]%float ∧
    dates out = [Date 2014 12 31; Date 2015 12 31; Date 2016 12 31] ∧
    cols out = [("v"%string, NumCol (fill_remaining R));
                ("g"%string, NumCol [3; 4; 5]%float);
                ("t"%string, ObjCol [Some "a"; Some "b"; Some "c"]%string)].
Proof.
  destruct (real_replaces_nominal_growth_kept "v" "g" scenario_c 2015
              (_convert_gdp_to_real "v" "g" scenario_c 2015).1
              (default (Frame [] []) (_convert_gdp_to_real "v" "g" scenario_c 2015).2))
    as (by' & st & R & Hsel & Hst & HR & Hlen & _ & _ & Hd & _ & Hv & Hc & _).
  - apply (bool_decide_unpack _). by vm_compute.
  - apply (bool_decide_unpack _). by vm_compute.
  - vm_compute. set_solver.
  - vm_compute. set_solver.
  - vm_compute. reflexivity.
  - assert (by' = 2015%Z) as -> by (vm_compute in Hsel; congruence).
    rewrite Hst in *.
    exists R, (default (Frame [] []) (_convert_gdp_to_real "v" "g" scenario_c 2015).2).
    destruct Hv as [_ Hv]; [done|].
    assert (E : get_col (cols (default (Frame [] [])
                  (_convert_gdp_to_real "v" "g" scenario_c 2015).2)) "v"
                = Some (NumCol [1000 / (1 + 4 / 100); 1000; 1000 * (1 + 5 / 100)]%float))
      by (vm_compute; reflexivity).
    rewrite E in Hv. injection Hv as Hv.
    split_and!; [vm_compute; reflexivity|exact HR|done|by rewrite Hd|by rewrite Hc].
Defined.

(** ** The substituted anchor year (lines 293-299) *)

Lemma StronglySorted_lookup_rel {A} (R : relation A) (l : list A) i j a b :
  StronglySorted R l → l !! i = Some a → l !! j = Some b → i < j → R a b.
Proof.
  intros Hs. revert i j. induction Hs as [|x l Hs IH Hall]; intros i j Ha Hb Hij.
  { by rewrite lookup_nil in Ha. }
  destruct j as [|j]; [lia|]. simpl in Hb.
  destruct i as [|i]; simpl in Ha.
  - simplify_eq. eapply Forall_forall in Hall; [done|].
    by eapply list_elem_of_lookup_2.
  - apply (IH i j); [done..|lia].
Qed.

Lemma StronglySorted_filter {A} (R : relation A) (P : A → Prop)
    `{!∀ x, Decision (P x)} (l : list A) :
  StronglySorted R l → StronglySorted R (filter P l).
Proof.
  induction 1 as [|x l Hs IH Hall]; [constructor|].
  rewrite filter_cons. case_decide; [|done]. constructor; [done|].
  apply Forall_forall. intros y [_ Hy]%list_elem_of_filter.
  by eapply Forall_forall in Hall.
Qed.

Lemma StronglySorted_seq a k : StronglySorted lt (seq a k).
Proof.
  revert a. induction k as [|k IH]; intros a; simpl; constructor; [apply IH|].
  apply Forall_forall. intros y Hy%elem_of_seq. lia.
Qed.

Lemma annual_of_sorted adf : StronglySorted lt (annual_of adf).
Proof.
  unfold annual_of, annual_index. case_decide.
  - apply StronglySorted_seq.
  - apply StronglySorted_filter, StronglySorted_seq.
Qed.

Lemma date_le_refl d : date_le d d.
Proof. date_order. Qed.

Lemma sort_dates_monotone ds i j :
  i ≤ j → j < length ds →
  date_le (date_at (sort_dates ds) i) (date_at (sort_dates ds) j).
Proof.
  intros Hij Hj. rewrite <- sort_dates_length in Hj.
  destruct (lookup_lt_is_Some_2 (sort_dates ds) j Hj) as [b Hb].
  destruct (lookup_lt_is_Some_2 (sort_dates ds) i) as [a Ha]; [lia|].
  unfold date_at. rewrite Ha, Hb. simpl.
  destruct (decide (i = j)) as [->|Hne].
  - simplify_eq. apply date_le_refl.
  - eapply (StronglySorted_lookup_rel date_le (sort_dates ds) i j); [|done..|lia].
    apply Sorted_StronglySorted; [apply _|apply sort_dates_Sorted].
Qed.

Lemma filter_none {A} (P : A → Prop) `{!∀ x, Decision (P x)} (l : list A) :
  (∀ x, x ∈ l → ¬ P x) → filter P l = [].
Proof.
  induction l as [|x l IH]; intros Hall; [done|].
  rewrite filter_cons, decide_False by (apply Hall; left).
  apply IH. intros y Hy. apply Hall. by right.
Qed.

Lemma sorted_middle_is_median (ys : list Z) m :
  (∀ i j a b, ys !! i = Some a → ys !! j = Some b → i ≤ j → (a ≤ b)%Z) →
  ys !! (length ys / 2) = Some m →
  is_median m ys.
Proof.
  intros Hmono Hm. set (k := length ys / 2) in *.
  pose proof (lookup_lt_Some _ _ _ Hm) as Hk.
  assert (Hdiv : 2 * k ≤ length ys ∧ length ys ≤ 2 * k + 1).
  { unfold k. pose proof (Nat.div_mod_eq (length ys) 2).
    pose proof (Nat.mod_upper_bound (length ys) 2). lia. }
  split_and!.
  - by eapply list_elem_of_lookup_2.
  - rewrite <- (take_drop k ys) at 1. rewrite filter_app.
    rewrite (filter_none _ (drop k ys)).
    + rewrite app_nil_r. pose proof (length_filter (λ y, (y < m)%Z) (take k ys)).
      rewrite length_take in *. lia.
    + intros x [i Hi]%list_elem_of_lookup. rewrite lookup_drop in Hi.
      pose proof (Hmono k (k + i) m x Hm Hi). lia.
  - rewrite <- (take_drop (S k) ys) at 1. rewrite filter_app.
    rewrite (filter_none _ (take (S k) ys)).
    + simpl. pose proof (length_filter (λ y, (m < y)%Z) (drop (S k) ys)).
      rewrite length_drop in *. lia.
    + intros x (i & Hi & Hlt)%elem_of_take.
      pose proof (Hmono i k x m Hi Hm). lia.
Qed.

Lemma annual_years_monotone v df i j a b :
  (year_at (prepare v df) <$> annual_of (prepare v df)) !! i = Some a →
  (year_at (prepare v df) <$> annual_of (prepare v df)) !! j = Some b →
  i ≤ j → (a ≤ b)%Z.
Proof.
  rewrite !list_lookup_fmap. intros Ha Hb Hij.
  destruct (annual_of (prepare v df) !! i) as [ri|] eqn:Ei; [|done].
  destruct (annual_of (prepare v df) !! j) as [rj|] eqn:Ej; [|done].
  simpl in *. simplify_eq. unfold year_at. rewrite dates_prepare.
  apply date_le_year, sort_dates_monotone.
  - destruct (decide (i = j)) as [->|Hne]; [by simplify_eq|].
    pose proof (StronglySorted_lookup_rel lt _ i j ri rj (annual_of_sorted _) Ei Ej).
    lia.
  - pose proof (annual_of_lt (prepare v df)) as Hlt.
    eapply Forall_lookup_1 in Hlt; [|done]. by rewrite nrows_prepare in Hlt.
Qed.

(** The whole conversion returns on a non-empty frame whose level and
    growth columns are numeric. *)
Lemma convert_gdp_returns v g df base_year :
  numeric_col df v → numeric_col df g →
  annual_of (prepare v df) ≠ [] →
  ∃ lsel by' idx L st real,
    select_base (prepare v df) (annual_of (prepare v df)) base_year = (lsel, Some by') ∧
    first_row (prepare v df) (annual_of (prepare v df)) by' = Some idx ∧
    nominal_of v (prepare v df) idx = Some L ∧
    chain_step v g (prepare v df) (annual_of (prepare v df)) by' = Some st ∧
    fill_rows v g (prepare v df) (annual_of (prepare v df)) st = Some real ∧
    length real = nrows df ∧
    (∀ k x, real_gdp st !! k = Some x → notna x = true →
            fill_remaining real !! k = Some x) ∧
    _convert_gdp_to_real v g df base_year
    = (Print_section (MsgComputeReal base_year) :: (annual_rows (prepare v df)).1 ++ lsel
         ++ [Print_success (MsgBaseNominal by' L);
             Print_success (MsgRealDone
               (length (filter (λ x, notna x = true) (fill_remaining real)))
               (nrows (prepare v df)))],
       Some (finish v (prepare v df) (fill_remaining real))).
Proof.
  intros Hv Hg Hne.
  pose proof (numeric_col_prepare v df v Hv) as Hv'.
  pose proof (numeric_col_prepare v df g Hg) as Hg'.
  destruct (select_base_spec (prepare v df) (annual_of (prepare v df)) base_year Hne)
    as (lsel & by' & idx & Hsel & Hrow & _).
  destruct (chain_step_adjacent v g _ _ by' idx (annual_of_lt _) Hv' Hg' Hrow)
    as (L & st & HL & Ha & Hp & Hc & _ & _ & Hlen & _).
  destruct (fill_rows_kept v g _ _ st Hg' Hv' (annual_of_lt _) Hlen)
    as (real & Hf & Hlen' & Hkept).
  exists lsel, by', idx, L, st, real. split_and!; try done.
  - by rewrite Hlen', nrows_prepare.
  - intros k x Hk Hx. apply fill_remaining_kept; [|done]. by apply Hkept.
  - by rewrite (convert_gdp_run v g df base_year lsel by' (idx, L) st real).
Qed.

(** C8: when there are year-end records but none for the configured base
    year, the year of the record in the middle of the year-end records in
    date order, a median of their years, becomes the anchor year: the
    substitution is reported as a warning, the real value of that year is
    its nominal level, and the conversion returns. *)
Theorem missing_base_year_substituted v g df base_year :
  numeric_col df v → numeric_col df g →
  annual_of (prepare v df) ≠ [] →
  year_rows (prepare v df) (annual_of (prepare v df)) base_year = [] →
  ∃ m idx L st l out,
    is_median m (year_at (prepare v df) <$> annual_of (prepare v df)) ∧
    select_base (prepare v df) (annual_of (prepare v df)) base_year
      = ([Print_warning (MsgBaseYearMissing base_year);
          Print_success (MsgUsingBaseYear m)], Some m) ∧
    first_row (prepare v df) (annual_of (prepare v df)) m = Some idx ∧
    nominal_of v (prepare v df) idx = Some L ∧
    chain_step v g (prepare v df) (annual_of (prepare v df)) m = Some st ∧
    annual_real_gdp st !! m = Some L ∧
    real_gdp st !! idx = Some L ∧
    _convert_gdp_to_real v g df base_year = (l, Some out) ∧
    Print_warning (MsgBaseYearMissing base_year) ∈ l.
Proof.
  intros Hv Hg Hne Hnone.
  destruct (convert_gdp_returns v g df base_year Hv Hg Hne)
    as (lsel & m & idx & L & st & real & Hsel & Hrow & HL & Hc & _ & _ & _ & Hrun).
  destruct (select_base_spec (prepare v df) (annual_of (prepare v df)) base_year Hne)
    as (lsel' & m' & idx' & Hsel' & _ & _ & Hsub).
  rewrite Hsel in Hsel'. simplify_eq.
  destruct (Hsub Hnone) as (i & Hi & -> & ->).
  destruct (chain_step_adjacent v g _ _ (year_at (prepare v df) i) idx (annual_of_lt _)
              (numeric_col_prepare v df v Hv) (numeric_col_prepare v df g Hg) Hrow)
    as (L' & st' & HL' & _ & _ & Hc' & Hbase & Hreal & _).
  simplify_eq.
  eexists (year_at (prepare v df) i), idx, L, st, _, _. split_and!; try done.
  - apply sorted_middle_is_median.
    + apply annual_years_monotone.
    + rewrite length_fmap, list_lookup_fmap, Hi. done.
  - right. apply elem_of_app. right. left.
Qed.

Lemma missing_base_year_substituted_witness :
  ∃ st l out,
    is_median 2015%Z (year_at (prepare "v" scenario_c)
                        <$> annual_of (prepare "v" scenario_c)) ∧
    chain_step "v" "g" (prepare "v" scenario_c) (annual_of (prepare "v" scenario_c)) 2015
      = Some st ∧
    _convert_gdp_to_real "v" "g" scenario_c 2010 = (l, Some out) ∧
    Print_warning (MsgBaseYearMissing 2010) ∈ l.
Proof.
  destruct (missing_base_year_substituted "v" "g" scenario_c 2010
              (proj1 scenario_c_numeric) (proj2 scenario_c_numeric))
    as (m & idx & L & st & l & out & Hmed & Hsel & _ & _ & Hc & _ & _ & Hrun & Hw).
  - by vm_compute.
  - by vm_compute.
  - assert (m = 2015%Z) as -> by (vm_compute in Hsel; congruence).
    by exists st, l, out.
Defined.

(** ** A growth factor of zero (lines 343-351) *)

(** IEEE 754 division by zero: a dividend that is neither zero nor NaN
    gives an infinity, which is not a missing value. *)
Lemma div_zero_divisor (x d : float) :
  notna x = true → PrimFloat.is_zero x = false → PrimFloat.is_zero d = true →
  PrimFloat.is_infinity (x / d) = true ∧ notna (x / d) = true.
Proof.
  unfold notna, PrimFloat.is_nan, PrimFloat.is_zero, PrimFloat.is_infinity.
  rewrite !FloatAxioms.eqb_spec, FloatAxioms.abs_spec, FloatAxioms.div_spec.
  change (Prim2SF zero) with (S754_zero false).
  change (Prim2SF infinity) with (S754_infinity false).
  unfold SF64div.
  destruct (Prim2SF x) as [sx|sx| |sx mx ex], (Prim2SF d) as [sd|sd| |sd md ed];
    cbn; try done; try (by destruct sx); try (by destruct sd);
    intros _ _ _; by destruct (xorb sx sd).
Qed.

(** C2, the claim as stated fails: with a growth rate of -100% the chain
    step does divide, by a growth factor of zero, and stores the quotient
    (an infinity) for the year before; going forward it stores the product
    (zero). Both values count as resolved, nothing is left to the
    interpolation fallback, and only the usual messages are reported. *)
Lemma degenerate_growth_is_divided :
  growth_factor (-100) = 0%float ∧
  real_gdp <$> chain_step "v" "g" (prepare "v" degenerate_growth)
                 (annual_of (prepare "v" degenerate_growth)) 2015
    = Some [infinity; 1000%float; 0%float] ∧
  notna infinity = true ∧
  _convert_gdp_to_real "v" "g" degenerate_growth 2015
    = ([Print_section (MsgComputeReal 2015);
        Print_success (MsgBaseNominal 2015 1000);
        Print_success (MsgRealDone 3 3)],
       Some (Frame [Date 2014 12 31; Date 2015 12 31; Date 2016 12 31]
               [("v"%string, NumCol [infinity; 1000%float; 0%float]);
                ("g"%string, NumCol [3; -100; -100]%float)])).
Proof. vm_compute. repeat split; reflexivity. Qed.

(** C2, amended: there is no guard for a growth factor of zero. For
    neighbouring year-end years p < y at or before the base year, where the
    growth rate G of y makes (1 + G/100) zero, the chain step still stores
    R[p] = R[y] / (1 + G/100) in the year map and in the record; the
    conversion returns and reports only its usual messages; and when R[y]
    is neither zero nor missing, R[p] is an infinity, which counts as
    resolved and reaches the output as it is, untouched by interpolation. *)
Theorem zero_growth_factor_still_divides v g df base_year base_idx p y iy gr :
  numeric_col df v → numeric_col df g → v ≠ "year"%string →
  first_row (prepare v df) (annual_of (prepare v df)) base_year = Some base_idx →
  adjacent_years (years_of (prepare v df) (annual_of (prepare v df))) p y →
  (y ≤ base_year)%Z →
  first_row (prepare v df) (annual_of (prepare v df)) y = Some iy →
  growth_of g (prepare v df) iy = Some gr →
  PrimFloat.is_zero (growth_factor gr) = true →
  ∃ st ip ry L filled out,
    chain_step v g (prepare v df) (annual_of (prepare v df)) base_year = Some st ∧
    first_row (prepare v df) (annual_of (prepare v df)) p = Some ip ∧
    annual_real_gdp st !! y = Some ry ∧
    annual_real_gdp st !! p = Some (ry / growth_factor gr)%float ∧
    real_gdp st !! ip = Some (ry / growth_factor gr)%float ∧
    _convert_gdp_to_real v g df base_year
    = (Print_section (MsgComputeReal base_year) :: (annual_rows (prepare v df)).1
         ++ [Print_success (MsgBaseNominal base_year L);
             Print_success (MsgRealDone filled (nrows (prepare v df)))],
       Some out) ∧
    (notna ry = true → PrimFloat.is_zero ry = false →
       PrimFloat.is_infinity (ry / growth_factor gr) = true ∧
       ∃ real, get_col (cols out) v = Some (NumCol real) ∧
               real !! ip = Some (ry / growth_factor gr)%float).
Proof.
  intros Hv Hg Hvy Hrow Hadj Hle Hiy Hgr Hzero.
  assert (Hne : annual_of (prepare v df) ≠ []).
  { apply first_row_Some in Hrow as [Hin _]. intros E. rewrite E in Hin.
    by apply elem_of_nil in Hin. }
  destruct (convert_gdp_returns v g df base_year Hv Hg Hne)
    as (lsel & by' & idx & L & st & real & Hsel & _ & _ & Hc & _ & _ & Hkept & Hrun).
  rewrite (select_base_present _ _ _ _ Hrow) in Hsel. simplify_eq.
  destruct (chain_step_adjacent v g _ _ by' base_idx (annual_of_lt _)
              (numeric_col_prepare v df v Hv) (numeric_col_prepare v df g Hg) Hrow)
    as (L' & st' & _ & _ & _ & Hc' & _ & _ & _ & _ & Hlink).
  simplify_eq.
  destruct (Hlink p y Hadj) as (ip & iy' & gr' & rp & ry & Hip & Hiy' & Hgr' & Hrp & Hry & Hrip & _ & _ & Hbw).
  simplify_eq. specialize (Hbw Hle). subst rp.
  eexists st, ip, ry, L, _, _. split_and!; try done.
  intros Hna Hnz.
  destruct (div_zero_divisor ry (growth_factor gr) Hna Hnz Hzero) as [Hinf Hres].
  split; [done|]. exists (fill_remaining real).
  split; [by apply finish_value_col|]. by apply Hkept.
Qed.

Lemma degenerate_growth_numeric :
  numeric_col degenerate_growth "v" ∧ numeric_col degenerate_growth "g".
Proof. split; eexists; (split; [reflexivity|]); by vm_compute. Defined.

Lemma degenerate_growth_adjacent :
  adjacent_years
    (years_of (prepare "v" degenerate_growth) (annual_of (prepare "v" degenerate_growth)))
    2014 2015.
Proof.
  assert (E : years_of (prepare "v" degenerate_growth)
                (annual_of (prepare "v" degenerate_growth)) = [2014; 2015; 2016]%Z)
    by (by vm_compute).
  rewrite E. split_and!; [lia|set_solver..|]. intros z Hz. lia.
Defined.

Lemma zero_growth_factor_still_divides_witness :
  ∃ st ry,
    chain_step "v" "g" (prepare "v" degenerate_growth)
      (annual_of (prepare "v" degenerate_growth)) 2015 = Some st ∧
    annual_real_gdp st !! 2015%Z = Some ry ∧
    annual_real_gdp st !! 2014%Z = Some (ry / growth_factor (-100))%float.
Proof.
  destruct (zero_growth_factor_still_divides "v" "g" degenerate_growth 2015 1
              2014 2015 1 (-100)%float
              (proj1 degenerate_growth_numeric) (proj2 degenerate_growth_numeric))
    as (st & ip & ry & L & filled & out & Hc & _ & Hry & Hrp & _).
  - done.
  - reflexivity.
  - exact degenerate_growth_adjacent.
  - lia.
  - reflexivity.
  - reflexivity.
  - reflexivity.
  - by exists st, ry.
Defined.

(** ** Daily observations to monthly means (lines 220-245) *)


#[local] Instance month_of_number_inj : Inj (=) (=) month_of_number.
Proof.
  intros a b E. unfold month_of_number in E. injection E as E1 E2.
  rewrite (Z.div_mod a 12), (Z.div_mod b 12) by lia. lia.
Qed.








Lemma group_mean_nil : group_mean [] = PrimFloat.nan.
Proof. reflexivity. Qed.

Lemma aggregate_dates df :
  dates (_aggregate_daily_to_monthly df)
  = month_of_number <$> month_bins (sort_dates (dates df)).
Proof. done. Qed.

Lemma aggregate_column df n c :
  get_col (cols df) n = Some c → is_numeric c = true →
  get_col (cols (_aggregate_daily_to_monthly df)) n
  = Some (NumCol ((λ k, group_mean
                         (in_month (sort_dates (dates df))
                            (col_floats (take_col (argsort (dates df)) c)) k))
                    <$> month_bins (sort_dates (dates df)))).
Proof.
  intros Hc Hnum. unfold _aggregate_daily_to_monthly, resample_mean. cbn [cols].
  rewrite get_col_fmap, select_numeric_sort_values, get_col_fmap.
  unfold select_numeric. cbn [cols].
  rewrite (get_col_filter _ _ n c Hc Hnum). done.
Qed.




(** ** The outer join of the panel (lines 429-460) *)

Lemma merge_file_contribution fs merged entry :
  merge_file fs merged entry
  = match contribution fs entry with
    | Some sub => merge_outer merged sub
    | None => merged
    end.
Proof.
  unfold merge_file, contribution. destruct (fs entry.1); try done.
  by destruct (available_cols df entry.2).
Qed.

Lemma rows_with_elem (l : list date) k i : i ∈ rows_with l k ↔ l !! i = Some k.
Proof.
  unfold rows_with, date_at. rewrite list_elem_of_filter, elem_of_seq. split.
  - intros [Hd Hi]. destruct (lookup_lt_is_Some_2 l i) as [x Hx]; [lia|].
    rewrite Hx in Hd. simpl in Hd. by subst.
  - intros Hi. rewrite Hi. split; [done|]. apply lookup_lt_Some in Hi. lia.
Qed.

Lemma rows_with_nil (l : list date) k : rows_with l k = [] → k ∉ l.
Proof.
  intros E [i Hi]%list_elem_of_lookup. apply rows_with_elem in Hi.
  rewrite E in Hi. by apply elem_of_nil in Hi.
Qed.

Lemma merge_pairs_ok l r p :
  p ∈ merge_pairs l r → ∃ k, pair_ok l r p k.
Proof.
  unfold merge_pairs. intros (k & Hp & _)%list_elem_of_bind. exists k.
  destruct (rows_with l k) as [|i0 li] eqn:El.
  { apply list_elem_of_fmap in Hp as (j & -> & Hj). apply rows_with_elem in Hj.
    unfold pair_ok, pair_date, date_at. simpl. rewrite Hj.
    split_and!;
      first [done | (intros _; by apply rows_with_nil) | (left; by eexists)
            | (right; by eexists) | naive_solver]. }
  destruct (rows_with r k) as [|j0 rj] eqn:Er.
  { apply list_elem_of_fmap in Hp as (i & -> & Hi).
    rewrite <- El in Hi. apply rows_with_elem in Hi.
    unfold pair_ok, pair_date, date_at. simpl. rewrite Hi.
    split_and!;
      first [done | (intros _; by apply rows_with_nil) | (left; by eexists)
            | (right; by eexists) | naive_solver]. }
  apply list_elem_of_bind in Hp as (i & Hp & Hi).
  apply list_elem_of_fmap in Hp as (j & -> & Hj).
  rewrite <- El in Hi. rewrite <- Er in Hj.
  apply rows_with_elem in Hi. apply rows_with_elem in Hj.
  unfold pair_ok, pair_date, date_at. simpl. rewrite Hi.
  split_and!;
      first [done | (intros _; by apply rows_with_nil) | (left; by eexists)
            | (right; by eexists) | naive_solver].
Qed.

Lemma merge_pairs_cover l r k :
  k ∈ l ++ r → ∃ p, p ∈ merge_pairs l r ∧ pair_date l r p = k.
Proof.
  intros Hk.
  assert (Hkey : k ∈ remove_dups (sort_dates (l ++ r))).
  { by rewrite elem_of_remove_dups, sort_dates_elem_of. }
  assert (Hex : ∃ p, p ∈ match rows_with l k, rows_with r k with
                         | [], rs => (λ j, (None, Some j)) <$> rs
                         | ls, [] => (λ i, (Some i, None)) <$> ls
                         | ls, rs => ls ≫= λ i, (λ j, (Some i, Some j)) <$> rs
                         end).
  { destruct (rows_with l k) as [|i0 li] eqn:El.
    - destruct (rows_with r k) as [|j0 rj] eqn:Er.
      + apply elem_of_app in Hk as [Hk|Hk];
          [by apply rows_with_nil in El|by apply rows_with_nil in Er].
      + eexists. left.
    - destruct (rows_with r k) as [|j0 rj] eqn:Er.
      + eexists. left.
      + eexists. apply list_elem_of_bind. exists i0. split; [left|left]. }
  destruct Hex as [p Hp].
  assert (Hin : p ∈ merge_pairs l r).
  { unfold merge_pairs. apply list_elem_of_bind. eauto. }
  exists p. split; [done|].
  clear Hin.
  destruct (rows_with l k) as [|i0 li] eqn:El.
  - apply list_elem_of_fmap in Hp as (j & -> & Hj). apply rows_with_elem in Hj.
    unfold pair_date, date_at. by rewrite Hj.
  - assert (∃ i, p.1 = Some i ∧ i ∈ rows_with l k) as (i & Hp1 & Hi).
    { rewrite El. destruct (rows_with r k) as [|j0 rj].
      - apply list_elem_of_fmap in Hp as (i & -> & Hi). eauto.
      - apply list_elem_of_bind in Hp as (i & Hp & Hi).
        apply list_elem_of_fmap in Hp as (j & -> & Hj). eauto. }
    apply rows_with_elem in Hi. destruct p as [o o']. simpl in Hp1. subst o.
    unfold pair_date, date_at. by rewrite Hi.
Qed.

Lemma take_opt_lookup {A} (m : A) q (xs : list A) i :
  take_opt m q xs !! i = (λ o, default m (o ≫= (xs !!.))) <$> q !! i.
Proof. unfold take_opt. apply list_lookup_fmap. Qed.

Lemma take_opt_col_length q c : col_length (take_opt_col q c) = length q.
Proof.
  destruct c; simpl; [|case_decide; simpl|]; unfold take_opt; by rewrite length_fmap.
Qed.

Lemma take_opt_col_cell_None q c i :
  q !! i = Some None → col_cell (take_opt_col q c) i = missing.
Proof.
  intros Hq. destruct c as [xs|xs|xs]; simpl.
  - by rewrite take_opt_lookup, Hq.
  - case_decide as Hall.
    + eapply Forall_lookup_1 in Hall; [|done]. by destruct Hall.
    + simpl. by rewrite take_opt_lookup, Hq.
  - by rewrite take_opt_lookup, Hq.
Qed.

Lemma take_opt_col_cell_Some q c i j x :
  q !! i = Some (Some j) → col_cell c j = Some x →
  col_cell (take_opt_col q c) i = Some x.
Proof.
  intros Hq. destruct c as [xs|xs|xs]; simpl.
  - intros (y & Hy & ->)%fmap_Some. rewrite take_opt_lookup, Hq. simpl.
    by rewrite Hy.
  - intros (y & Hy & ->)%fmap_Some. case_decide; simpl.
    + rewrite take_opt_lookup, Hq. simpl. by rewrite Hy.
    + rewrite take_opt_lookup, Hq. simpl. rewrite list_lookup_fmap, Hy. done.
  - intros (y & Hy & ->)%fmap_Some. rewrite take_opt_lookup, Hq. simpl.
    by rewrite Hy.
Qed.

Lemma take_col_cell p c i j :
  Forall (λ k, k < col_length c) p → p !! i = Some j →
  col_cell (take_col p c) i = col_cell c j.
Proof.
  intros Hp Hi. destruct c as [xs|xs|xs]; simpl in *;
    rewrite take_rows_lookup by done; by rewrite Hi.
Qed.

Lemma merge_outer_row l r i d :
  dates (merge_outer l r) !! i = Some d →
  ∃ p, merge_pairs (dates l) (dates r) !! i = Some p ∧ pair_ok (dates l) (dates r) p d.
Proof.
  unfold merge_outer. cbn [dates]. rewrite list_lookup_fmap.
  intros (p & Hp & ->)%fmap_Some. exists p. split; [done|].
  destruct (merge_pairs_ok (dates l) (dates r) p) as (k & Hk).
  { by eapply list_elem_of_lookup_2. }
  by destruct Hk as [<- ?].
Qed.

Lemma merge_outer_dates l r d :
  d ∈ dates (merge_outer l r) ↔ d ∈ dates l ∨ d ∈ dates r.
Proof.
  split.
  - intros [i Hi]%list_elem_of_lookup.
    destruct (merge_outer_row l r i d Hi)
      as ([o o'] & _ & _ & H1 & H2 & _ & _ & [[a Ha]|[b Hb]]); simpl in *; subst.
    + left. eapply list_elem_of_lookup_2. by apply H1.
    + right. eapply list_elem_of_lookup_2. by apply H2.
  - intros Hd.
    destruct (merge_pairs_cover (dates l) (dates r) d) as (p & Hp & Hk).
    { apply elem_of_app. tauto. }
    unfold merge_outer. cbn [dates]. apply list_elem_of_fmap. eauto.
Qed.

Lemma fmap_concat_blocks {A B} (f : A → B) (bs : list (list A)) :
  fmap (M:=list) f (List.concat bs)
  = List.concat (fmap (M:=list) (λ b, fmap (M:=list) f b) bs).
Proof.
  induction bs as [|b bs IH]; csimpl; [done|]. by rewrite fmap_app, IH.
Qed.

Lemma block_left m sub s block :
  block_of m s block →
  block_of (merge_outer m sub) s
    (prod_map id (take_opt_col (merge_pairs (dates m) (dates sub)).*1) <$> block).
Proof.
  intros [Hnames Hmiss]. split; [by rewrite names_fmap|].
  intros i d Hi Hd. apply Forall_fmap, Forall_forall. intros [nm c] Hin. simpl.
  destruct (merge_outer_row m sub i d Hi) as ([o o'] & Hp & _ & H1 & _).
  simpl in *.
  assert (Hq : (merge_pairs (dates m) (dates sub)).*1 !! i = Some o).
  { by rewrite list_lookup_fmap, Hp. }
  destruct o as [j|]; [|by apply take_opt_col_cell_None].
  eapply take_opt_col_cell_Some; [done|].
  pose proof (Hmiss j d (H1 j eq_refl) Hd) as Hall.
  by apply (proj1 (Forall_forall _ _) Hall (nm, c)).
Qed.

Lemma block_right m sub :
  block_of (merge_outer m sub) sub
    (prod_map id (take_opt_col (merge_pairs (dates m) (dates sub)).*2) <$> cols sub).
Proof.
  split; [apply names_fmap|].
  intros i d Hi Hd. apply Forall_fmap, Forall_forall. intros [nm c] Hin. simpl.
  destruct (merge_outer_row m sub i d Hi) as ([o o'] & Hp & _ & _ & H2 & _).
  simpl in *.
  assert (Hq : (merge_pairs (dates m) (dates sub)).*2 !! i = Some o').
  { by rewrite list_lookup_fmap, Hp. }
  destruct o' as [j|]; [|by apply take_opt_col_cell_None].
  destruct Hd. eapply list_elem_of_lookup_2. by apply H2.
Qed.

Lemma panel_inv_merge m sub series :
  panel_inv m series → panel_inv (merge_outer m sub) (series ++ [sub]).
Proof.
  intros (Hwf & Hdates & blocks & Hcols & Hblocks). split_and!.
  - unfold wf_frame, merge_outer, nrows. cbn [cols dates].
    rewrite length_fmap. apply Forall_app. split; apply Forall_fmap, Forall_forall;
      intros [nm c] _; simpl; by rewrite take_opt_col_length, length_fmap.
  - intros d. rewrite merge_outer_dates, Hdates. split.
    + intros [(s & Hs & Hd)|Hd]; [exists s|exists sub];
        (split; [|done]); apply elem_of_app; [by left|right; left].
    + intros (s & [Hs|Hs%list_elem_of_singleton]%elem_of_app & Hd);
        [left; eauto|right; by subst].
  - exists ((fmap (M:=list)
               (λ b : list (string * column),
                  prod_map id (take_opt_col (merge_pairs (dates m) (dates sub)).*1) <$> b)
               blocks)
            ++ [prod_map id (take_opt_col (merge_pairs (dates m) (dates sub)).*2)
                  <$> cols sub]).
    split.
    + unfold merge_outer. cbn [cols]. rewrite concat_app, Hcols, fmap_concat_blocks.
      simpl. by rewrite app_nil_r.
    + apply Forall2_app.
      * apply Forall2_fmap_r. eapply Forall2_impl; [done|].
        intros s b Hb. by apply block_left.
      * constructor; [apply block_right|constructor].
Qed.

Lemma panel_inv_foldl fs entries m series :
  panel_inv m series →
  panel_inv (foldl (merge_file fs) m entries)
            (series ++ omap (contribution fs) entries).
Proof.
  revert m series. induction entries as [|e entries IH]; intros m series Hinv; csimpl.
  { by rewrite app_nil_r. }
  rewrite merge_file_contribution. destruct (contribution fs e) as [sub|]; [|by apply IH].
  replace (series ++ sub :: omap (contribution fs) entries)
    with ((series ++ [sub]) ++ omap (contribution fs) entries)
    by (by rewrite <- app_assoc).
  apply IH. by apply panel_inv_merge.
Qed.

Lemma wf_get_col_length cs (k : nat) :
  Forall (λ nc, col_length nc.2 = k) cs →
  ∀ nm c, get_col cs nm = Some c → col_length c = k.
Proof.
  induction 1 as [|[m c0] cs Hm Hall IH]; intros nm c; csimpl; [done|].
  case_decide; [|by apply IH]. intros E. by simplify_eq.
Qed.

Lemma base_panel_inv df base :
  wf_frame df → base_panel df = Some base → panel_inv base [base].
Proof.
  intros Hwf Hb. unfold base_panel in Hb.
  destruct (get_col (cols df) "全国-当月") as [a|] eqn:Ea; [|done].
  destruct (get_col (cols df) "全国-同比增长") as [b|] eqn:Eb; [|done].
  simpl in Hb. simplify_eq.
  pose proof (wf_get_col_length (cols df) (nrows df) Hwf) as Hlen.
  split_and!.
  - unfold wf_frame, nrows. cbn [cols dates]. repeat constructor; simpl; by eapply Hlen.
  - intros d. split; [intros Hd; eexists; split; [left|done]|].
    by intros (s & ->%list_elem_of_singleton & Hd).
  - eexists [_]. split; [simpl; by rewrite app_nil_r|].
    constructor; [|constructor]. split; [done|].
    intros i d Hi Hd. destruct Hd. by eapply list_elem_of_lookup_2.
Qed.

Lemma block_sort m s block :
  Forall (λ nc, col_length nc.2 = nrows m) block →
  block_of m s block →
  block_of (sort_values m) s (prod_map id (take_col (argsort (dates m))) <$> block).
Proof.
  intros Hwb [Hnames Hmiss]. split; [by rewrite names_fmap|].
  intros i d Hi Hd. rewrite dates_sort_values in Hi. unfold sort_dates in Hi.
  rewrite take_rows_lookup in Hi by apply argsort_lt.
  destruct (argsort (dates m) !! i) as [j|] eqn:Ej; [|done]. simpl in Hi.
  apply Forall_fmap, Forall_forall. intros [nm c] Hin. simpl.
  rewrite (take_col_cell _ c i j).
  - by apply (proj1 (Forall_forall _ _) (Hmiss j d Hi Hd) (nm, c)).
  - pose proof (proj1 (Forall_forall _ _) Hwb _ Hin) as Hc. simpl in Hc.
    rewrite Hc. apply argsort_lt.
  - done.
Qed.

Lemma panel_inv_sort m series :
  panel_inv m series →
  panel_inv (sort_values m) series ∧ Sorted date_le (dates (sort_values m)).
Proof.
  intros (Hwf & Hdates & blocks & Hcols & Hblocks).
  split; [|apply sort_dates_Sorted]. split_and!.
  - unfold wf_frame. rewrite nrows_sort_values. unfold sort_values, take_frame.
    cbn [cols]. apply Forall_fmap. eapply Forall_impl; [done|].
    intros [nm c] Hc. simpl in *. rewrite col_length_take_col; [apply argsort_length|].
    rewrite Hc. apply argsort_lt.
  - intros d. rewrite dates_sort_values, sort_dates_elem_of. apply Hdates.
  - exists (fmap (M:=list)
              (λ b : list (string * column),
                 prod_map id (take_col (argsort (dates m))) <$> b) blocks).
    split.
    + unfold sort_values, take_frame. cbn [cols]. by rewrite Hcols, fmap_concat_blocks.
    + apply Forall2_fmap_r.
      assert (Hwfb : Forall (λ b, Forall (λ nc, col_length nc.2 = nrows m) b) blocks).
      { unfold wf_frame in Hwf. rewrite Hcols in Hwf. clear -Hwf.
        induction blocks as [|b bs IH]; [constructor|]. simpl in Hwf.
        apply Forall_app in Hwf as [? ?]. constructor; auto. }
      clear Hcols Hdates Hwf. revert Hwfb.
      induction Hblocks as [|s b ss bs Hb Hrest IH]; intros Hwfb; [constructor|].
      apply Forall_cons in Hwfb as [Hwb Hwbs]. constructor; [|by apply IH].
      by apply block_sort.
Qed.

(** C9: the panel is a full outer join on the date: its dates are exactly
    the dates of the base series and of every series that contributes; a
    date that a series lacks still has its row, with the columns of that
    series missing there; and the rows are in ascending date order. *)
Theorem panel_is_outer_join fs df base :
  fs "CPI_标准日期.csv"%string = Csv df →
  wf_frame df →
  base_panel df = Some base →
  ∃ panel blocks,
    create_unified_dataset fs true = Some panel ∧
    (∀ d, d ∈ dates panel ↔
       ∃ s, s ∈ base :: omap (contribution fs) (drop 1 files_to_merge) ∧ d ∈ dates s) ∧
    Sorted date_le (dates panel) ∧
    cols panel = List.concat blocks ∧
    Forall2 (block_of panel)
      (base :: omap (contribution fs) (drop 1 files_to_merge)) blocks.
Proof.
  intros Hfs Hwf Hbase.
  pose proof (base_panel_inv df base Hwf Hbase) as H0.
  pose proof (panel_inv_foldl fs (drop 1 files_to_merge) base [base] H0) as H1.
  apply panel_inv_sort in H1 as [(_ & Hdates & blocks & Hcols & Hblocks) Hsorted].
  eexists _, blocks. split_and!; [|exact Hdates|exact Hsorted|exact Hcols|exact Hblocks].
  unfold create_unified_dataset. rewrite Hfs, Hbase. done.
Qed.

Lemma panel_is_outer_join_witness :
  ∃ panel blocks,
    create_unified_dataset panel_files true = Some panel ∧
    Sorted date_le (dates panel) ∧
    cols panel = List.concat blocks ∧
    (Date 2019 12 1 ∈ dates panel).
Proof.
  destruct (panel_is_outer_join panel_files panel_cpi
              (Frame (dates panel_cpi)
                 [("CPI"%string, NumCol [101; 102]%float);
                  ("CPI_yoy"%string, NumCol [1; 2]%float)]))
    as (panel & blocks & Hrun & Hdates & Hsorted & Hcols & _).
  - reflexivity.
  - repeat constructor.
  - reflexivity.
  - exists panel, blocks. split_and!; try done.
    apply Hdates. eexists. split; [right; right; left|]. left.
Defined.

(** The panel of the three example files: the union of their months in
    date order, missing values where a series has no observation. *)
Example panel_example :
  create_unified_dataset panel_files true
  = Some (Frame [Date 2019 12 1; Date 2020 1 1; Date 2020 2 1; Date 2020 3 1]
            [("CPI"%string, NumCol [PrimFloat.nan; 102; 101; PrimFloat.nan]%float);
             ("CPI_yoy"%string, NumCol [PrimFloat.nan; 2; 1; PrimFloat.nan]%float);
             ("PMI_0"%string, NumCol [PrimFloat.nan; PrimFloat.nan; 51; 50]%float);
             ("GDP_0"%string, NumCol [6; PrimFloat.nan; PrimFloat.nan; PrimFloat.nan]%float)]).
Proof. vm_compute. reflexivity. Qed.

(** ** Annual repetition, row by row *)

Lemma bind_lookup_block {A B} (f : A → list B) (c : nat) (l : list A) (i m : nat) :
  (∀ a, length (f a) = c) → m < c →
  (l ≫= f) !! (c * i + m) = l !! i ≫= λ x, f x !! m.
Proof.
  intros Hlen Hm. revert i. induction l as [|x l IH]; intros i; [done|].
  rewrite bind_cons. destruct i as [|i].
  - rewrite Nat.mul_0_r, lookup_app_l by (rewrite Hlen; lia). done.
  - rewrite lookup_app_r by (rewrite Hlen; lia).
    rewrite Hlen. replace (c * S i + m - c) with (c * i + m) by lia.
    apply IH.
Qed.

Lemma bind_length_block {A B} (f : A → list B) (c : nat) (l : list A) :
  (∀ a, length (f a) = c) → length (l ≫= f) = c * length l.
Proof.
  intros Hlen. induction l as [|x l IH]; [simpl; lia|].
  rewrite bind_cons, length_app, Hlen, IH. simpl. lia.
Qed.

Lemma repeat12_lookup {A} (xs : list A) (i m : nat) :
  m < 12 → repeat12 xs !! (12 * i + m) = xs !! i.
Proof.
  intros Hm. unfold repeat12.
  rewrite (bind_lookup_block _ 12) by (done || intros; apply length_replicate).
  destruct (xs !! i) as [a|]; [|done]. exact (lookup_replicate_2 12 a m Hm).
Qed.

Lemma repeat12_col_cell (c : column) (i m : nat) :
  m < 12 → col_cell (repeat12_col c) (12 * i + m) = col_cell c i.
Proof.
  intros Hm. destruct c; cbn [repeat12_col col_cell]; by rewrite repeat12_lookup.
Qed.

Lemma repeat12_col_length (c : column) :
  col_length (repeat12_col c) = 12 * col_length c.
Proof.
  destruct c; cbn [repeat12_col col_length]; unfold repeat12;
    apply bind_length_block; intros; apply length_replicate.
Qed.

Lemma months_of_year_length (d : date) : length (months_of_year d) = 12.
Proof. done. Qed.

Lemma months_of_year_lookup (d : date) (m : nat) :
  m < 12 → months_of_year d !! m = Some (Date (dt_year d) (Z.of_nat (S m)) 1).
Proof.
  intros Hm. unfold months_of_year.
  rewrite list_lookup_fmap, lookup_seq_lt by done. done.
Qed.

Lemma months_of_year_elem (d e : date) :
  e ∈ months_of_year d → dt_year e = dt_year d.
Proof.
  unfold months_of_year. intros (m & -> & _)%list_elem_of_fmap. done.
Qed.

Lemma months_of_year_NoDup (d : date) : NoDup (months_of_year d).
Proof.
  unfold months_of_year. apply NoDup_fmap_2; [|apply NoDup_seq].
  intros a b [=]. lia.
Qed.

Lemma repeat_annual_dates (df : frame) :
  dates (_repeat_annual_to_monthly df) = dates df ≫= months_of_year.
Proof. unfold _repeat_annual_to_monthly. by destruct (dates df). Qed.

(** X1: the annual repetition gives twelve rows for every input row, in
    input order: row [12 i + m] of the output is dated the first day of
    month [m + 1] of the year of input row [i], and carries in every
    column the value of input row [i]; the columns are those of the input
    other than [year]. *)
Theorem repeat_annual_row_by_row (df : frame) (i m : nat) (d : date) :
  dates df !! i = Some d → m < 12 →
  nrows (_repeat_annual_to_monthly df) = 12 * nrows df
  ∧ columns (_repeat_annual_to_monthly df)
    = filter (λ name, name ≠ "year"%string) (columns df)
  ∧ dates (_repeat_annual_to_monthly df) !! (12 * i + m)
    = Some (Date (dt_year d) (Z.of_nat (S m)) 1)
  ∧ ∀ n c, n ≠ "year"%string → get_col (cols df) n = Some c →
      ∃ c', get_col (cols (_repeat_annual_to_monthly df)) n = Some c'
            ∧ col_length c' = 12 * col_length c
            ∧ col_cell c' (12 * i + m) = col_cell c i.
Proof.
  intros Hd Hm.
  assert (Hne : dates df ≠ []) by (intros E; by rewrite E in Hd).
  split_and!.
  - unfold nrows. rewrite repeat_annual_dates.
    apply bind_length_block, months_of_year_length.
  - unfold columns. rewrite repeat_annual_cols by done.
    rewrite names_fmap. symmetry. by apply filter_fmap_comm.
  - rewrite repeat_annual_dates.
    rewrite (bind_lookup_block _ 12) by (done || apply months_of_year_length).
    rewrite Hd. simpl. by apply months_of_year_lookup.
  - intros n c Hn Hc. exists (repeat12_col c).
    rewrite repeat_annual_cols by done. split_and!.
    + rewrite get_col_fmap, (get_col_filter _ _ _ _ Hc) by done. done.
    + apply repeat12_col_length.
    + by apply repeat12_col_cell.
Qed.

Lemma repeat_annual_row_by_row_witness :
  dates (_repeat_annual_to_monthly annual_text) !! 14
  = Some (Date 2021 3 1).
Proof.
  exact (proj1 (proj2 (proj2
    (repeat_annual_row_by_row annual_text 1 2 (Date 2021 12 31) eq_refl
       ltac:(lia))))).
Defined.

(** X2: the dates of the annual repetition are pairwise distinct exactly
    when no two input rows fall in the same year; the function neither
    sorts nor drops duplicates. *)
Theorem repeat_annual_unique_dates (df : frame) :
  NoDup (dates (_repeat_annual_to_monthly df)) ↔ NoDup (dt_year <$> dates df).
Proof.
  rewrite repeat_annual_dates. generalize (dates df). intros ds. split.
  - induction ds as [|d ds IH]; [constructor|].
    rewrite bind_cons, NoDup_app. intros (_ & Hdis & Hrest).
    rewrite fmap_cons. constructor; [|by apply IH].
    intros (e & Hy & He)%list_elem_of_fmap.
    apply (Hdis (Date (dt_year d) 1 1)).
    + unfold months_of_year. apply list_elem_of_fmap. exists 1. split; [done|].
      apply elem_of_seq. lia.
    + apply list_elem_of_bind. exists e. split; [|done].
      unfold months_of_year. apply list_elem_of_fmap. exists 1.
      split; [by rewrite Hy|]. apply elem_of_seq. lia.
  - intros Hnd. apply NoDup_bind.
    + intros d1 d2 e H1 H2 He1 He2.
      apply months_of_year_elem in He1, He2.
      assert (Hy : dt_year d1 = dt_year d2) by congruence.
      clear He1 He2. induction ds as [|d ds IH]; [by apply elem_of_nil in H1|].
      rewrite fmap_cons in Hnd. apply NoDup_cons in Hnd as [Hd Hnd].
      apply elem_of_cons in H1, H2.
      destruct H1 as [->|H1], H2 as [->|H2]; [done| | |by apply IH].
      * exfalso. apply Hd. rewrite Hy. by apply list_elem_of_fmap_2.
      * exfalso. apply Hd. rewrite <- Hy. by apply list_elem_of_fmap_2.
    + intros. apply months_of_year_NoDup.
    + by apply NoDup_fmap_1 in Hnd.
Qed.

(** ** Linear interpolation at the ends of a column *)

(** Next to an infinite neighbour the line from the left point is NaN and
    the one from the right point is taken; between two equal infinite
    values both are NaN and the common value is taken. *)
Example interpolate_next_to_infinity :
  interpolate_linear false [PrimFloat.infinity; PrimFloat.nan; PrimFloat.nan; 7]%float
  = [PrimFloat.infinity; PrimFloat.infinity; PrimFloat.infinity; 7]%float
  ∧ interpolate_linear false [PrimFloat.infinity; PrimFloat.nan; PrimFloat.infinity]
    = [PrimFloat.infinity; PrimFloat.infinity; PrimFloat.infinity]
  ∧ interpolate_linear false [1; PrimFloat.nan; PrimFloat.nan; 7]%float = [1; 3; 5; 7]%float.
Proof. split_and!; vm_compute; reflexivity. Qed.

Lemma next_valid_None xs :
  (∀ y, y ∈ xs → notna y = false) → next_valid xs = None.
Proof.
  induction xs as [|x xs IH]; intros Hall; [done|]. simpl.
  rewrite (Hall x) by left. rewrite IH; [done|]. intros y Hy. apply Hall. by right.
Qed.

Lemma interp_from_leading xs k :
  (∀ j y, j ≤ k → xs !! j = Some y → notna y = false) →
  interp_from false None xs !! k = xs !! k.
Proof.
  revert k. induction xs as [|x xs IH]; intros k Hall; [done|]. simpl.
  rewrite (Hall 0 x) by (done || lia).
  assert (E : match next_valid xs with Some (_, _) => x | None => x end = x).
  { by destruct (next_valid xs) as [[]|]. }
  rewrite E. destruct k as [|k]; [done|]. simpl. apply IH.
  intros j y Hj Hy. apply (Hall (S j) y); [lia|done].
Qed.

Lemma interp_from_all_missing both d a xs :
  (∀ y, y ∈ xs → notna y = false) →
  interp_from both (Some (d, a)) xs = replicate (length xs) a.
Proof.
  revert d. induction xs as [|x xs IH]; intros d Hall; [done|]. simpl.
  rewrite (Hall x) by left.
  rewrite next_valid_None by (intros y Hy; apply Hall; by right).
  f_equal. apply IH. intros y Hy. apply Hall. by right.
Qed.

Lemma interp_from_trailing both prev xs i a k :
  xs !! i = Some a → notna a = true →
  (∀ j y, i < j → xs !! j = Some y → notna y = false) →
  i < k < length xs →
  interp_from both prev xs !! k = Some a.
Proof.
  revert prev i k. induction xs as [|x xs IH]; intros prev i k Hi Ha Hall Hk; [done|].
  destruct k as [|k]; [lia|]. simpl in Hk. destruct i as [|i]; simpl in Hi.
  - simplify_eq. simpl. rewrite Ha. simpl.
    rewrite interp_from_all_missing.
    + apply lookup_replicate_2. lia.
    + intros y [j Hj]%list_elem_of_lookup. apply (Hall (S j) y); [lia|done].
  - assert (Hrec : ∀ prev', interp_from both prev' xs !! k = Some a).
    { intros prev'. apply (IH prev' i k); [done|done| |lia].
      intros j y Hj Hy. apply (Hall (S j) y); [lia|done]. }
    simpl. destruct (notna x); simpl; apply Hrec.
Qed.

Lemma fill_remaining_leading real k :
  (∀ j y, j ≤ k → real !! j = Some y → notna y = false) →
  fill_remaining real !! k = real !! k.
Proof.
  intros Hall. unfold fill_remaining, interpolate_linear. case_decide; [|done].
  by apply interp_from_leading.
Qed.

Lemma fill_remaining_trailing real i a k :
  real !! i = Some a → notna a = true →
  (∀ j y, i < j → real !! j = Some y → notna y = false) →
  i < k < length real →
  fill_remaining real !! k = Some a.
Proof.
  intros Hi Ha Hall Hk. unfold fill_remaining, interpolate_linear.
  case_decide as Hex; [by eapply interp_from_trailing|].
  exfalso. apply Hex. destruct (lookup_lt_is_Some_2 real k) as [y Hy]; [lia|].
  apply Exists_exists. exists y. split; [by eapply list_elem_of_lookup_2|].
  apply (Hall k y); [lia|done].
Qed.

(** ** Quarterly interpolation (lines 158-188) *)

Lemma next_valid_first xs i a :
  xs !! i = Some a → notna a = true →
  (∀ j y, j < i → xs !! j = Some y → notna y = false) →
  next_valid xs = Some (i, a).
Proof.
  revert i. induction xs as [|x xs IH]; intros i Hi Ha Hall; [done|].
  destruct i as [|i]; simpl in *.
  - simplify_eq. by rewrite Ha.
  - rewrite (Hall 0 x) by (done || lia).
    rewrite (IH i); [done..|]. intros j y Hj Hy. apply (Hall (S j) y); [lia|done].
Qed.

Lemma interp_from_leading_both xs i a k :
  xs !! i = Some a → notna a = true →
  (∀ j y, j < i → xs !! j = Some y → notna y = false) →
  k < i →
  interp_from true None xs !! k = Some a.
Proof.
  revert i k. induction xs as [|x xs IH]; intros i k Hi Ha Hall Hk; [done|].
  destruct i as [|i]; [lia|]. simpl in Hi. simpl.
  rewrite (Hall 0 x) by (done || lia).
  rewrite (next_valid_first xs i a); [|done..|].
  2: { intros j y Hj Hy. apply (Hall (S j) y); [lia|done]. }
  destruct k as [|k]; [done|]. simpl. apply (IH i k); [done..| |lia].
  intros j y Hj Hy. apply (Hall (S j) y); [lia|done].
Qed.

Lemma interpolate_column df n c :
  get_col (cols df) n = Some c → is_numeric c = true →
  ∃ ms,
    get_col (cols (_aggregate_daily_to_monthly df)) n = Some (NumCol ms) ∧
    length ms = nrows (_aggregate_daily_to_monthly df) ∧
    get_col (cols (_interpolate_quarterly_to_monthly df)) n
    = Some (NumCol (interpolate_linear true ms)).
Proof.
  intros Hc Hnum. eexists. split; [by apply aggregate_column|]. split.
  - unfold nrows. rewrite aggregate_dates. by rewrite !length_fmap.
  - unfold _interpolate_quarterly_to_monthly. cbn [cols]. rewrite get_col_fmap.
    change (resample_mean (select_numeric (sort_values df)))
      with (_aggregate_daily_to_monthly df).
    by rewrite (aggregate_column df n c Hc Hnum).
Qed.

(** X3: the quarterly strategy yields the monthly means on the same
    rows as the daily strategy, one for every month from the first to the
    last observation, with the gaps interpolated: a month that has a mean
    keeps it unchanged, the months before the first mean take the first
    mean, and the months after the last mean take the last one. *)
Theorem quarterly_keeps_monthly_means df n c :
  get_col (cols df) n = Some c → is_numeric c = true →
  dates (_interpolate_quarterly_to_monthly df) = dates (_aggregate_daily_to_monthly df)
  ∧ ∃ ms xs,
      get_col (cols (_aggregate_daily_to_monthly df)) n = Some (NumCol ms) ∧
      get_col (cols (_interpolate_quarterly_to_monthly df)) n = Some (NumCol xs) ∧
      length xs = nrows (_interpolate_quarterly_to_monthly df) ∧
      (∀ k x, ms !! k = Some x → notna x = true → xs !! k = Some x) ∧
      (∀ i a k, ms !! i = Some a → notna a = true →
         (∀ j y, j < i → ms !! j = Some y → notna y = false) →
         k < i → xs !! k = Some a) ∧
      (∀ i a k, ms !! i = Some a → notna a = true →
         (∀ j y, i < j → ms !! j = Some y → notna y = false) →
         i < k < length ms → xs !! k = Some a).
Proof.
  intros Hc Hnum. split; [done|].
  destruct (interpolate_column df n c Hc Hnum) as (ms & Hms & Hlen & Hxs).
  exists ms, (interpolate_linear true ms). unfold interpolate_linear.
  split_and!; [done|done| | | |].
  - rewrite interp_from_length. exact Hlen.
  - intros k x. apply interp_from_kept.
  - intros i a k. apply interp_from_leading_both.
  - intros i a k. apply interp_from_trailing.
Qed.

Lemma quarterly_keeps_monthly_means_witness :
  ∃ xs,
    get_col (cols (_interpolate_quarterly_to_monthly quarters_open)) "v"
      = Some (NumCol xs) ∧
    xs !! 0 = Some 100%float ∧ xs !! 3 = Some 100%float ∧ xs !! 9 = Some 110%float.
Proof.
  destruct (quarterly_keeps_monthly_means quarters_open "v"
              (NumCol [PrimFloat.nan; 100; 110; PrimFloat.nan]%float)
              eq_refl eq_refl)
    as (_ & ms & xs & Hms & Hxs & _ & Hkept & Hlead & Htrail).
  assert (Ems : ms = [PrimFloat.nan; PrimFloat.nan; PrimFloat.nan; 100;
                      PrimFloat.nan; PrimFloat.nan; 110;
                      PrimFloat.nan; PrimFloat.nan; PrimFloat.nan]%float).
  { vm_compute in Hms. by injection Hms. }
  subst ms. exists xs. split; [exact Hxs|]. split_and!.
  - apply (Hlead 3 100%float 0); [reflexivity|reflexivity| |lia].
    intros [|[|[|j]]] y Hj Hy; try lia; by injection Hy as <-.
  - by apply Hkept.
  - apply (Htrail 6 110%float 9); [reflexivity|reflexivity| |simpl; lia].
    intros j y Hj Hy. do 7 (destruct j as [|j]; [lia|]).
    destruct j as [|[|[|j]]]; [by injection Hy as <-..|done].
Defined.

(** ** What [process_file] does with a file (lines 62-156) *)

Lemma day_gaps_length ds : length (day_gaps ds) = length ds - 1.
Proof.
  induction ds as [|a [|b ds] IH]; [done..|].
  change (day_gaps (a :: b :: ds))
    with ((toordinal b - toordinal a)%Z :: day_gaps (b :: ds)).
  simpl in *. lia.
Qed.

Lemma median_None xs : median xs = None ↔ xs = [].
Proof.
  unfold median.
  assert (Hlen : length (merge_sort Z.le xs) = length xs).
  { apply Permutation_length, merge_sort_Permutation. }
  destruct (merge_sort Z.le xs) as [|y s] eqn:E.
  { split; [|done]. intros _. by destruct xs. }
  set (n := length (y :: s)) in *.
  assert (Hn : 0 < n) by (unfold n; simpl; lia).
  split; [|intros ->; simpl in Hlen; lia]. intros Hm. exfalso.
  destruct n as [|k] eqn:En; [lia|]. rewrite <- En in *.
  assert (Hhalf : n / 2 < n) by (apply Nat.div_lt; lia).
  destruct (lookup_lt_is_Some_2 (y :: s) (n / 2) Hhalf) as [b Hb].
  destruct (Nat.odd n) eqn:Hodd.
  - by rewrite Hb in Hm.
  - destruct (lookup_lt_is_Some_2 (y :: s) (n / 2 - 1)) as [a Ha]; [lia|].
    by rewrite Ha, Hb in Hm.
Qed.

Lemma date_diff_None df : date_diff df = None ↔ nrows df ≤ 1.
Proof.
  unfold date_diff. rewrite fmap_None, median_None.
  rewrite dates_sort_values.
  pose proof (day_gaps_length (sort_dates (dates df))) as Hl.
  rewrite sort_dates_length in Hl. fold (nrows df) in Hl.
  split.
  - intros E. rewrite E in Hl. simpl in Hl. lia.
  - intros Hn. apply length_zero_iff_nil. lia.
Qed.

(** X4: a file with fewer than two rows has no gap between dates (the
    median is NaN), so it is never converted: nothing is written and
    [False] is returned.  Unless the real-value conversion of a GDP file
    raises, the report ends with the already-monthly message, which for a
    file that is not GDP data is all that follows the heading; when that
    conversion raises, as it does for a GDP file without rows, the failure
    is reported instead. *)
Theorem short_series_not_converted fs save_ok filename df :
  fs filename = Csv df →
  nrows df ≤ 1 →
  date_diff df = None
  ∧ returned (process_file fs save_ok filename) = false
  ∧ written (process_file fs save_ok filename) = None
  ∧ (is_gdp_data filename df = false →
     reported (process_file fs save_ok filename)
     = [Print_section (MsgProcessing filename); Print_success (MsgAlreadyMonthly None)])
  ∧ (∀ l df', convert_gdp_file filename df = (l, Some df') →
     reported (process_file fs save_ok filename)
     = Print_section (MsgProcessing filename)
         :: l ++ [Print_success (MsgAlreadyMonthly None)])
  ∧ (∀ l, convert_gdp_file filename df = (l, None) →
     reported (process_file fs save_ok filename)
     = Print_section (MsgProcessing filename) :: l ++ [Print_error MsgFailed])
  ∧ (is_gdp_data filename df = true → nrows df = 0 →
     last (reported (process_file fs save_ok filename)) = Some (Print_error MsgFailed)).
Proof.
  intros Hfs Hn. apply date_diff_None in Hn.
  split; [done|]. split_and!.
  - apply (process_file_skipped fs save_ok filename df); [done|by rewrite Hn].
  - apply (process_file_skipped fs save_ok filename df); [done|by rewrite Hn].
  - intros Hgdp. unfold process_file, convert_file, convert_gdp_file.
    rewrite Hfs, Hn, Hgdp. reflexivity.
  - intros l df' Hrun. unfold process_file, convert_file.
    rewrite Hfs, Hn, Hrun. cbn. by rewrite ?app_nil_r.
  - intros l Hrun. unfold process_file, convert_file.
    rewrite Hfs, Hn, Hrun. cbn. done.
  - intros Hgdp H0. unfold process_file, convert_file, convert_gdp_file.
    rewrite Hfs, Hgdp. cbn [bind emit].
    destruct df as [ds cs]. unfold nrows in H0. cbn [dates] in H0.
    apply length_zero_iff_nil in H0. subst ds. reflexivity.
Qed.

(** A single observation is reported as already monthly; a GDP file
    without rows is reported as failed. *)
Lemma short_series_not_converted_witness :
  (returned (process_file (one_file "s.csv" single_row) true "s.csv") = false
   ∧ written (process_file (one_file "s.csv" single_row) true "s.csv") = None
   ∧ reported (process_file (one_file "s.csv" single_row) true "s.csv")
     = [Print_section (MsgProcessing "s.csv"); Print_success (MsgAlreadyMonthly None)])
  ∧ (returned (process_file (one_file "GDP.csv" empty_gdp) true "GDP.csv") = false
     ∧ written (process_file (one_file "GDP.csv" empty_gdp) true "GDP.csv") = None
     ∧ last (reported (process_file (one_file "GDP.csv" empty_gdp) true "GDP.csv"))
       = Some (Print_error MsgFailed)).
Proof.
  split.
  - destruct (short_series_not_converted (one_file "s.csv" single_row) true "s.csv"
                single_row eq_refl ltac:(vm_compute; lia)) as (_ & Hr & Hw & Hrep & _).
    split_and!; [exact Hr|exact Hw|]. apply Hrep. reflexivity.
  - destruct (short_series_not_converted (one_file "GDP.csv" empty_gdp) true "GDP.csv"
                empty_gdp eq_refl ltac:(vm_compute; lia))
      as (_ & Hr & Hw & _ & _ & _ & Hfail).
    split_and!; [exact Hr|exact Hw|]. apply Hfail; reflexivity.
Defined.

Lemma classify_daily (g : Q) : classify (Some g) = Some Daily_mean ↔ (g < 10)%Q.
Proof.
  unfold classify.
  destruct (Qltb g 10) eqn:E1; [apply Qltb_lt in E1|apply Qltb_ge in E1].
  { done. }
  split; [|lra]. destruct (Qltb 50 g && Qltb g 120); [done|].
  by destruct (Qltb 300 g).
Qed.

Lemma classify_annual (g : Q) : classify (Some g) = Some Annual_repeat ↔ (300 < g)%Q.
Proof.
  unfold classify.
  destruct (Qltb g 10) eqn:E1; [apply Qltb_lt in E1|apply Qltb_ge in E1].
  { split; [done|lra]. }
  destruct (Qltb 50 g) eqn:E2; [apply Qltb_lt in E2|apply Qltb_ge in E2];
  destruct (Qltb g 120) eqn:E3; [apply Qltb_lt in E3|apply Qltb_ge in E3| |];
    simpl; try (split; [done|lra]).
  - destruct (Qltb 300 g) eqn:E4; [apply Qltb_lt in E4|apply Qltb_ge in E4];
      split; try done; lra.
  - apply Qltb_lt in E3.
    destruct (Qltb 300 g) eqn:E4; [apply Qltb_lt in E4|apply Qltb_ge in E4];
      split; try done; lra.
  - apply Qltb_ge in E3.
    destruct (Qltb 300 g) eqn:E4; [apply Qltb_lt in E4|apply Qltb_ge in E4];
      split; try done; lra.
Qed.

(** X5: a series is taken as daily exactly when its median gap is below
    10 days and as annual exactly when it is above 300 days; a daily
    series is written as monthly means, an annual one as its rows
    repeated over the months of their years. *)
Theorem daily_below_ten_annual_above_three_hundred fs filename df g l df' :
  fs filename = Csv df →
  date_diff df = Some g →
  convert_gdp_file filename df = (l, Some df') →
  (∀ g', classify (Some g') = Some Daily_mean ↔ (g' < 10)%Q)
  ∧ (∀ g', classify (Some g') = Some Annual_repeat ↔ (300 < g')%Q)
  ∧ ((g < 10)%Q →
     returned (process_file fs true filename) = true
     ∧ written (process_file fs true filename) = Some (_aggregate_daily_to_monthly df'))
  ∧ ((300 < g)%Q →
     returned (process_file fs true filename) = true
     ∧ written (process_file fs true filename) = Some (_repeat_annual_to_monthly df')).
Proof.
  intros Hfs Hg Hgdp. split; [apply classify_daily|]. split; [apply classify_annual|].
  split; intros Hlt.
  - apply (process_file_converted fs filename df l Daily_mean df'); [done..|].
    rewrite Hg. by apply classify_daily.
  - apply (process_file_converted fs filename df l Annual_repeat df'); [done..|].
    rewrite Hg. by apply classify_annual.
Qed.

Lemma daily_below_ten_annual_above_three_hundred_witness :
  written (process_file (one_file "s.csv" annual_text) true "s.csv")
  = Some (_repeat_annual_to_monthly annual_text).
Proof.
  refine (proj2 (proj2 (proj2 (proj2
    (daily_below_ten_annual_above_three_hundred (one_file "s.csv" annual_text)
       "s.csv" annual_text 365%Q [] annual_text _ _ _))) _));
    vm_compute; reflexivity.
Defined.

(** X6: [process_file] returns [True] exactly when the file could be read,
    the real-value conversion of a GDP file did not fail, the median gap
    selects a strategy, and the result could be saved; what is written is
    then the strategy applied to the (converted) frame, and the last
    message gives the row counts.  Whenever it returns [False] nothing
    counts as written. *)
Theorem process_file_success fs save_ok filename :
  (returned (process_file fs save_ok filename) = true ↔
   save_ok = true ∧
   ∃ df g m l df',
     fs filename = Csv df ∧
     date_diff df = Some g ∧
     classify (Some g) = Some m ∧
     convert_gdp_file filename df = (l, Some df') ∧
     written (process_file fs save_ok filename) = Some (resample_with m df') ∧
     reported (process_file fs save_ok filename)
     = Print_section (MsgProcessing filename) :: l
         ++ [Print_success (detected m g);
             Print_success (MsgConverted (nrows df) (nrows (resample_with m df')))])
  ∧ (returned (process_file fs save_ok filename) = false →
     written (process_file fs save_ok filename) = None).
Proof.
  unfold process_file, convert_file.
  destruct (fs filename) as [| |df] eqn:Hfs.
  { split; [|done]. split; [done|]. by intros (_ & ? & ? & ? & ? & ? & ? & _). }
  { split; [|done]. split; [done|]. by intros (_ & ? & ? & ? & ? & ? & ? & _). }
  cbn [bind emit].
  destruct (convert_gdp_file filename df) as [l [df'|]] eqn:Hgdp.
  - destruct (date_diff df) as [g|] eqn:Hg.
    + destruct (classify (Some g)) as [m|] eqn:Hm.
      * cbn [bind emit ret app fst snd]. destruct save_ok.
        -- cbn [returned written reported]. split; [|done]. split; [|done].
           intros _. split; [done|]. exists df, g, m, l, df'.
           split_and!; try done. rewrite <- !app_assoc. done.
        -- cbn [returned written reported]. split; [|done].
           split; [done|]. by intros [? _].
      * cbn [bind emit ret app fst snd returned written reported].
        split; [|done]. split; [done|].
        intros (_ & ? & ? & ? & ? & ? & ? & ? & ? & _). simplify_eq.
    + cbn [classify bind emit ret app fst snd returned written reported].
      split; [|done]. split; [done|].
      intros (_ & ? & ? & ? & ? & ? & ? & ? & _). simplify_eq.
  - cbn [bind emit ret app fst snd returned written reported].
    split; [|done]. split; [done|].
    intros (_ & ? & ? & ? & ? & ? & ? & ? & ? & ? & _). congruence.
Qed.

Lemma quarterly_gdp_numeric :
  numeric_col quarterly_gdp "v" ∧ numeric_col quarterly_gdp "g".
Proof. split; eexists; (split; [reflexivity|]); by vm_compute. Defined.

(** ** When the reconstruction returns and when it fails *)

Lemma Forall_set_col (P : string * column → Prop) cs n c :
  Forall P cs → P (n, c) → Forall P (set_col cs n c).
Proof.
  intros Hcs Hc. induction Hcs as [|[m c0] cs Hm Hcs IH]; simpl.
  - by constructor.
  - case_decide as E.
    + subst. by constructor.
    + by constructor.
Qed.

Lemma wf_prepare v df : wf_frame df → wf_frame (prepare v df).
Proof.
  intros Hwf. unfold wf_frame. rewrite nrows_prepare.
  unfold prepare, sort_values, take_frame. cbn [cols dates].
  apply Forall_fmap, Forall_forall. intros [n c] Hin. simpl.
  assert (Hlen : col_length c = nrows df).
  { revert Hin. apply (proj1 (Forall_forall (λ nc, col_length nc.2 = nrows df) _)).
    apply Forall_set_col; [apply Forall_set_col; [done|]|];
      simpl; by rewrite ?length_fmap, ?length_replicate. }
  rewrite col_length_take_col; [apply argsort_length|].
  rewrite Hlen. apply argsort_lt.
Qed.

Lemma wf_finish v adf real :
  wf_frame adf → length real = nrows adf → wf_frame (finish v adf real).
Proof.
  intros Hwf Hlen. unfold wf_frame, finish. cbn [cols]. unfold drop_cols.
  apply Forall_forall. intros nc [_ Hin]%list_elem_of_filter. revert nc Hin.
  apply Forall_forall. apply Forall_set_col; [apply Forall_set_col; [done|]|]; done.
Qed.

(** X7: on a frame with at least one row whose level and growth columns
    are numeric the reconstruction always returns: a frame with the
    input's dates in ascending order, as many rows as the input, every
    column covering every row when that holds of the input, and the level
    column holding one value per row. *)
Theorem reconstruction_returns v g df base_year :
  numeric_col df v → numeric_col df g →
  dates df ≠ [] → v ≠ "year"%string →
  ∃ l out xs,
    _convert_gdp_to_real v g df base_year = (l, Some out) ∧
    dates out = sort_dates (dates df) ∧
    Sorted date_le (dates out) ∧
    nrows out = nrows df ∧
    get_col (cols out) v = Some (NumCol xs) ∧
    length xs = nrows df ∧
    (wf_frame df → wf_frame out).
Proof.
  intros Hv Hg Hne Hyear.
  assert (Hann : annual_of (prepare v df) ≠ []).
  { pose proof (nrows_prepare v df) as Hn.
    assert (0 < nrows (prepare v df)).
    { rewrite Hn. unfold nrows. destruct (dates df); [done|simpl; lia]. }
    unfold annual_of. case_decide; [|done].
    destruct (nrows (prepare v df)); [lia|done]. }
  destruct (convert_gdp_returns v g df base_year Hv Hg Hann)
    as (lsel & by' & idx & L & st & real & _ & _ & _ & _ & _ & Hlen & _ & Hrun).
  eexists _, _, (fill_remaining real). split; [exact Hrun|].
  split_and!.
  - done.
  - apply sort_dates_Sorted.
  - unfold nrows. cbn [finish dates]. rewrite dates_prepare. apply sort_dates_length.
  - by apply finish_value_col.
  - by rewrite fill_remaining_length.
  - intros Hwf. apply wf_finish; [by apply wf_prepare|].
    by rewrite fill_remaining_length, nrows_prepare.
Qed.

Lemma reconstruction_returns_witness :
  ∃ l out, _convert_gdp_to_real "v" "g" quarterly_gdp 2015 = (l, Some out)
           ∧ nrows out = 6.
Proof.
  destruct (reconstruction_returns "v" "g" quarterly_gdp 2015
              (proj1 quarterly_gdp_numeric) (proj2 quarterly_gdp_numeric))
    as (l & out & xs & Hrun & _ & _ & Hn & _).
  - by vm_compute.
  - by vm_compute.
  - by exists l, out.
Defined.

(** X8: on a frame without rows the reconstruction fails at the choice
    of the anchor year, after two warnings (no year-end record, base year
    missing); [process_file] reports the failure of such a GDP file and
    returns [False]. *)
Theorem empty_frame_fails v g df base_year :
  dates df = [] →
  _convert_gdp_to_real v g df base_year
  = ([Print_section (MsgComputeReal base_year);
      Print_warning MsgNoAnnualRows;
      Print_warning (MsgBaseYearMissing base_year)], None)
  ∧ ∀ fs save_ok filename,
      fs filename = Csv df → is_gdp_data filename df = true →
      returned (process_file fs save_ok filename) = false
      ∧ written (process_file fs save_ok filename) = None
      ∧ last (reported (process_file fs save_ok filename)) = Some (Print_error MsgFailed).
Proof.
  intros Hd.
  assert (Hrun : ∀ v g by0, _convert_gdp_to_real v g df by0
            = ([Print_section (MsgComputeReal by0);
                Print_warning MsgNoAnnualRows;
                Print_warning (MsgBaseYearMissing by0)], None)).
  { intros v0 g0 by0. destruct df as [ds cs]. simpl in Hd. subst ds. reflexivity. }
  split; [apply Hrun|].
  intros fs save_ok filename Hfs Hgdp.
  unfold process_file, convert_file, convert_gdp_file.
  rewrite Hfs, Hgdp. cbn [bind emit]. rewrite Hrun. cbn. done.
Qed.

Lemma empty_frame_fails_witness :
  returned (process_file (one_file "GDP.csv" empty_gdp) true "GDP.csv") = false.
Proof.
  exact (proj1 (proj2 (empty_frame_fails GDP_VALUE GDP_GROWTH empty_gdp 2015 eq_refl)
                  (one_file "GDP.csv" empty_gdp) true "GDP.csv" eq_refl eq_refl)).
Defined.

Lemma loc_prepare_absent v g df i :
  get_col (cols df) g = None → g ≠ "year"%string → g ≠ real_gdp_col v →
  loc (prepare v df) i g = None.
Proof.
  intros Hg Hy Hr. unfold loc, prepare, sort_values, take_frame. cbn [cols].
  rewrite get_col_fmap, !get_col_set_col.
  rewrite !decide_False by done. by rewrite Hg.
Qed.

Lemma propagate_absent_growth g adf annual base_year base_idx L :
  (∀ i, loc adf i g = None) →
  base_year ∈ years_of adf annual →
  2 ≤ length (years_of adf annual) →
  propagate g adf annual base_year base_idx L = None.
Proof.
  intros Hloc Hin Hlen. unfold propagate.
  destruct (index_of_exists (years_of adf annual) base_year Hin) as [b Hb].
  rewrite Hb. cbn [mbind option_bind].
  pose proof (index_of_Some _ _ _ Hb) as Hyb.
  pose proof (lookup_lt_Some _ _ _ Hyb) as Hblt.
  assert (Hrows : ∀ i y, years_of adf annual !! i = Some y →
            ∃ k l, year_rows adf annual y = k :: l).
  { intros i y Hy. destruct (first_row_exists adf annual y) as [k Hk].
    { by eapply list_elem_of_lookup_2. }
    apply first_row_year_rows in Hk as [l Hl]. eauto. }
  destruct (decide (b + 1 < length (years_of adf annual))) as [Hfw|Hfw].
  - destruct (lookup_lt_is_Some_2 (years_of adf annual) (b + 1) Hfw) as [y Hy].
    destruct (Hrows _ _ Hy) as (k & l & Hk).
    replace (length (years_of adf annual) - (b + 1))
      with (S (length (years_of adf annual) - (b + 2))) by lia.
    assert (Hstep : ∀ st, forward_step g adf annual (years_of adf annual) st (b + 1)
                          = None).
    { intros st. unfold forward_step.
      rewrite Hy. cbn [mbind option_bind]. rewrite Hk, Hloc. done. }
    cbn [seq for_each]. by rewrite Hstep.
  - replace (length (years_of adf annual) - (b + 1)) with 0 by lia.
    cbn [seq for_each mbind option_bind].
    destruct b as [|b]; [lia|].
    rewrite seq_S, reverse_app. cbn [reverse rev_append app for_each Nat.add].
    destruct (lookup_lt_is_Some_2 (years_of adf annual) b) as [y Hy]; [lia|].
    destruct (Hrows _ _ Hy) as (k & l & Hk).
    destruct (Hrows _ _ Hyb) as (k' & l' & Hk').
    assert (Hstep : ∀ st, backward_step g adf annual (years_of adf annual) st b = None).
    { intros st. unfold backward_step. rewrite Hy. cbn [mbind option_bind].
      replace (b + 1) with (S b) by lia. rewrite Hyb. cbn [mbind option_bind].
      rewrite Hk, Hk', Hloc. done. }
    by rewrite Hstep.
Qed.

(** X9: a frame whose level column is numeric but which has no growth
    column, with year-end records of at least two years, makes the
    reconstruction fail (the growth rate of a neighbouring year cannot be
    read); [process_file] checks a GDP file for its level column only, so
    such a file is reported as failed and [False] is returned. *)
Theorem missing_growth_column_fails v g df base_year :
  numeric_col df v →
  get_col (cols df) g = None → g ≠ "year"%string → g ≠ real_gdp_col v →
  2 ≤ length (years_of (prepare v df) (annual_of (prepare v df))) →
  (∃ l, _convert_gdp_to_real v g df base_year = (l, None))
  ∧ (v = GDP_VALUE → g = GDP_GROWTH → base_year = BASE_YEAR →
     ∀ fs save_ok filename,
       fs filename = Csv df → contains "GDP" filename = true →
       returned (process_file fs save_ok filename) = false
       ∧ written (process_file fs save_ok filename) = None
       ∧ last (reported (process_file fs save_ok filename)) = Some (Print_error MsgFailed)).
Proof.
  intros Hv Hg Hy Hr Hlen.
  assert (Hfail : ∃ l, _convert_gdp_to_real v g df base_year = (l, None)).
  { pose proof (numeric_col_prepare v df v Hv) as Hv'.
    assert (Hann : annual_of (prepare v df) ≠ []).
    { intros E. unfold years_of in Hlen. rewrite E in Hlen. simpl in Hlen. lia. }
    destruct (select_base_spec (prepare v df) (annual_of (prepare v df)) base_year Hann)
      as (lsel & by' & idx & Hsel & Hrow & _).
    destruct (numeric_col_loc _ v idx Hv') as [L HL].
    { by eapply (first_row_lt _ _ (annual_of_lt _)). }
    assert (Ha : anchor v (prepare v df) (annual_of (prepare v df)) by' = Some (idx, L)).
    { unfold anchor. fold (first_row (prepare v df) (annual_of (prepare v df)) by').
      rewrite Hrow. cbn [mbind option_bind]. rewrite HL. done. }
    assert (Hp : propagate g (prepare v df) (annual_of (prepare v df)) by' idx L = None).
    { apply propagate_absent_growth; [|by eapply first_row_in_years|done].
      intros i. by apply loc_prepare_absent. }
    unfold _convert_gdp_to_real. rewrite annual_rows_run. cbn [bind emit].
    rewrite Hsel. cbn [bind emit lift]. rewrite Ha. cbn [bind emit lift fst snd].
    rewrite Hp. eexists. reflexivity. }
  split; [done|].
  intros -> -> -> fs save_ok filename Hfs Hname.
  destruct Hfail as [l Hl].
  assert (Hgdp : is_gdp_data filename df = true).
  { unfold is_gdp_data. rewrite Hname. simpl. apply bool_decide_eq_true.
    destruct Hv as (c & Hc & _). by eapply get_col_Some_elem. }
  unfold process_file, convert_file, convert_gdp_file.
  rewrite Hfs, Hgdp. cbn [bind emit]. rewrite Hl. cbn [bind emit].
  split_and!; [done..|]. cbn [reported]. apply last_snoc.
Qed.

Lemma missing_growth_column_fails_witness :
  returned (process_file (one_file "GDP_标准日期.csv" gdp_without_growth) true
              "GDP_标准日期.csv") = false.
Proof.
  refine (proj1 (proj2 (missing_growth_column_fails GDP_VALUE GDP_GROWTH
            gdp_without_growth BASE_YEAR _ _ _ _ _) eq_refl eq_refl eq_refl
            (one_file "GDP_标准日期.csv" gdp_without_growth) true
            "GDP_标准日期.csv" eq_refl _)).
  - eexists; (split; [reflexivity|]); by vm_compute.
  - reflexivity.
  - by vm_compute.
  - by vm_compute.
  - vm_compute. lia.
  - vm_compute; reflexivity.
Defined.

(** ** A numeric GDP file is always converted (lines 94-114) *)

Lemma get_col_member cs nm :
  nm ∈ cs.*1 → ∃ c, get_col cs nm = Some c ∧ (nm, c) ∈ cs.
Proof.
  induction cs as [|[k c0] cs IH]; csimpl; [by intros ?%elem_of_nil|].
  intros Hin. case_decide as E.
  - subst. exists c0. split; [done|left].
  - apply elem_of_cons in Hin as [->|Hin]; [done|].
    destruct (IH Hin) as (c & Hc & Hmem). exists c. split; [done|by right].
Qed.

Lemma all_numeric_col df nm : all_numeric df → nm ∈ columns df → numeric_col df nm.
Proof.
  intros Hall Hin. destruct (get_col_member _ _ Hin) as (c & Hc & Hmem).
  exists c. split; [done|].
  by apply (proj1 (Forall_forall _ _) Hall (nm, c)).
Qed.

Lemma all_numeric_prepare v df : all_numeric df → all_numeric (prepare v df).
Proof.
  intros Hall. unfold all_numeric. rewrite nrows_prepare.
  unfold prepare, sort_values, take_frame. cbn [cols dates].
  apply Forall_fmap, Forall_forall. intros [nm c] Hin. simpl.
  assert (Hc : is_numeric c = true ∧ col_length c = nrows df).
  { revert Hin.
    apply (proj1 (Forall_forall
                    (λ nc, is_numeric nc.2 = true ∧ col_length nc.2 = nrows df) _)).
    apply Forall_set_col; [apply Forall_set_col; [done|]|];
      simpl; by rewrite ?length_fmap, ?length_replicate. }
  destruct Hc as [Hnum Hlen]. rewrite is_numeric_take_col. split; [done|].
  rewrite col_length_take_col; [apply argsort_length|].
  rewrite Hlen. apply argsort_lt.
Qed.

Lemma all_numeric_finish v adf real :
  all_numeric adf → length real = nrows adf → all_numeric (finish v adf real).
Proof.
  intros Hall Hlen. unfold all_numeric, finish. cbn [cols]. unfold drop_cols.
  apply Forall_forall. intros nc [_ Hin]%list_elem_of_filter. revert nc Hin.
  apply Forall_forall. apply Forall_set_col; [apply Forall_set_col; [done|]|]; done.
Qed.

(** One conversion keeps a numeric frame numeric, with the same dates in
    ascending order. *)
Lemma convert_numeric v g df base_year :
  all_numeric df → v ∈ columns df → g ∈ columns df → dates df ≠ [] →
  ∃ l out,
    _convert_gdp_to_real v g df base_year = (l, Some out) ∧
    all_numeric out ∧ dates out = sort_dates (dates df).
Proof.
  intros Hall Hv Hg Hne.
  assert (Hann : annual_of (prepare v df) ≠ []).
  { pose proof (nrows_prepare v df) as Hn.
    assert (0 < nrows (prepare v df)).
    { rewrite Hn. unfold nrows. destruct (dates df); [done|simpl; lia]. }
    unfold annual_of. case_decide; [|done].
    destruct (nrows (prepare v df)); [lia|done]. }
  destruct (convert_gdp_returns v g df base_year (all_numeric_col df v Hall Hv)
              (all_numeric_col df g Hall Hg) Hann)
    as (lsel & by' & idx & L & st & real & _ & _ & _ & _ & _ & Hlen & _ & Hrun).
  eexists _, _. split; [exact Hrun|]. split; [|done].
  apply all_numeric_finish; [by apply all_numeric_prepare|].
  by rewrite fill_remaining_length, nrows_prepare.
Qed.

Lemma for_each_M_invariant {S X} (body : S → X → M S) (P : S → Prop) xs s :
  (∀ s x, P s → ∃ l s', body s x = (l, Some s') ∧ P s') →
  P s → ∃ l s', for_each_M body xs s = (l, Some s') ∧ P s'.
Proof.
  intros Hstep. revert s. induction xs as [|x xs IH]; intros s Hs; simpl.
  - by exists [], s.
  - destruct (Hstep s x Hs) as (l1 & s1 & Hb & Hs1).
    destruct (IH s1 Hs1) as (l2 & s2 & Hrest & Hs2).
    rewrite Hb. cbn [bind]. rewrite Hrest. by exists (l1 ++ l2), s2.
Qed.

Lemma sort_dates_nonempty ds : ds ≠ [] → sort_dates ds ≠ [].
Proof.
  intros Hne E. apply (f_equal length) in E. rewrite sort_dates_length in E.
  by destruct ds.
Qed.

(** X10: a GDP file whose columns are all numeric, with the level and the
    growth of the total, never fails in the real-value conversion, of the
    total and of each sector that has both of its columns; when its
    median gap selects a strategy, [process_file] returns [True] and
    writes that strategy applied to the converted frame, whose columns are
    numeric and whose dates are those of the file in ascending order. *)
Theorem numeric_gdp_file_converted fs filename df g m :
  fs filename = Csv df →
  contains "GDP" filename = true →
  all_numeric df →
  GDP_VALUE ∈ columns df → GDP_GROWTH ∈ columns df →
  date_diff df = Some g → classify (Some g) = Some m →
  ∃ l df',
    convert_gdp_file filename df = (l, Some df') ∧
    all_numeric df' ∧
    dates df' ≡ₚ dates df ∧ Sorted date_le (dates df') ∧
    returned (process_file fs true filename) = true ∧
    written (process_file fs true filename) = Some (resample_with m df').
Proof.
  intros Hfs Hname Hall Hv Hg Hgap Hm.
  assert (Hne : dates df ≠ []).
  { intros E. assert (Hn : date_diff df = None); [|congruence].
    apply date_diff_None. unfold nrows. rewrite E. simpl. lia. }
  destruct (convert_numeric GDP_VALUE GDP_GROWTH df BASE_YEAR Hall Hv Hg Hne)
    as (l1 & df1 & Hrun1 & Hall1 & Hd1).
  destruct (for_each_M_invariant convert_sector
              (λ d, all_numeric d ∧ dates d ≡ₚ dates df ∧ Sorted date_le (dates d))
              SECTORS df1) as (l2 & df2 & Hrun2 & Hall2 & Hperm2 & Hsorted2).
  { intros d sector (Hd & Hp & Hs). unfold convert_sector.
    case_decide as Hcols; [|by exists [], d].
    destruct Hcols as [Hsv Hsg].
    destruct (convert_numeric _ _ d BASE_YEAR Hd Hsv Hsg) as (l & out & Hrun & Hout & Hdo).
    { intros E. rewrite E in Hp. apply Permutation_nil_l in Hp. done. }
    exists l, out. split_and!; [done|done| |].
    - by rewrite Hdo, sort_dates_Permutation.
    - rewrite Hdo. apply sort_dates_Sorted. }
  { split_and!; [done| |].
    - by rewrite Hd1, sort_dates_Permutation.
    - rewrite Hd1. apply sort_dates_Sorted. }
  assert (Hconv : convert_gdp_file filename df
                  = (Print_success MsgGdpDetected :: l1 ++ l2, Some df2)).
  { unfold convert_gdp_file, is_gdp_data. rewrite Hname.
    rewrite bool_decide_eq_true_2 by done. cbn [andb bind emit].
    rewrite Hrun1. cbn [bind]. rewrite Hrun2. done. }
  exists (Print_success MsgGdpDetected :: l1 ++ l2), df2.
  split_and!; [done..| |].
  - eapply (process_file_converted fs filename df); [done..|by rewrite Hgap].
  - eapply (process_file_converted fs filename df); [done..|by rewrite Hgap].
Qed.

Lemma numeric_gdp_file_converted_witness :
  returned (process_file (one_file "GDP_标准日期.csv" gdp_quarterly) true
              "GDP_标准日期.csv") = true.
Proof.
  destruct (numeric_gdp_file_converted (one_file "GDP_标准日期.csv" gdp_quarterly)
              "GDP_标准日期.csv" gdp_quarterly 92%Q Linear_interp)
    as (l & df' & _ & _ & _ & _ & Hret & _).
  - reflexivity.
  - reflexivity.
  - repeat constructor.
  - vm_compute. set_solver.
  - vm_compute. set_solver.
  - vm_compute; reflexivity.
  - vm_compute; reflexivity.
  - exact Hret.
Defined.

(** ** Every year-end year is resolved; a missing anchor level *)

(** X11: when the base year has a year-end record, the chain step gives
    a real value to every year that has a year-end record and to no
    other year, and stores it in the first year-end record of that year. *)
Theorem chain_resolves_every_year v g df base_year base_idx :
  numeric_col df v → numeric_col df g →
  first_row (prepare v df) (annual_of (prepare v df)) base_year = Some base_idx →
  ∃ st,
    chain_step v g (prepare v df) (annual_of (prepare v df)) base_year = Some st ∧
    (∀ y, is_Some (annual_real_gdp st !! y) ↔
          ∃ i, i ∈ annual_of (prepare v df) ∧ year_at (prepare v df) i = y) ∧
    (∀ y r, annual_real_gdp st !! y = Some r →
       ∃ idx, first_row (prepare v df) (annual_of (prepare v df)) y = Some idx ∧
              real_gdp st !! idx = Some r).
Proof.
  intros Hv Hg Hrow.
  destruct (chain_step_linked v g (prepare v df) (annual_of (prepare v df))
              base_year base_idx (annual_of_lt _) (numeric_col_prepare v df v Hv)
              (numeric_col_prepare v df g Hg) Hrow)
    as (L & st & b & _ & _ & Hb & _ & Hc & Hlen & Hbase & Hdom & Hcov & Hreal & _).
  exists st. split; [done|]. split; [|done].
  intros y. rewrite <- years_of_elem. split.
  - intros Hy. destruct (Hdom y Hy) as [->|(j & _ & Hj)].
    + apply index_of_Some in Hb. by eapply list_elem_of_lookup_2.
    + by eapply list_elem_of_lookup_2.
  - intros [j Hj]%list_elem_of_lookup.
    pose proof (lookup_lt_Some _ _ _ Hj) as Hjlt.
    destruct (decide (j = b)) as [->|Hne].
    + apply index_of_Some in Hb. rewrite Hb in Hj. simplify_eq. by eexists.
    + apply (Hcov j y); [|done].
      destruct (decide (b < j)); [left|right].
      * apply elem_of_seq. lia.
      * apply elem_of_reverse, elem_of_seq. lia.
Qed.

Lemma chain_resolves_every_year_witness :
  ∃ st,
    chain_step "v" "g" (prepare "v" gap_years) (annual_of (prepare "v" gap_years)) 2015
      = Some st ∧
    is_Some (annual_real_gdp st !! 2012%Z) ∧ is_Some (annual_real_gdp st !! 2018%Z).
Proof.
  destruct (chain_resolves_every_year "v" "g" gap_years 2015 1
              (proj1 gap_years_numeric) (proj2 gap_years_numeric) eq_refl)
    as (st & Hc & Hdom & _).
  exists st. split; [exact Hc|]. split; apply Hdom.
  - exists 0. split; [vm_compute; left|reflexivity].
  - exists 2. split; [vm_compute; right; right; left|reflexivity].
Defined.

Lemma notna_false_spec (x : float) : notna x = false ↔ Prim2SF x = S754_nan.
Proof.
  unfold notna, PrimFloat.is_nan. rewrite FloatAxioms.eqb_spec.
  destruct (Prim2SF x) as [[]|[]| |[] m e] eqn:E; simpl;
    unfold SFeqb, SFcompare; rewrite ?Z.compare_refl, ?Pos.compare_cont_refl; simpl;
    split; done.
Qed.

Lemma notna_mul_l (a b : float) : notna a = false → notna (a * b)%float = false.
Proof.
  rewrite !notna_false_spec, FloatAxioms.mul_spec. by intros ->.
Qed.

Lemma notna_div_l (a b : float) : notna a = false → notna (a / b)%float = false.
Proof.
  rewrite !notna_false_spec, FloatAxioms.div_spec. by intros ->.
Qed.

Lemma all_missing_insert k st y idx (x : float) :
  all_missing k st → notna x = false →
  all_missing k (ChainState (<[y := x]> (annual_real_gdp st)) (<[idx := x]> (real_gdp st))).
Proof.
  intros (Hd & Hl & Hr) Hx. split_and!; cbn [annual_real_gdp real_gdp].
  - intros y' r [[_ <-]|[_ Hy]]%lookup_insert_Some; [done|by eapply Hd].
  - by rewrite length_insert.
  - destruct (decide (idx < length (real_gdp st))) as [Hlt|Hge].
    + by apply Forall_insert.
    + rewrite list_insert_ge by lia. done.
Qed.

Lemma forward_step_missing g adf annual years k st i st' :
  forward_step g adf annual years st i = Some st' → all_missing k st → all_missing k st'.
Proof.
  unfold forward_step. intros Hstep Hall.
  destruct (years !! i) as [y|]; [|done]. cbn [mbind option_bind] in Hstep.
  destruct (year_rows adf annual y) as [|idx rest]; [by simplify_eq|].
  destruct (loc adf idx g) as [gr|]; [|done]. cbn [mbind option_bind] in Hstep.
  destruct (years !! (i - 1)) as [p|]; [|done]. cbn [mbind option_bind] in Hstep.
  destruct (annual_real_gdp st !! p) as [prev|] eqn:Hp; [|by simplify_eq].
  destruct (as_float gr) as [x|]; [|done]. cbn [mbind option_bind] in Hstep.
  simplify_eq. apply all_missing_insert; [done|].
  apply notna_mul_l. destruct Hall as [Hd _]. by eapply Hd.
Qed.

Lemma backward_step_missing g adf annual years k st i st' :
  backward_step g adf annual years st i = Some st' → all_missing k st → all_missing k st'.
Proof.
  unfold backward_step. intros Hstep Hall.
  destruct (years !! i) as [y|]; [|done]. cbn [mbind option_bind] in Hstep.
  destruct (years !! (i + 1)) as [nx|]; [|done]. cbn [mbind option_bind] in Hstep.
  destruct (year_rows adf annual y) as [|idx rest]; [by simplify_eq|].
  destruct (year_rows adf annual nx) as [|nidx nrest]; [by simplify_eq|].
  destruct (loc adf nidx g) as [gr|]; [|done]. cbn [mbind option_bind] in Hstep.
  destruct (annual_real_gdp st !! nx) as [next|] eqn:Hn; [|by simplify_eq].
  destruct (as_float gr) as [x|]; [|done]. cbn [mbind option_bind] in Hstep.
  simplify_eq. apply all_missing_insert; [done|].
  apply notna_div_l. destruct Hall as [Hd _]. by eapply Hd.
Qed.

Lemma propagate_missing g adf annual base_year base_idx L st :
  propagate g adf annual base_year base_idx L = Some st →
  notna L = false → all_missing (nrows adf) st.
Proof.
  unfold propagate. intros Hrun HL.
  destruct (index_of _ base_year) as [b|]; [|done]. cbn [mbind option_bind] in Hrun.
  destruct (for_each (forward_step _ _ _ _) _ _) as [st1|] eqn:Hfw; [|done].
  cbn [mbind option_bind] in Hrun.
  eapply for_each_invariant; [|exact Hrun|].
  { intros s x s'. apply backward_step_missing. }
  eapply for_each_invariant; [|exact Hfw|].
  { intros s x s'. apply forward_step_missing. }
  split_and!; cbn [annual_real_gdp real_gdp].
  - by intros y r [_ <-]%lookup_singleton_Some.
  - by rewrite length_insert, length_replicate.
  - destruct (decide (base_idx < nrows adf)) as [Hlt|Hge].
    + apply Forall_insert; [|done]. by apply Forall_replicate.
    + rewrite list_insert_ge by (rewrite length_replicate; lia).
      by apply Forall_replicate.
Qed.

Lemma fill_row_missing v g snap adf annual dict real idx real' :
  fill_row v g snap adf annual dict real idx = Some real' →
  (∀ y r, dict !! y = Some r → notna r = false) →
  Forall (λ x, notna x = false) real →
  length real' = length real ∧ Forall (λ x, notna x = false) real'.
Proof.
  unfold fill_row. intros Hrow Hd Hr.
  destruct (real !! idx) as [cur|] eqn:Hcur; [|done]. cbn [mbind option_bind] in Hrow.
  destruct (notna cur); [by simplify_eq|].
  destruct (loc snap idx g) as [gr|]; [|done]. cbn [mbind option_bind] in Hrow.
  assert (Hprev : ∀ p, head (filter (λ j, date_at (dates snap) j
                                          = minus_one_year (date_at (dates snap) idx))
                               (seq 0 (nrows snap))) ≫= (real !!.) = Some p →
                       notna p = false).
  { intros p Hp. destruct (head _) as [j|]; [|done]. simpl in Hp.
    eapply Forall_lookup_1 in Hr; [|exact Hp]. done. }
  match type of Hrow with
  | match ?o with Some _ => _ | None => ?u end = _ =>
      assert (Huse : u = Some real');
      [destruct o as [p|]; [rewrite (Hprev p eq_refl) in Hrow|]; exact Hrow|]
  end.
  clear Hrow Hprev. case_decide; [|by simplify_eq].
  match type of Huse with
  | ?o ≫= _ = _ => destruct o as [ratio|]; [|done]
  end.
  cbn [mbind option_bind] in Huse.
  destruct (dict !! year_at snap idx) as [r|] eqn:Hy; [|by simplify_eq].
  simplify_eq. split; [by rewrite length_insert|].
  apply Forall_insert; [done|]. apply notna_mul_l. by eapply Hd.
Qed.

Lemma fill_rows_missing v g adf annual st real :
  fill_rows v g adf annual st = Some real →
  all_missing (nrows adf) st →
  length real = nrows adf ∧ Forall (λ x, notna x = false) real.
Proof.
  unfold fill_rows. intros Hrun (Hd & Hl & Hr).
  eapply (for_each_invariant _
            (λ real, length real = nrows adf ∧ Forall (λ x, notna x = false) real));
    [|exact Hrun|done].
  intros s x s' Hrow [Hls Hs].
  destruct (fill_row_missing _ _ _ _ _ _ _ _ _ Hrow Hd Hs) as [Hl' Hs'].
  split; [congruence|done].
Qed.

Lemma interp_from_nothing xs :
  Forall (λ x, notna x = false) xs → interp_from false None xs = xs.
Proof.
  induction 1 as [|x xs Hx Hxs IH]; [done|]. simpl. rewrite Hx, IH.
  by destruct (next_valid xs) as [[]|].
Qed.

Lemma fill_remaining_nothing real :
  Forall (λ x, notna x = false) real → fill_remaining real = real.
Proof.
  intros Hall. unfold fill_remaining, interpolate_linear. case_decide; [|done].
  by apply interp_from_nothing.
Qed.

(** X12: when the nominal level of the anchor record is missing, nothing
    can be chained from it: every real value the reconstruction computes
    is missing, the level column of the returned frame is missing in
    every row, and the final message counts 0 values; no error is
    raised. *)
Theorem missing_anchor_level_resolves_nothing v g df base_year l out :
  v ≠ "year"%string →
  _convert_gdp_to_real v g df base_year = (l, Some out) →
  (∀ by' a,
     (select_base (prepare v df) (annual_of (prepare v df)) base_year).2 = Some by' →
     anchor v (prepare v df) (annual_of (prepare v df)) by' = Some a →
     notna a.2 = false) →
  ∃ xs,
    get_col (cols out) v = Some (NumCol xs) ∧
    length xs = nrows df ∧
    Forall (λ x, notna x = false) xs ∧
    last l = Some (Print_success (MsgRealDone 0 (nrows df))).
Proof.
  intros Hv Hrun Hanchor.
  pose proof Hrun as (by' & a & st & R & Hsel & Ha & Hp & Hf & ->)%convert_gdp_inv.
  pose proof (propagate_missing _ _ _ _ _ _ _ Hp (Hanchor by' a Hsel Ha)) as Hst.
  destruct (fill_rows_missing _ _ _ _ _ _ Hf Hst) as [Hlen HR].
  exists R. split_and!.
  - rewrite <- (fill_remaining_nothing R HR) at 2. by apply finish_value_col.
  - by rewrite Hlen, nrows_prepare.
  - done.
  - destruct (select_base (prepare v df) (annual_of (prepare v df)) base_year)
      as [lsel o] eqn:Es. simpl in Hsel. subst o.
    rewrite (convert_gdp_run v g df base_year lsel by' a st R Es Ha Hp Hf) in Hrun.
    injection Hrun as <-. rewrite nrows_prepare, (fill_remaining_nothing R HR).
    rewrite (filter_none _ R).
    + rewrite app_comm_cons, !app_assoc.
      change [?x; ?y] with ([x] ++ [y]). rewrite app_assoc. apply last_snoc.
    + intros x Hx. eapply Forall_forall in HR; [|exact Hx]. simpl in HR. congruence.
Qed.

Lemma missing_anchor_level_resolves_nothing_witness :
  ∃ xs,
    get_col (cols (default (Frame [] []) (_convert_gdp_to_real "v" "g" anchor_missing 2015).2))
            "v" = Some (NumCol xs) ∧
    Forall (λ x, notna x = false) xs.
Proof.
  destruct (missing_anchor_level_resolves_nothing "v" "g" anchor_missing 2015
              (_convert_gdp_to_real "v" "g" anchor_missing 2015).1
              (default (Frame [] []) (_convert_gdp_to_real "v" "g" anchor_missing 2015).2))
    as (xs & Hxs & _ & Hall & _).
  - by vm_compute.
  - vm_compute; reflexivity.
  - intros by' a Hsel Ha. vm_compute in Hsel. injection Hsel as <-.
    vm_compute in Ha. injection Ha as <-. reflexivity.
  - by exists xs.
Defined.

(** ** The record loop, rule by rule (lines 355-377) *)

(** Every record is visited once, in date order; the visit of record
    [idx] sees the final values of the earlier records and the value the
    chain step left at [idx]. *)
Lemma fill_rows_steps v g adf annual st R :
  numeric_col adf g → numeric_col adf v →
  Forall (λ i, i < nrows adf) annual →
  length (real_gdp st) = nrows adf →
  fill_rows v g adf annual st = Some R →
  length R = nrows adf ∧
  ∀ idx, idx < nrows adf →
    ∃ Rb R',
      length Rb = nrows adf ∧
      (∀ j, j < idx → Rb !! j = R !! j) ∧
      Rb !! idx = real_gdp st !! idx ∧
      fill_row v g (with_real v adf (real_gdp st)) adf annual (annual_real_gdp st) Rb idx
        = Some R' ∧
      R' !! idx = R !! idx.
Proof.
  intros Hg Hv Hann Hlen Hrun. unfold fill_rows in Hrun.
  destruct (for_each_prefix
    (fill_row v g (with_real v adf (real_gdp st)) adf annual (annual_real_gdp st))
    (λ done real,
       length real = nrows adf ∧
       (∀ i, length done ≤ i → real !! i = real_gdp st !! i) ∧
       ∀ idx, idx < length done →
         ∃ Rb R',
           length Rb = nrows adf ∧
           (∀ j, j < idx → Rb !! j = real !! j) ∧
           Rb !! idx = real_gdp st !! idx ∧
           fill_row v g (with_real v adf (real_gdp st)) adf annual
             (annual_real_gdp st) Rb idx = Some R' ∧
           R' !! idx = real !! idx)
    (seq 0 (nrows adf)) (real_gdp st)) as (R1 & Hrun1 & Hl1 & _ & Hall).
  { split_and!; [done|done|]. simpl. intros; lia. }
  { intros done x rest real E (Hl & Hrest & Hdone).
    destruct (seq_prefix_split 0 (nrows adf) done x rest E) as (Hx & _ & Hxn & _).
    simpl in Hx. subst x.
    destruct (fill_row_shape v g (with_real v adf (real_gdp st)) adf annual
                (annual_real_gdp st) real (length done)) as (real' & Hf & Hs);
      [by apply numeric_col_with_real..|done|done|done|lia|lia|].
    exists real'. split; [done|].
    assert (Hother : ∀ i, i ≠ length done → real' !! i = real !! i).
    { intros i Hi. destruct Hs as [->|(c & y & _ & _ & ->)]; [done|].
      by rewrite list_lookup_insert_ne. }
    assert (Hl' : length real' = nrows adf).
    { destruct Hs as [->|(c & y & _ & _ & ->)]; [done|]. by rewrite length_insert. }
    rewrite length_app. simpl. split_and!.
    - done.
    - intros i Hi. rewrite Hother by lia. apply Hrest. lia.
    - intros idx Hidx. destruct (decide (idx = length done)) as [->|Hne].
      + exists real, real'. split_and!; [done| |by apply Hrest|done|done].
        intros j Hj. symmetry. apply Hother. lia.
      + destruct (Hdone idx) as (Rb & R' & ? & Hb & ? & ? & Hr); [lia|].
        exists Rb, R'. split_and!; [done| |done|done|].
        * intros j Hj. rewrite Hother by lia. by apply Hb.
        * rewrite Hother by lia. done. }
  rewrite Hrun in Hrun1. simplify_eq. split; [done|].
  intros idx Hidx. apply Hall. by rewrite length_seq.
Qed.

Lemma minus_one_year_before d : date_ltb (minus_one_year d) d = true.
Proof. unfold minus_one_year. date_order. Qed.

Lemma prior_row_spec adf idx j :
  prior_row adf idx = Some j →
  j < nrows adf ∧
  date_at (dates adf) j = minus_one_year (date_at (dates adf) idx).
Proof.
  unfold prior_row. intros Hh. apply head_Some_elem_of in Hh.
  apply list_elem_of_filter in Hh as [Hd Hj]. apply elem_of_seq in Hj.
  split; [lia|done].
Qed.

(** In a frame sorted by date the record a year earlier comes first. *)
Lemma prior_row_lt adf idx j :
  StronglySorted date_le (dates adf) → idx < nrows adf →
  prior_row adf idx = Some j → j < idx.
Proof.
  intros Hs Hidx [Hj Hd]%prior_row_spec.
  destruct (decide (j < idx)) as [|Hge]; [done|]. exfalso.
  destruct (lookup_lt_is_Some_2 (dates adf) idx Hidx) as [a Ha].
  destruct (lookup_lt_is_Some_2 (dates adf) j Hj) as [b Hb].
  unfold date_at in Hd. rewrite Ha, Hb in Hd. simpl in Hd. subst b.
  pose proof (minus_one_year_before a) as Hlt.
  destruct (decide (j = idx)) as [->|Hne].
  - assert (E : minus_one_year a = a) by congruence.
    rewrite E in Hlt. clear -Hlt. date_order.
  - assert (Hle : date_le a (minus_one_year a)).
    { eapply (StronglySorted_lookup_rel date_le (dates adf) idx j); [done..|lia]. }
    unfold date_le in Hle. congruence.
Qed.

Lemma loc_with_real v adf real i n :
  n ≠ real_gdp_col v → loc (with_real v adf real) i n = loc adf i n.
Proof.
  intros Hn. unfold loc, with_real. cbn [cols].
  rewrite get_col_set_col. by rewrite decide_False.
Qed.

Lemma chain_step_facts v g adf annual base_year st :
  Forall (λ i, i < nrows adf) annual →
  numeric_col adf v → numeric_col adf g →
  chain_step v g adf annual base_year = Some st →
  length (real_gdp st) = nrows adf ∧
  ∀ y, is_Some (annual_real_gdp st !! y) → y ∈ years_of adf annual.
Proof.
  intros Hann Hv Hg Hc.
  destruct (first_row adf annual base_year) as [base_idx|] eqn:Hrow.
  - destruct (chain_step_adjacent v g adf annual base_year base_idx Hann Hv Hg Hrow)
      as (L & st' & _ & _ & _ & Hc' & _ & _ & Hlen & Hdom & _).
    by simplify_eq.
  - unfold chain_step, anchor in Hc. fold (first_row adf annual base_year) in Hc.
    by rewrite Hrow in Hc.
Qed.

(** The visit of a record the chain step left unresolved, read on the
    sorted frame. *)
Lemma fill_row_unresolved v g adf annual dict R0 Rb idx c :
  g ≠ real_gdp_col v →
  Rb !! idx = Some c → notna c = false →
  fill_row v g (with_real v adf R0) adf annual dict Rb idx
  = growth_rate ← loc adf idx g;
    let use_annual_ratio :=
      if decide (is_Some (dict !! (year_at adf idx - 1)%Z)) then
        nominal_ratio ←
          match year_rows adf annual (year_at adf idx) with
          | k :: _ =>
              a ← nominal_of v adf idx;
              b ← nominal_of v adf k;
              Some (a / b)%float
          | [] => Some 1%float
          end;
        match dict !! year_at adf idx with
        | Some r => Some (<[idx := (r * nominal_ratio)%float]> Rb)
        | None => Some Rb
        end
      else Some Rb in
    match prior_row adf idx ≫= (Rb !!.) with
    | Some prev_real_gdp =>
        if notna prev_real_gdp then
          gr ← as_float growth_rate;
          Some (<[idx := (prev_real_gdp * growth_factor gr)%float]> Rb)
        else use_annual_ratio
    | None => use_annual_ratio
    end.
Proof.
  intros Hg Hc Hna. unfold fill_row. rewrite Hc. cbn [mbind option_bind].
  rewrite Hna. rewrite !loc_with_real by (done || apply not_eq_sym, real_gdp_col_not_value).
  reflexivity.
Qed.

Lemma prepare_sorted v df : StronglySorted date_le (dates (prepare v df)).
Proof.
  rewrite dates_prepare. apply Sorted_StronglySorted; [apply _|apply sort_dates_Sorted].
Qed.

(** What the record loop has to work with on the prepared frame. *)
Lemma record_loop_setup v g df base_year st R idx c :
  numeric_col df v → numeric_col df g → g ≠ real_gdp_col v →
  chain_step v g (prepare v df) (annual_of (prepare v df)) base_year = Some st →
  fill_rows v g (prepare v df) (annual_of (prepare v df)) st = Some R →
  real_gdp st !! idx = Some c → notna c = false →
  idx < nrows (prepare v df) ∧
  (∀ y, is_Some (annual_real_gdp st !! y) →
        y ∈ years_of (prepare v df) (annual_of (prepare v df))) ∧
  ∃ Rb R',
    (∀ j, j < idx → Rb !! j = R !! j) ∧
    Rb !! idx = Some c ∧
    fill_row v g (with_real v (prepare v df) (real_gdp st)) (prepare v df)
      (annual_of (prepare v df)) (annual_real_gdp st) Rb idx = Some R' ∧
    R' !! idx = R !! idx.
Proof.
  intros Hv Hg Hne Hc Hf Hcur Hna.
  pose proof (numeric_col_prepare v df v Hv) as Hv'.
  pose proof (numeric_col_prepare v df g Hg) as Hg'.
  destruct (chain_step_facts v g _ _ base_year st (annual_of_lt _) Hv' Hg' Hc)
    as [Hlen Hdom].
  assert (Hidx : idx < nrows (prepare v df)).
  { rewrite <- Hlen. by eapply lookup_lt_Some. }
  destruct (fill_rows_steps v g _ _ st R Hg' Hv' (annual_of_lt _) Hlen Hf) as [_ Hsteps].
  destruct (Hsteps idx Hidx) as (Rb & R' & _ & Hb & Hbi & Hrow & Hr).
  split_and!; [done|done|]. exists Rb, R'. split_and!; try done. congruence.
Qed.

(** X13: a record the chain step left unresolved whose counterpart a year
    earlier to the day is resolved when the loop reaches it takes that
    value times its own growth factor: R[t] = R[t - 1 year] * (1 + G[t]/100).
    The counterpart is an earlier record of the sorted frame. *)
Theorem record_loop_prior_year v g df base_year st R idx c j p :
  numeric_col df v → numeric_col df g → g ≠ real_gdp_col v →
  chain_step v g (prepare v df) (annual_of (prepare v df)) base_year = Some st →
  fill_rows v g (prepare v df) (annual_of (prepare v df)) st = Some R →
  real_gdp st !! idx = Some c → notna c = false →
  prior_row (prepare v df) idx = Some j →
  R !! j = Some p → notna p = true →
  j < idx ∧
  date_at (dates (prepare v df)) j = minus_one_year (date_at (dates (prepare v df)) idx) ∧
  ∃ gr, growth_of g (prepare v df) idx = Some gr ∧
        R !! idx = Some (p * (1 + gr / 100))%float.
Proof.
  intros Hv Hg Hne Hc Hf Hcur Hna Hprior Hp Hpna.
  destruct (record_loop_setup v g df base_year st R idx c Hv Hg Hne Hc Hf Hcur Hna)
    as (Hidx & _ & Rb & R' & Hb & Hbi & Hrow & Hr).
  pose proof (prior_row_lt _ idx j (prepare_sorted v df) Hidx Hprior) as Hlt.
  split; [done|]. split; [by apply prior_row_spec|].
  rewrite (fill_row_unresolved v g _ _ _ _ Rb idx c Hne Hbi Hna) in Hrow.
  destruct (numeric_col_loc _ g idx (numeric_col_prepare v df g Hg) Hidx) as [gr Hgr].
  rewrite Hgr in Hrow. cbn [mbind option_bind] in Hrow.
  rewrite Hprior in Hrow. cbn [mbind option_bind] in Hrow.
  rewrite (Hb j Hlt), Hp, Hpna in Hrow. cbn [as_float mbind option_bind] in Hrow.
  simplify_eq. exists gr. split.
  - unfold growth_of. by rewrite Hgr.
  - rewrite <- Hr. apply list_lookup_insert_eq. by eapply lookup_lt_Some.
Qed.

(** X14: a record the chain step left unresolved, without a resolved
    counterpart a year earlier, in a year that has a year-end record and
    follows a year that has one, takes the real value of its year scaled
    by the nominal ratio: R[t] = R[year] * (L[t] / L[year end]). *)
Theorem record_loop_annual_ratio v g df base_year st R idx c r :
  numeric_col df v → numeric_col df g → g ≠ real_gdp_col v →
  chain_step v g (prepare v df) (annual_of (prepare v df)) base_year = Some st →
  fill_rows v g (prepare v df) (annual_of (prepare v df)) st = Some R →
  real_gdp st !! idx = Some c → notna c = false →
  (∀ j p, prior_row (prepare v df) idx = Some j → R !! j = Some p → notna p = false) →
  is_Some (annual_real_gdp st !! (year_at (prepare v df) idx - 1)%Z) →
  annual_real_gdp st !! year_at (prepare v df) idx = Some r →
  ∃ k a b,
    first_row (prepare v df) (annual_of (prepare v df)) (year_at (prepare v df) idx)
      = Some k ∧
    nominal_of v (prepare v df) idx = Some a ∧
    nominal_of v (prepare v df) k = Some b ∧
    R !! idx = Some (r * (a / b))%float.
Proof.
  intros Hv Hg Hne Hc Hf Hcur Hna Hnone Hprev Hyear.
  destruct (record_loop_setup v g df base_year st R idx c Hv Hg Hne Hc Hf Hcur Hna)
    as (Hidx & Hdom & Rb & R' & Hb & Hbi & Hrow & Hr).
  rewrite (fill_row_unresolved v g _ _ _ _ Rb idx c Hne Hbi Hna) in Hrow.
  destruct (numeric_col_loc _ g idx (numeric_col_prepare v df g Hg) Hidx) as [gr Hgr].
  rewrite Hgr in Hrow. cbn [mbind option_bind] in Hrow.
  destruct (first_row_exists (prepare v df) (annual_of (prepare v df))
              (year_at (prepare v df) idx)) as [k Hk].
  { apply Hdom. by eexists. }
  pose proof Hk as [l Hl]%first_row_year_rows.
  rewrite decide_True, Hl, Hyear in Hrow by done.
  assert (Hratio : ∃ a b, nominal_of v (prepare v df) idx = Some a ∧
                          nominal_of v (prepare v df) k = Some b).
  { destruct (numeric_col_float _ v idx (numeric_col_prepare v df v Hv) Hidx) as [a Ha].
    destruct (numeric_col_float _ v k (numeric_col_prepare v df v Hv)) as [b Hb'].
    { by eapply (first_row_lt _ _ (annual_of_lt _)). }
    by exists a, b. }
  destruct Hratio as (a & b & Ha & Hb').
  rewrite Ha, Hb' in Hrow. cbn [mbind option_bind] in Hrow.
  assert (Hins : R' = <[idx := (r * (a / b))%float]> Rb).
  { destruct (prior_row (prepare v df) idx) as [j|] eqn:Hprior;
      cbn [mbind option_bind] in Hrow; [|by simplify_eq].
    pose proof (prior_row_lt _ idx j (prepare_sorted v df) Hidx Hprior) as Hlt.
    rewrite (Hb j Hlt) in Hrow.
    destruct (R !! j) as [p|] eqn:Hp; [|by simplify_eq].
    rewrite (Hnone j p eq_refl Hp) in Hrow. by simplify_eq. }
  exists k, a, b. split_and!; [done..|].
  rewrite <- Hr, Hins. apply list_lookup_insert_eq. by eapply lookup_lt_Some.
Qed.

(** X15: the record loop fabricates nothing: a record the chain step left
    unresolved, without a resolved counterpart a year earlier, stays
    unresolved in the loop when its year or the year before has no
    year-end record. *)
Theorem record_loop_leaves_unresolved v g df base_year st R idx c :
  numeric_col df v → numeric_col df g → g ≠ real_gdp_col v →
  chain_step v g (prepare v df) (annual_of (prepare v df)) base_year = Some st →
  fill_rows v g (prepare v df) (annual_of (prepare v df)) st = Some R →
  real_gdp st !! idx = Some c → notna c = false →
  (∀ j p, prior_row (prepare v df) idx = Some j → R !! j = Some p → notna p = false) →
  annual_real_gdp st !! (year_at (prepare v df) idx - 1)%Z = None
  ∨ annual_real_gdp st !! year_at (prepare v df) idx = None →
  R !! idx = Some c.
Proof.
  intros Hv Hg Hne Hc Hf Hcur Hna Hnone Hyears.
  destruct (record_loop_setup v g df base_year st R idx c Hv Hg Hne Hc Hf Hcur Hna)
    as (Hidx & Hdom & Rb & R' & Hb & Hbi & Hrow & Hr).
  rewrite (fill_row_unresolved v g _ _ _ _ Rb idx c Hne Hbi Hna) in Hrow.
  destruct (numeric_col_loc _ g idx (numeric_col_prepare v df g Hg) Hidx) as [gr Hgr].
  rewrite Hgr in Hrow. cbn [mbind option_bind] in Hrow.
  assert (Hsame : R' = Rb); [|by rewrite <- Hr, Hsame].
  match type of Hrow with
  | match _ with Some _ => _ | None => ?u end = _ => assert (Huse : u = Some R')
  end.
  { destruct (prior_row (prepare v df) idx) as [j|] eqn:Hprior;
      cbn [mbind option_bind] in Hrow; [|done].
    pose proof (prior_row_lt _ idx j (prepare_sorted v df) Hidx Hprior) as Hlt.
    rewrite (Hb j Hlt) in Hrow.
    destruct (R !! j) as [p|] eqn:Hp; [|done].
    by rewrite (Hnone j p eq_refl Hp) in Hrow. }
  clear Hrow. case_decide as Hd; [|by simplify_eq].
  destruct Hyears as [Hy|Hy]; [rewrite Hy in Hd; by destruct Hd|].
  rewrite Hy in Huse.
  match type of Huse with
  | ?o ≫= _ = _ => destruct o; cbn [mbind option_bind] in Huse; by simplify_eq
  end.
Qed.

(** On [quarterly_gdp] the record of March 2016 (growth 5) takes the value
    of March 2015, which the loop resolved to 200:
    R = 200 * (1 + 5/100). *)
Lemma record_loop_prior_year_witness :
  growth_of "g" (prepare "v" quarterly_gdp) 4 = Some 5%float ∧
  quarterly_gdp_real !! 2 = Some 200%float ∧
  quarterly_gdp_real !! 4 = Some (200 * (1 + 5 / 100))%float.
Proof.
  destruct (record_loop_prior_year "v" "g" quarterly_gdp 2015
              quarterly_gdp_chain quarterly_gdp_real 4 PrimFloat.nan 2 200%float
              (proj1 quarterly_gdp_numeric) (proj2 quarterly_gdp_numeric))
    as (_ & _ & gr & Hg & HR).
  - by vm_compute.
  - vm_compute; reflexivity.
  - vm_compute; reflexivity.
  - vm_compute; reflexivity.
  - vm_compute; reflexivity.
  - vm_compute; reflexivity.
  - vm_compute; reflexivity.
  - vm_compute; reflexivity.
  - assert (gr = 5%float) as -> by (vm_compute in Hg; congruence).
    split_and!; [done|vm_compute; reflexivity|done].
Defined.

Lemma record_loop_annual_ratio_witness :
  ∃ k a b,
    first_row (prepare "v" quarterly_gdp) (annual_of (prepare "v" quarterly_gdp)) 2015
      = Some k ∧
    nominal_of "v" (prepare "v" quarterly_gdp) 2 = Some a ∧
    nominal_of "v" (prepare "v" quarterly_gdp) k = Some b ∧
    quarterly_gdp_real !! 2 = Some (1000 * (a / b))%float.
Proof.
  refine (record_loop_annual_ratio "v" "g" quarterly_gdp 2015
            quarterly_gdp_chain quarterly_gdp_real 2 PrimFloat.nan 1000%float
            (proj1 quarterly_gdp_numeric) (proj2 quarterly_gdp_numeric)
            _ _ _ _ _ _ _ _).
  - by vm_compute.
  - vm_compute; reflexivity.
  - vm_compute; reflexivity.
  - vm_compute; reflexivity.
  - vm_compute; reflexivity.
  - intros j p Hj Hp. vm_compute in Hj. injection Hj as <-.
    vm_compute in Hp. injection Hp as <-. reflexivity.
  - eexists. vm_compute. reflexivity.
  - vm_compute; reflexivity.
Defined.

Lemma record_loop_leaves_unresolved_witness :
  quarterly_gdp_real !! 0 = Some PrimFloat.nan.
Proof.
  refine (record_loop_leaves_unresolved "v" "g" quarterly_gdp 2015
            quarterly_gdp_chain quarterly_gdp_real 0 PrimFloat.nan
            (proj1 quarterly_gdp_numeric) (proj2 quarterly_gdp_numeric)
            _ _ _ _ _ _ _).
  - by vm_compute.
  - vm_compute; reflexivity.
  - vm_compute; reflexivity.
  - vm_compute; reflexivity.
  - vm_compute; reflexivity.
  - intros j p Hj. vm_compute in Hj. discriminate Hj.
  - left. vm_compute; reflexivity.
Defined.

(** ** The interpolation fallback (lines 379-391) *)

(** X16: the level column of the frame the reconstruction returns is the
    column the record loop leaves, interpolated forward only: resolved
    values are kept as they are, records before the first resolved one
    stay missing, records after the last resolved one repeat it; the
    final message counts the values that are not missing against the
    number of rows. *)
Theorem fallback_fills_forward_only v g df base_year l out :
  v ≠ "year"%string →
  _convert_gdp_to_real v g df base_year = (l, Some out) →
  ∃ by' st R xs,
    chain_step v g (prepare v df) (annual_of (prepare v df)) by' = Some st ∧
    fill_rows v g (prepare v df) (annual_of (prepare v df)) st = Some R ∧
    get_col (cols out) v = Some (NumCol xs) ∧
    length xs = length R ∧
    (∀ k x, R !! k = Some x → notna x = true → xs !! k = Some x) ∧
    (∀ k, (∀ j y, j ≤ k → R !! j = Some y → notna y = false) → xs !! k = R !! k) ∧
    (∀ i a k, R !! i = Some a → notna a = true →
       (∀ j y, i < j → R !! j = Some y → notna y = false) →
       i < k < length R → xs !! k = Some a) ∧
    last l = Some (Print_success
                     (MsgRealDone (length (filter (λ x, notna x = true) xs)) (nrows df))).
Proof.
  intros Hv Hrun.
  pose proof Hrun as (by' & a & st & R & Hsel & Ha & Hp & Hf & ->)%convert_gdp_inv.
  exists by', st, R, (fill_remaining R). split_and!.
  - unfold chain_step. rewrite Ha. done.
  - done.
  - by apply finish_value_col.
  - apply fill_remaining_length.
  - apply fill_remaining_kept.
  - apply fill_remaining_leading.
  - apply fill_remaining_trailing.
  - destruct (select_base (prepare v df) (annual_of (prepare v df)) base_year)
      as [lsel o] eqn:Es. simpl in Hsel. subst o.
    rewrite (convert_gdp_run v g df base_year lsel by' a st R Es Ha Hp Hf) in Hrun.
    injection Hrun as <-. rewrite nrows_prepare.
    rewrite app_comm_cons, !app_assoc.
    change [?x; ?y] with ([x] ++ [y]). rewrite app_assoc. apply last_snoc.
Qed.

Lemma fallback_fills_forward_only_witness :
  ∃ xs,
    get_col (cols (default (Frame [] []) (_convert_gdp_to_real "v" "g" quarterly_gdp 2015).2))
            "v" = Some (NumCol xs) ∧
    xs !! 0 = Some PrimFloat.nan.
Proof.
  destruct (fallback_fills_forward_only "v" "g" quarterly_gdp 2015
              (_convert_gdp_to_real "v" "g" quarterly_gdp 2015).1
              (default (Frame [] []) (_convert_gdp_to_real "v" "g" quarterly_gdp 2015).2))
    as (by' & st & R & xs & Hc & Hf & Hxs & _ & _ & Hlead & _).
  - by vm_compute.
  - vm_compute; reflexivity.
  - exists xs. split; [exact Hxs|].
    vm_compute in Hxs. injection Hxs as <-. reflexivity.
Defined.

(** ** The labels and the rows of the panel (lines 393-480) *)

Lemma columns_merge_outer l r :
  columns (merge_outer l r) = columns l ++ columns r.
Proof.
  unfold columns, merge_outer. cbn [cols]. by rewrite fmap_app, !names_fmap.
Qed.

Lemma columns_sort_values df : columns (sort_values df) = columns df.
Proof. unfold columns, sort_values, take_frame. cbn [cols]. apply names_fmap. Qed.

Lemma imap_take {A B} (f : nat → B) (l k : list A) :
  length l ≤ length k →
  imap (λ i _, f i) l = take (length l) (imap (λ i _, f i) k).
Proof.
  intros Hlen. rewrite !imap_seq_0, <- fmap_take, take_seq. f_equal. f_equal. lia.
Qed.

Lemma columns_df_subset filename df wanted :
  columns (df_subset filename df wanted)
  `sublist_of` imap (λ (i : nat) (_ : string), split_first filename +:+ "_" +:+ pretty i)
                 wanted.
Proof.
  unfold columns, df_subset. cbn [cols]. rewrite fmap_imap.
  rewrite (imap_ext _ (λ (i : nat) (_ : string), split_first filename +:+ "_" +:+ pretty i))
    by done.
  rewrite (imap_take _ (available_cols df wanted) wanted).
  - apply sublist_take.
  - unfold available_cols. apply length_filter.
Qed.

Lemma columns_foldl_merge_file fs entries m :
  ∃ ext,
    columns (foldl (merge_file fs) m entries) = columns m ++ ext ∧
    ext `sublist_of`
      (entries ≫= λ e,
         imap (λ (i : nat) (_ : string), split_first e.1 +:+ "_" +:+ pretty i) e.2).
Proof.
  revert m. induction entries as [|e entries IH]; intros m.
  { exists []. by rewrite app_nil_r. }
  cbn [foldl]. destruct (IH (merge_file fs m e)) as (ext & Hcols & Hsub).
  rewrite Hcols, merge_file_contribution, bind_cons.
  unfold contribution.
  destruct (fs e.1) as [| |df];
    [exists ext; split; [done|by apply sublist_inserts_l]..|].
  destruct (available_cols df e.2) as [|a avail] eqn:E;
    [exists ext; split; [done|by apply sublist_inserts_l]|].
  eexists. rewrite columns_merge_outer, <- app_assoc. split; [done|].
  apply sublist_app; [apply columns_df_subset|done].
Qed.

Lemma create_unified_dataset_inv fs save_ok panel :
  create_unified_dataset fs save_ok = Some panel →
  ∃ df base,
    fs "CPI_标准日期.csv"%string = Csv df ∧
    base_panel df = Some base ∧
    columns base = ["CPI"; "CPI_yoy"]%string ∧
    dates base = dates df ∧
    save_ok = true ∧
    panel = sort_values (foldl (merge_file fs) base (drop 1 files_to_merge)).
Proof.
  unfold create_unified_dataset.
  destruct (fs "CPI_标准日期.csv"%string) as [| |df]; [done..|].
  destruct (base_panel df) as [base|] eqn:Hbase; [|done]. cbn [mbind option_bind].
  destruct save_ok; [|done]. intros H. apply (inj Some) in H.
  exists df, base. split_and!; [done|done| | |done|by rewrite <- H].
  - unfold base_panel in Hbase.
    destruct (get_col (cols df) "全国-当月"); [|done].
    destruct (get_col (cols df) "全国-同比增长"); [|done].
    simpl in Hbase. by simplify_eq.
  - unfold base_panel in Hbase.
    destruct (get_col (cols df) "全国-当月"); [|done].
    destruct (get_col (cols df) "全国-同比增长"); [|done].
    simpl in Hbase. by simplify_eq.
Qed.

Lemma panel_labels_eq :
  panel_labels
  = ["CPI"; "CPI_yoy"; "PPI_0"; "PPI_1"; "PMI_0"; "新增贷款_0"; "新增贷款_1";
     "GDP_0"; "GDP_1"; "国债利差_0"]%string.
Proof. vm_compute. reflexivity. Qed.

Lemma panel_columns fs save_ok panel :
  create_unified_dataset fs save_ok = Some panel →
  NoDup (columns panel)
  ∧ take 2 (columns panel) = ["CPI"; "CPI_yoy"]%string
  ∧ columns panel `sublist_of` panel_labels.
Proof.
  intros (df & base & _ & _ & Hb & _ & _ & ->)%create_unified_dataset_inv.
  destruct (columns_foldl_merge_file fs (drop 1 files_to_merge) base)
    as (ext & Hcols & Hsub).
  rewrite columns_sort_values, Hcols, Hb.
  assert (Hs : ["CPI"; "CPI_yoy"]%string ++ ext `sublist_of` panel_labels).
  { unfold panel_labels. simpl. by do 2 apply sublist_skip. }
  split_and!; [|done|done].
  eapply sublist_NoDup; [|exact Hs]. rewrite panel_labels_eq.
  apply (bool_decide_unpack _). by vm_compute.
Qed.

(** X17: whatever the files hold, the columns of the panel carry
    pairwise distinct labels: [CPI] and [CPI_yoy] first, then labels taken
    in order from [PPI_0], [PPI_1], [PMI_0], [新增贷款_0], [新增贷款_1],
    [GDP_0], [GDP_1], [国债利差_0]; so the join never meets a label on both
    sides. *)
Theorem panel_labels_distinct fs save_ok panel :
  create_unified_dataset fs save_ok = Some panel →
  NoDup (columns panel)
  ∧ take 2 (columns panel) = ["CPI"; "CPI_yoy"]%string
  ∧ columns panel `sublist_of` panel_labels
  ∧ panel_labels
    = ["CPI"; "CPI_yoy"; "PPI_0"; "PPI_1"; "PMI_0"; "新增贷款_0"; "新增贷款_1";
       "GDP_0"; "GDP_1"; "国债利差_0"]%string.
Proof.
  intros (Hnd & Htake & Hsub)%panel_columns.
  split_and!; [done..|apply panel_labels_eq].
Qed.

Lemma panel_labels_distinct_witness :
  NoDup (columns (default (Frame [] []) (create_unified_dataset panel_files true))).
Proof.
  exact (proj1 (panel_labels_distinct panel_files true
                  (default (Frame [] []) (create_unified_dataset panel_files true))
                  ltac:(vm_compute; reflexivity))).
Defined.

Lemma rows_with_unique (l : list date) k :
  NoDup l → rows_with l k = [] ∨ ∃ i, rows_with l k = [i].
Proof.
  intros Hnd.
  assert (Hnd' : NoDup (rows_with l k)).
  { unfold rows_with. apply NoDup_filter, NoDup_seq. }
  destruct (rows_with l k) as [|i [|j rest]] eqn:E; [by left|right; by exists i|].
  exfalso. assert (Hi : i ∈ rows_with l k) by (rewrite E; left).
  assert (Hj : j ∈ rows_with l k) by (rewrite E; right; left).
  apply rows_with_elem in Hi, Hj.
  pose proof (NoDup_lookup l i j k Hnd Hi Hj) as ->.
  apply NoDup_cons in Hnd' as [Hnot _]. apply Hnot. left.
Qed.

Lemma fmap_bind_singletons {A B} (g : B → A) (f : A → list B) (ks : list A) :
  (∀ k, k ∈ ks → g <$> f k = [k]) → g <$> (ks ≫= f) = ks.
Proof.
  induction ks as [|k ks IH]; intros Hall; [done|].
  rewrite bind_cons, fmap_app, (Hall k) by left.
  rewrite IH; [done|]. intros k' Hk'. apply Hall. by right.
Qed.

Lemma merge_pairs_unique (l r : list date) :
  NoDup l → NoDup r →
  pair_date l r <$> merge_pairs l r = remove_dups (sort_dates (l ++ r)).
Proof.
  intros Hl Hr. unfold merge_pairs. apply fmap_bind_singletons.
  intros k Hk.
  assert (Hkey : k ∈ l ∨ k ∈ r).
  { revert Hk. rewrite elem_of_remove_dups, sort_dates_elem_of, elem_of_app. done. }
  destruct (rows_with_unique l k Hl) as [El|[i El]];
    destruct (rows_with_unique r k Hr) as [Er|[j Er]]; rewrite El, Er.
  - apply rows_with_nil in El. apply rows_with_nil in Er. by destruct Hkey.
  - assert (Hj : r !! j = Some k) by (apply rows_with_elem; rewrite Er; left).
    simpl. unfold date_at. by rewrite Hj.
  - assert (Hi : l !! i = Some k) by (apply rows_with_elem; rewrite El; left).
    simpl. unfold date_at. by rewrite Hi.
  - assert (Hi : l !! i = Some k) by (apply rows_with_elem; rewrite El; left).
    simpl. unfold date_at. by rewrite Hi.
Qed.

Lemma merge_outer_NoDup l r :
  NoDup (dates l) → NoDup (dates r) → NoDup (dates (merge_outer l r)).
Proof.
  intros Hl Hr. unfold merge_outer. cbn [dates].
  rewrite merge_pairs_unique by done. apply NoDup_remove_dups.
Qed.

Lemma contribution_dates fs e sub :
  contribution fs e = Some sub → ∃ df, fs e.1 = Csv df ∧ dates sub = dates df.
Proof.
  unfold contribution. destruct (fs e.1) as [| |df]; [done..|].
  destruct (available_cols df e.2); [done|]. intros [= <-]. by exists df.
Qed.

Lemma foldl_merge_file_NoDup fs entries m :
  (∀ name df, fs name = Csv df → NoDup (dates df)) →
  NoDup (dates m) → NoDup (dates (foldl (merge_file fs) m entries)).
Proof.
  intros Hfs. revert m. induction entries as [|e entries IH]; intros m Hm; [done|].
  cbn [foldl]. apply IH. rewrite merge_file_contribution.
  destruct (contribution fs e) as [sub|] eqn:E; [|done].
  apply merge_outer_NoDup; [done|].
  apply contribution_dates in E as (df & Hdf & ->). by eapply Hfs.
Qed.

(** X18: when no file holds a date twice, the panel has exactly one row
    for each date: its dates are pairwise distinct and strictly
    increasing. *)
Theorem panel_one_row_per_date fs save_ok panel :
  (∀ name df, fs name = Csv df → NoDup (dates df)) →
  create_unified_dataset fs save_ok = Some panel →
  NoDup (dates panel)
  ∧ ∀ i j a b, i < j → dates panel !! i = Some a → dates panel !! j = Some b →
               date_ltb a b = true.
Proof.
  intros Hfs (df & base & Hcpi & _ & _ & Hb & _ & ->)%create_unified_dataset_inv.
  assert (Hnd : NoDup (dates (sort_values
                  (foldl (merge_file fs) base (drop 1 files_to_merge))))).
  { rewrite dates_sort_values, sort_dates_Permutation.
    apply foldl_merge_file_NoDup; [done|]. rewrite Hb. by eapply Hfs. }
  split; [done|].
  intros i j a b Hij Ha Hb'.
  assert (Hle : date_le a b).
  { eapply (StronglySorted_lookup_rel date_le _ i j); [|done..].
    rewrite dates_sort_values.
    apply Sorted_StronglySorted; [apply _|apply sort_dates_Sorted]. }
  destruct (date_ltb a b) eqn:Hlt; [done|]. exfalso.
  assert (a = b) as -> by (by apply date_le_antisym).
  pose proof (NoDup_lookup _ i j b Hnd Ha Hb'). lia.
Qed.

Lemma panel_one_row_per_date_witness :
  NoDup (dates (default (Frame [] []) (create_unified_dataset panel_files true))).
Proof.
  refine (proj1 (panel_one_row_per_date panel_files true
                  (default (Frame [] []) (create_unified_dataset panel_files true))
                  _ ltac:(vm_compute; reflexivity))).
  intros name df. unfold panel_files.
  repeat case_decide; intros [= <-]; apply (bool_decide_unpack _); by vm_compute.
Defined.

(** ** The panel carries the values of its series *)

Lemma col_cell_is_Some c i : i < col_length c → is_Some (col_cell c i).
Proof.
  destruct c as [xs|xs|xs]; simpl; intros Hi;
    destruct (lookup_lt_is_Some_2 xs i Hi) as [x ->]; by eexists.
Qed.

Lemma take_opt_col_cell q c i j :
  q !! i = Some (Some j) → j < col_length c →
  col_cell (take_opt_col q c) i = col_cell c j.
Proof.
  intros Hq Hj. destruct (col_cell_is_Some c j Hj) as [x Hx].
  rewrite Hx. by eapply take_opt_col_cell_Some.
Qed.

Lemma Forall2_with_l {A B} (P : A → Prop) (R : A → B → Prop) l k :
  Forall P l → Forall2 R l k → Forall2 (λ a b, P a ∧ R a b) l k.
Proof.
  intros HP HR. induction HR as [|a b l k Hab HR IH]; [constructor|].
  apply Forall_cons in HP as [Ha HP]. constructor; auto.
Qed.

Lemma wf_merge_outer m sub : wf_frame (merge_outer m sub).
Proof.
  unfold wf_frame, merge_outer, nrows. cbn [cols dates].
  rewrite length_fmap. apply Forall_app. split; apply Forall_fmap, Forall_forall;
    intros [nm c] _; simpl; by rewrite take_opt_col_length, length_fmap.
Qed.

Lemma wf_sort_values m : wf_frame m → wf_frame (sort_values m).
Proof.
  intros Hwf. unfold wf_frame. rewrite nrows_sort_values.
  unfold sort_values, take_frame. cbn [cols]. apply Forall_fmap.
  eapply Forall_impl; [done|].
  intros [nm c] Hc. simpl in *. rewrite col_length_take_col; [apply argsort_length|].
  rewrite Hc. apply argsort_lt.
Qed.

Lemma carries_left m sub s block :
  Forall (λ nc, col_length nc.2 = nrows m) block →
  (∀ d, d ∈ dates s → d ∈ dates m) →
  block_carries m s block →
  block_carries (merge_outer m sub) s
    (prod_map id (take_opt_col (merge_pairs (dates m) (dates sub)).*1) <$> block).
Proof.
  intros Hwf Hsub Hcar i d Hi Hd.
  destruct (merge_outer_row m sub i d Hi) as ([o o'] & Hp & _ & H1 & _ & Hnone & _).
  simpl in *.
  assert (Hq : (merge_pairs (dates m) (dates sub)).*1 !! i = Some o).
  { by rewrite list_lookup_fmap, Hp. }
  destruct o as [k|]; [|destruct (Hnone eq_refl); by apply Hsub].
  pose proof (H1 k eq_refl) as Hk.
  destruct (Hcar k d Hk Hd) as (j & Hj & Hall). exists j. split; [done|].
  apply Forall2_fmap_l.
  eapply Forall2_impl; [exact (Forall2_with_l _ _ _ _ Hwf Hall)|].
  intros [nm c] [nm' c'] [Hlen [Hname Hcell]]. simpl in *. split; [done|].
  rewrite <- Hcell. apply take_opt_col_cell; [done|].
  rewrite Hlen. by eapply lookup_lt_Some.
Qed.

Lemma carries_right m sub :
  wf_frame sub →
  block_carries (merge_outer m sub) sub
    (prod_map id (take_opt_col (merge_pairs (dates m) (dates sub)).*2) <$> cols sub).
Proof.
  intros Hwf i d Hi Hd.
  destruct (merge_outer_row m sub i d Hi) as ([o o'] & Hp & _ & _ & H2 & _ & Hnone & _).
  simpl in *.
  assert (Hq : (merge_pairs (dates m) (dates sub)).*2 !! i = Some o').
  { by rewrite list_lookup_fmap, Hp. }
  destruct o' as [j|]; [|by destruct (Hnone eq_refl)].
  pose proof (H2 j eq_refl) as Hj. exists j. split; [done|].
  apply Forall2_fmap_l, Forall_Forall2_diag.
  eapply Forall_impl; [exact Hwf|].
  intros [nm c] Hlen. simpl in *. split; [done|].
  apply take_opt_col_cell; [done|]. rewrite Hlen. by eapply lookup_lt_Some.
Qed.

Lemma carries_sort m s block :
  Forall (λ nc, col_length nc.2 = nrows m) block →
  block_carries m s block →
  block_carries (sort_values m) s (prod_map id (take_col (argsort (dates m))) <$> block).
Proof.
  intros Hwf Hcar i d Hi Hd. rewrite dates_sort_values in Hi. unfold sort_dates in Hi.
  rewrite take_rows_lookup in Hi by apply argsort_lt.
  destruct (argsort (dates m) !! i) as [k|] eqn:Ek; [|done]. simpl in Hi.
  destruct (Hcar k d Hi Hd) as (j & Hj & Hall). exists j. split; [done|].
  apply Forall2_fmap_l.
  eapply Forall2_impl; [exact (Forall2_with_l _ _ _ _ Hwf Hall)|].
  intros [nm c] [nm' c'] [Hlen [Hname Hcell]]. simpl in *. split; [done|].
  rewrite <- Hcell. apply take_col_cell; [|done].
  rewrite Hlen. apply argsort_lt.
Qed.

Lemma wf_concat_blocks (k : nat) (blocks : list (list (string * column))) :
  Forall (λ nc, col_length nc.2 = k) (List.concat blocks) →
  Forall (λ b, Forall (λ nc, col_length nc.2 = k) b) blocks.
Proof.
  induction blocks as [|b bs IH]; [constructor|]. simpl.
  intros [? ?]%Forall_app. constructor; auto.
Qed.

Lemma panel_carries_merge m sub series :
  wf_frame sub →
  panel_carries m series → panel_carries (merge_outer m sub) (series ++ [sub]).
Proof.
  intros Hsub (Hwf & Hdates & blocks & Hcols & Hblocks). split_and!.
  - apply wf_merge_outer.
  - intros s d [Hs|Hs%list_elem_of_singleton]%elem_of_app Hd;
      apply merge_outer_dates; [left; by eapply Hdates|right; by subst].
  - exists ((fmap (M:=list)
               (λ b : list (string * column),
                  prod_map id (take_opt_col (merge_pairs (dates m) (dates sub)).*1) <$> b)
               blocks)
            ++ [prod_map id (take_opt_col (merge_pairs (dates m) (dates sub)).*2)
                  <$> cols sub]).
    split.
    + unfold merge_outer. cbn [cols]. rewrite concat_app, Hcols, fmap_concat_blocks.
      simpl. by rewrite app_nil_r.
    + apply Forall2_app; [|constructor; [by apply carries_right|constructor]].
      apply Forall2_fmap_r.
      assert (Hwfb : Forall (λ b, Forall (λ nc, col_length nc.2 = nrows m) b) blocks).
      { apply wf_concat_blocks. by rewrite <- Hcols. }
      assert (Hin : Forall (λ s, ∀ d, d ∈ dates s → d ∈ dates m) series).
      { apply Forall_forall. intros s Hs d. by apply Hdates. }
      clear Hcols Hdates Hwf. revert Hwfb Hin.
      induction Hblocks as [|s b ss bs Hb Hrest IH]; intros Hwfb Hin; [constructor|].
      apply Forall_cons in Hwfb as [Hwb Hwbs]. apply Forall_cons in Hin as [Hs Hss].
      constructor; [by apply carries_left|by apply IH].
Qed.

Lemma wf_df_subset filename df wanted :
  wf_frame df → wf_frame (df_subset filename df wanted).
Proof.
  intros Hwf. unfold wf_frame, df_subset. cbn [cols]. unfold nrows. cbn [dates].
  apply Forall_forall. intros [nm c] Hin.
  apply elem_of_lookup_imap_1 in Hin as (i & col & [= -> ->] & Hcol). simpl.
  assert (Hav : col ∈ available_cols df wanted) by (by eapply list_elem_of_lookup_2).
  unfold available_cols in Hav. apply list_elem_of_filter in Hav as [Hav _].
  unfold columns in Hav. apply list_elem_of_fmap in Hav as ([nm' c'] & -> & Hc').
  cbn [fst]. destruct (get_col (cols df) nm') as [c0|] eqn:Eg.
  - simpl. by eapply (wf_get_col_length (cols df) (nrows df)).
  - exfalso. clear -Eg Hc'. induction (cols df) as [|[k c1] cs IH]; simpl in *.
    + by apply elem_of_nil in Hc'.
    + case_decide as E; [done|]. apply elem_of_cons in Hc' as [[= -> ->]|Hc']; [done|].
      by apply IH.
Qed.

Lemma contribution_wf fs e sub :
  (∀ name df, fs name = Csv df → wf_frame df) →
  contribution fs e = Some sub → wf_frame sub.
Proof.
  intros Hfs. unfold contribution. destruct (fs e.1) as [| |df] eqn:E; [done..|].
  destruct (available_cols df e.2); [done|]. intros [= <-].
  apply wf_df_subset. by eapply Hfs.
Qed.

Lemma panel_carries_foldl fs entries m series :
  (∀ name df, fs name = Csv df → wf_frame df) →
  panel_carries m series →
  panel_carries (foldl (merge_file fs) m entries)
                (series ++ omap (contribution fs) entries).
Proof.
  intros Hfs. revert m series.
  induction entries as [|e entries IH]; intros m series Hinv; csimpl.
  { by rewrite app_nil_r. }
  rewrite merge_file_contribution.
  destruct (contribution fs e) as [sub|] eqn:E; [|by apply IH].
  replace (series ++ sub :: omap (contribution fs) entries)
    with ((series ++ [sub]) ++ omap (contribution fs) entries)
    by (by rewrite <- app_assoc).
  apply IH, panel_carries_merge; [by eapply contribution_wf|done].
Qed.

Lemma panel_carries_sort m series :
  panel_carries m series → panel_carries (sort_values m) series.
Proof.
  intros (Hwf & Hdates & blocks & Hcols & Hblocks). split_and!.
  - by apply wf_sort_values.
  - intros s d Hs Hd. rewrite dates_sort_values, sort_dates_elem_of. by eapply Hdates.
  - exists (fmap (M:=list)
              (λ b : list (string * column),
                 prod_map id (take_col (argsort (dates m))) <$> b) blocks).
    split.
    + unfold sort_values, take_frame. cbn [cols]. by rewrite Hcols, fmap_concat_blocks.
    + apply Forall2_fmap_r.
      assert (Hwfb : Forall (λ b, Forall (λ nc, col_length nc.2 = nrows m) b) blocks).
      { apply wf_concat_blocks. by rewrite <- Hcols. }
      clear Hcols Hdates Hwf. revert Hwfb.
      induction Hblocks as [|s b ss bs Hb Hrest IH]; intros Hwfb; [constructor|].
      apply Forall_cons in Hwfb as [Hwb Hwbs]. constructor; [|by apply IH].
      by apply carries_sort.
Qed.

Lemma base_panel_carries df base :
  wf_frame df → base_panel df = Some base → panel_carries base [base].
Proof.
  intros Hwf Hb.
  pose proof (base_panel_inv df base Hwf Hb) as (Hwfb & _ & _).
  split_and!; [done| |].
  - by intros s d ->%list_elem_of_singleton.
  - exists [cols base]. split; [simpl; by rewrite app_nil_r|].
    constructor; [|constructor]. intros i d Hi _. exists i. split; [done|].
    apply Forall_Forall2_diag, Forall_forall. by intros.
Qed.

(** X19: the panel carries the values of its series: its columns split
    into one block per contributing series, labels in the same order, and a
    row of the panel whose date is a date of the series holds in that
    block the values of a row of the series with that date (the row, when
    the series has the date once). *)
Theorem panel_carries_values fs df base panel :
  fs "CPI_标准日期.csv"%string = Csv df →
  (∀ name df', fs name = Csv df' → wf_frame df') →
  base_panel df = Some base →
  create_unified_dataset fs true = Some panel →
  ∃ blocks,
    cols panel = List.concat blocks ∧
    Forall2 (block_carries panel)
      (base :: omap (contribution fs) (drop 1 files_to_merge)) blocks.
Proof.
  intros Hfs Hwf Hbase Hrun.
  pose proof (base_panel_carries df base (Hwf _ _ Hfs) Hbase) as H0.
  pose proof (panel_carries_foldl fs (drop 1 files_to_merge) base [base] Hwf H0) as H1.
  apply panel_carries_sort in H1 as (_ & _ & blocks & Hcols & Hblocks).
  assert (Hp : panel = sort_values (foldl (merge_file fs) base (drop 1 files_to_merge))).
  { unfold create_unified_dataset in Hrun. rewrite Hfs, Hbase in Hrun.
    cbn [mbind option_bind] in Hrun. apply (inj Some) in Hrun. by rewrite <- Hrun. }
  rewrite <- Hp in Hcols, Hblocks. by exists blocks.
Qed.

Lemma panel_carries_values_witness :
  ∃ blocks,
    cols (default (Frame [] []) (create_unified_dataset panel_files true))
      = List.concat blocks ∧
    Forall2 (block_carries (default (Frame [] []) (create_unified_dataset panel_files true)))
      (Frame (dates panel_cpi)
         [("CPI"%string, NumCol [101; 102]%float);
          ("CPI_yoy"%string, NumCol [1; 2]%float)]
       :: omap (contribution panel_files) (drop 1 files_to_merge)) blocks.
Proof.
  apply (panel_carries_values panel_files panel_cpi).
  - reflexivity.
  - intros name df'. unfold panel_files.
    repeat case_decide; intros [= <-]; repeat constructor.
  - reflexivity.
  - vm_compute; reflexivity.
Defined.

(** ** No integer converts to a missing value *)

Lemma shr_1_nonneg mrs : (0 ≤ shr_m mrs)%Z → (0 ≤ shr_m (shr_1 mrs))%Z.
Proof. destruct mrs as [[|[p|p|]|p] r s]; simpl; lia. Qed.

Lemma iter_pos_shr_1_nonneg p mrs :
  (0 ≤ shr_m mrs)%Z → (0 ≤ shr_m (SpecFloat.iter_pos shr_1 p mrs))%Z.
Proof.
  revert mrs. induction p as [p IH|p IH|]; intros mrs Hm; simpl.
  - apply IH, IH. by apply shr_1_nonneg.
  - by apply IH, IH.
  - by apply shr_1_nonneg.
Qed.

Lemma shr_fexp_nonneg prec emax m e l :
  (0 ≤ m)%Z → (0 ≤ shr_m (shr_fexp prec emax m e l).1)%Z.
Proof.
  intros Hm. unfold shr_fexp, shr.
  assert (H0 : (0 ≤ shr_m (shr_record_of_loc m l))%Z) by (by destruct l as [|[]]).
  destruct (_ - e)%Z; simpl; [done| |done]. by apply iter_pos_shr_1_nonneg.
Qed.

Lemma binary_round_aux_not_nan prec emax sx m e l :
  (0 ≤ m)%Z → binary_round_aux prec emax sx m e l ≠ S754_nan.
Proof.
  intros Hm. unfold binary_round_aux.
  pose proof (shr_fexp_nonneg prec emax m e l Hm) as H1.
  destruct (shr_fexp prec emax m e l) as [mrs' e']. simpl in H1.
  assert (H2 : (0 ≤ round_nearest_even (shr_m mrs') (loc_of_shr_record mrs'))%Z).
  { unfold round_nearest_even. destruct (loc_of_shr_record mrs') as [|[]];
      try destruct (Z.even _); lia. }
  pose proof (shr_fexp_nonneg prec emax _ e' loc_Exact H2) as H3.
  destruct (shr_fexp prec emax _ e' loc_Exact) as [mrs'' e'']. simpl in H3.
  destruct (shr_m mrs''); [done| |lia]. by destruct (_ <=? _)%Z.
Qed.

Lemma binary_normalize_not_nan prec emax m e :
  (0 ≤ m)%Z → binary_normalize prec emax m e false ≠ S754_nan.
Proof.
  intros Hm. unfold binary_normalize. destruct m as [|p|p]; [done| |lia].
  unfold binary_round. destruct (shl_align _ _ _) as [mz ez].
  by apply binary_round_aux_not_nan.
Qed.

Lemma SFeqb_refl s : s ≠ S754_nan → SFeqb s s = true.
Proof.
  unfold SFeqb, SFcompare. destruct s as [[]|[]| |[] m e]; try done; intros _;
    rewrite Z.compare_refl, Pos.compare_cont_refl; done.
Qed.

Lemma of_uint63_notna (u : PrimInt63.int) : notna (PrimFloat.of_uint63 u) = true.
Proof.
  unfold notna, PrimFloat.is_nan. rewrite FloatAxioms.eqb_spec, SFeqb_refl; [done|].
  rewrite FloatAxioms.of_uint63_spec. apply binary_normalize_not_nan.
  apply Uint63.to_Z_bounded.
Qed.

Lemma float_of_Z_notna z : notna (float_of_Z z) = true.
Proof.
  destruct z as [|p|p]; simpl; [done|apply of_uint63_notna|].
  unfold notna, PrimFloat.is_nan. rewrite FloatAxioms.eqb_spec, SFeqb_refl; [done|].
  rewrite FloatAxioms.opp_spec.
  pose proof (of_uint63_notna (Uint63.of_Z (Z.pos p))) as H.
  unfold notna, PrimFloat.is_nan in H. rewrite FloatAxioms.eqb_spec in H.
  destruct (Prim2SF _) as [| | |]; simpl in *; done.
Qed.

(** ** The missing-value report of the panel ([utils.check_missing_values]) *)

Lemma dict_set_notin {V} (d : list (string * V)) key (value : V) :
  key ∉ d.*1 → dict_set d key value = d ++ [(key, value)].
Proof.
  induction d as [|[k v] d IH]; csimpl; [done|]. intros Hk.
  apply not_elem_of_cons in Hk as [Hne Hk].
  rewrite decide_False by done. by rewrite IH.
Qed.

Lemma foldl_dict_set {A V} (key : A → string) (val : A → V) (l : list A)
    (acc : list (string * V)) :
  NoDup (acc.*1 ++ (key <$> l)) →
  foldl (λ result a, dict_set result (key a) (val a)) acc l
  = acc ++ ((λ a, (key a, val a)) <$> l).
Proof.
  revert acc. induction l as [|a l IH]; intros acc Hnd; csimpl.
  { by rewrite app_nil_r. }
  apply NoDup_app in Hnd as (Hacc & Hdis & Hl).
  apply NoDup_cons in Hl as [Ha Hl].
  rewrite dict_set_notin.
  - rewrite IH; [by rewrite <- app_assoc|].
    rewrite fmap_app. csimpl. rewrite <- app_assoc. simpl.
    apply NoDup_app. split_and!; [done| |by constructor].
    intros k Hk. by apply Hdis.
  - intros Hin. apply (Hdis _ Hin). left.
Qed.

Lemma check_missing_values_eq round_2 df :
  NoDup (columns df) →
  check_missing_values round_2 df
  = (λ nc, (nc.1, MissingStats (isnull_sum nc.2)
                    (round_2 (float_of_nat (isnull_sum nc.2)
                              / float_of_nat (nrows df) * 100)%float)))
      <$> filter (λ nc, 0 < isnull_sum nc.2) (cols df).
Proof.
  intros Hnd. unfold check_missing_values.
  rewrite (foldl_dict_set fst); [done|]. simpl.
  eapply sublist_NoDup; [exact Hnd|]. unfold columns.
  apply fmap_sublist, sublist_filter.
Qed.

Lemma get_col_elem cs nm c :
  NoDup cs.*1 → (nm, c) ∈ cs → get_col cs nm = Some c.
Proof.
  induction cs as [|[m c0] cs IH]; csimpl; intros Hnd Hin; [by apply elem_of_nil in Hin|].
  apply NoDup_cons in Hnd as [Hm Hnd].
  apply elem_of_cons in Hin as [E|Hin].
  - simplify_eq. by rewrite decide_True.
  - rewrite decide_False; [by apply IH|]. intros ->. apply Hm.
    by apply (list_elem_of_fmap_2 fst _ (nm, c)).
Qed.

Lemma isnull_sum_le c : isnull_sum c ≤ col_length c.
Proof. destruct c; simpl; [apply length_filter|lia|apply length_filter]. Qed.

Lemma filter_elem_length {A} (P : A → Prop) `{!∀ x, Decision (P x)} (l : list A) x :
  x ∈ l → P x → 0 < length (filter P l).
Proof.
  intros Hx HP. assert (Hin : x ∈ filter P l) by (by apply list_elem_of_filter).
  destruct (filter P l); [by apply elem_of_nil in Hin|simpl; lia].
Qed.

(** A cell that reads as missing is a missing value of its column. *)
Lemma col_cell_missing_isnull c i : col_cell c i = missing → 0 < isnull_sum c.
Proof.
  unfold missing. destruct c as [xs|xs|xs]; simpl.
  - intros (x & Hx & [= <-])%fmap_Some.
    eapply filter_elem_length; [by eapply list_elem_of_lookup_2|done].
  - intros (z & Hz & [= E])%fmap_Some. exfalso.
    pose proof (float_of_Z_notna z) as Hn.
    assert (Hn' : notna PrimFloat.nan = true) by congruence. done.
  - intros ([s|] & Hx & E)%fmap_Some; [done|].
    eapply filter_elem_length; [by eapply list_elem_of_lookup_2|done].
Qed.

Lemma Forall2_elem_l {A B} (R : A → B → Prop) (l : list A) (k : list B) x :
  Forall2 R l k → x ∈ l → ∃ y, y ∈ k ∧ R x y.
Proof.
  induction 1 as [|a b l k Hab Hrest IH]; intros Hx; [by apply elem_of_nil in Hx|].
  apply elem_of_cons in Hx as [->|Hx].
  - exists b. split; [left|done].
  - destruct (IH Hx) as (y & Hy & HR). exists y. split; [by right|done].
Qed.

(** X20: the missing-value report of the panel has one entry, in column
    order, for each column with at least one missing value, with that
    number as its count, between 1 and the number of rows; every column
    of a series that lacks one of the dates of the panel is in the
    report. *)
Theorem missing_report_lists_absent_series (round_2 : float → float) fs df base panel :
  fs "CPI_标准日期.csv"%string = Csv df →
  wf_frame df →
  base_panel df = Some base →
  create_unified_dataset fs true = Some panel →
  (check_missing_values round_2 panel).*1
  = (filter (λ nc, 0 < isnull_sum nc.2) (cols panel)).*1
  ∧ (∀ nm st, (nm, st) ∈ check_missing_values round_2 panel →
       ∃ c, get_col (cols panel) nm = Some c ∧ count st = isnull_sum c
            ∧ 1 ≤ count st ≤ nrows panel)
  ∧ (∀ s d nm,
       s ∈ base :: omap (contribution fs) (drop 1 files_to_merge) →
       d ∈ dates panel → d ∉ dates s → nm ∈ columns s →
       nm ∈ (check_missing_values round_2 panel).*1).
Proof.
  intros Hfs Hwf Hbase Hrun.
  pose proof (panel_columns fs true panel Hrun) as (Hnd & _ & _).
  pose proof (base_panel_inv df base Hwf Hbase) as H0.
  pose proof (panel_inv_foldl fs (drop 1 files_to_merge) base [base] H0) as H1.
  apply panel_inv_sort in H1 as [(Hwfp & _ & blocks & Hcols & Hblocks) _].
  assert (Hp : panel = sort_values (foldl (merge_file fs) base (drop 1 files_to_merge))).
  { unfold create_unified_dataset in Hrun. rewrite Hfs, Hbase in Hrun.
    cbn [mbind option_bind] in Hrun. apply (inj Some) in Hrun. by rewrite <- Hrun. }
  rewrite <- Hp in Hwfp, Hcols, Hblocks. clear Hp.
  rewrite (check_missing_values_eq round_2 panel Hnd).
  split_and!.
  - rewrite <- list_fmap_compose. done.
  - intros nm st ([nm' c] & [= -> ->] & [Hpos Hin]%list_elem_of_filter)%list_elem_of_fmap.
    simpl in *. exists c. split_and!; [by apply get_col_elem|done|lia|].
    pose proof (proj1 (Forall_forall _ _) Hwfp _ Hin) as Hlen. simpl in Hlen.
    rewrite <- Hlen. apply isnull_sum_le.
  - intros s d nm Hs [i Hi]%list_elem_of_lookup Hd Hnm.
    change (base :: omap (contribution fs) (drop 1 files_to_merge))
      with ([base] ++ omap (contribution fs) (drop 1 files_to_merge)) in Hs.
    destruct (Forall2_elem_l _ _ _ s Hblocks Hs) as (block & Hblock & Hnames & Hmiss).
    rewrite <- Hnames in Hnm.
    apply list_elem_of_fmap in Hnm as ([nm' c] & -> & Hc). simpl.
    pose proof (proj1 (Forall_forall _ _) (Hmiss i d Hi Hd) _ Hc) as Hcell.
    simpl in Hcell. apply col_cell_missing_isnull in Hcell.
    rewrite <- list_fmap_compose.
    apply list_elem_of_fmap. exists (nm', c). split; [done|].
    apply list_elem_of_filter. split; [done|].
    rewrite Hcols. apply list_elem_of_In, in_concat. exists block.
    split; by apply list_elem_of_In.
Qed.

Lemma missing_report_lists_absent_series_witness :
  "PMI_0"%string
  ∈ (check_missing_values (λ x, x)
       (default (Frame [] []) (create_unified_dataset panel_files true))).*1.
Proof.
  refine (proj2 (proj2 (missing_report_lists_absent_series (λ x, x) panel_files panel_cpi
            (Frame (dates panel_cpi)
               [("CPI"%string, NumCol [101; 102]%float);
                ("CPI_yoy"%string, NumCol [1; 2]%float)])
            (default (Frame [] []) (create_unified_dataset panel_files true))
            eq_refl _ eq_refl _))
          (Frame [Date 2020 3 1; Date 2020 2 1] [("PMI_0"%string, IntCol [50; 51]%Z)])
          (Date 2020 1 1) "PMI_0"%string _ _ _ _).
  - repeat constructor.
  - vm_compute; reflexivity.
  - vm_compute. right. left.
  - vm_compute. set_solver.
  - vm_compute. set_solver.
  - left.
Defined.

(** ** The conversion step ([convert_all_to_monthly], [step_interpolate]) *)

Lemma process_file_false_written fs save_ok filename :
  returned (process_file fs save_ok filename) = false →
  written (process_file fs save_ok filename) = None.
Proof.
  unfold process_file. destruct (fs filename) as [| |df]; [done..|].
  destruct (convert_file filename df) as [l [[[m df']|]|]]; [|done..].
  by destruct save_ok.
Qed.

Lemma run_process_file_failed can_write read_back fs filename :
  (run_process_file can_write read_back fs filename).1 = false →
  (run_process_file can_write read_back fs filename).2 = fs.
Proof.
  unfold run_process_file. cbv zeta. cbn [fst snd]. intros H.
  by rewrite (process_file_false_written _ _ _ H).
Qed.

Lemma run_process_file_other can_write read_back fs filename name :
  name ≠ output_filename filename →
  (run_process_file can_write read_back fs filename).2 name = fs name.
Proof.
  intros Hne. unfold run_process_file. cbv zeta. cbn [snd].
  match goal with |- context [written ?p] => destruct (written p) end; [|done].
  by rewrite decide_False.
Qed.

Lemma convert_files_from can_write read_back files (c0 : nat) (fs0 : string → file) :
  c0 ≤ (foldl (count_file can_write read_back) (c0, fs0) files).1 ≤ c0 + length files
  ∧ ((foldl (count_file can_write read_back) (c0, fs0) files).1 = c0 ↔
     ∀ f, f ∈ files →
          (run_process_file can_write read_back fs0 f).1 = false)
  ∧ ((foldl (count_file can_write read_back) (c0, fs0) files).1 = c0 →
     (foldl (count_file can_write read_back) (c0, fs0) files).2 = fs0)
  ∧ (∀ name, (∀ f, f ∈ files → name ≠ output_filename f) →
       (foldl (count_file can_write read_back) (c0, fs0) files).2 name = fs0 name).
Proof.
  revert c0 fs0. induction files as [|f files IH]; intros c0 fs0.
  { cbn [foldl fst snd length]. split_and!; [lia|lia| |done|done].
    split; [by intros _ f ?%elem_of_nil|done]. }
  cbn [foldl length].
  destruct (run_process_file can_write read_back fs0 f) as [ok fs1] eqn:Er.
  assert (Estep : count_file can_write read_back (c0, fs0) f
                  = (if ok then S c0 else c0, fs1)).
  { unfold count_file. cbn [fst snd]. by rewrite Er. }
  rewrite Estep. clear Estep.
  assert (Hok : (run_process_file can_write read_back fs0 f).1 = ok) by (by rewrite Er).
  assert (Hother : ∀ name, name ≠ output_filename f → fs1 name = fs0 name).
  { intros name Hne.
    pose proof (run_process_file_other can_write read_back fs0 f name Hne) as H.
    by rewrite Er in H. }
  destruct ok.
  - destruct (IH (S c0) fs1) as (Hle & _ & _ & Hfs). split_and!; [lia|lia| | |].
    + split; [lia|]. intros Hall. rewrite (Hall f) in Hok by left. done.
    + lia.
    + intros name Hname. rewrite Hfs by (intros f' Hf'; apply Hname; by right).
      apply Hother, Hname. left.
  - assert (fs1 = fs0) as ->.
    { pose proof (run_process_file_failed can_write read_back fs0 f) as H.
      rewrite Er in H. by apply H. }
    destruct (IH c0 fs0) as (Hle & Hiff & Hsame & Hfs). split_and!; [lia|lia| |done|].
    + rewrite Hiff. split.
      * intros Hall f' [->|Hf']%elem_of_cons; [done|by apply Hall].
      * intros Hall f' Hf'. apply Hall. by right.
    + intros name Hname. apply Hfs. intros f' Hf'. apply Hname. by right.
Qed.

Lemma run_create_unified_dataset_other can_write read_back fs name :
  name ≠ "统一月度数据集.csv"%string →
  (run_create_unified_dataset can_write read_back fs).2 name = fs name.
Proof.
  intros Hne. unfold run_create_unified_dataset.
  destruct (fs "CPI_标准日期.csv"%string) as [| |df]; [done..|].
  destruct (base_panel df); [|done]. cbv zeta. cbn [snd].
  destruct (create_unified_dataset fs _); [|done]. by rewrite decide_False.
Qed.

(** X21: [convert_all_to_monthly] counts at most one conversion per
    listed file and returns that count unless building the panel raises;
    the count is 0 exactly when [process_file] fails on every listed file
    in the files as they were at the start, and then no file is changed
    and no panel is built.  In the data directory the loop changes no
    file other than the outputs of the listed files; when a file was
    converted the panel is built from the files the loop leaves and, once
    saved, stands under ['统一月度数据集.csv']: apart from that file and
    the outputs of the listed files, the call changes no file of the data
    directory. *)
Theorem convert_all_counts_conversions can_write read_back fs files :
  (convert_files can_write read_back fs files).1 ≤ length files
  ∧ ((convert_files can_write read_back fs files).1 = 0 ↔
     ∀ f, f ∈ files →
          (run_process_file can_write read_back fs f).1 = false)
  ∧ ((convert_files can_write read_back fs files).1 = 0 →
     (convert_files can_write read_back fs files).2 = fs
     ∧ convert_all_to_monthly can_write read_back fs (Some files) = (Returned 0, fs))
  ∧ (∀ name, (∀ f, f ∈ files → name ≠ output_filename f) →
       (convert_files can_write read_back fs files).2 name = fs name)
  ∧ (∀ name, name ≠ "统一月度数据集.csv"%string →
       (∀ f, f ∈ files → name ≠ output_filename f) →
       (convert_all_to_monthly can_write read_back fs (Some files)).2 name = fs name)
  ∧ (0 < (convert_files can_write read_back fs files).1 →
     ∀ merged_df,
       create_unified_dataset (convert_files can_write read_back fs files).2 true
         = Some merged_df →
       can_write "统一月度数据集.csv" merged_df = true →
       convert_all_to_monthly can_write read_back fs (Some files)
       = (Returned (convert_files can_write read_back fs files).1,
          λ name, if decide (name = "统一月度数据集.csv"%string)
                  then read_back merged_df
                  else (convert_files can_write read_back fs files).2 name))
  ∧ (∀ count,
       (convert_all_to_monthly can_write read_back fs (Some files)).1 = Returned count →
       count = (convert_files can_write read_back fs files).1).
Proof.
  pose proof (convert_files_from can_write read_back files 0 fs)
    as (Hle & Hiff & Hsame & Hother).
  fold (convert_files can_write read_back fs files) in Hle, Hiff, Hsame, Hother.
  split_and!; [simpl in Hle; lia|done| |done| | |].
  - intros H0. split; [by apply Hsame|].
    unfold convert_all_to_monthly. cbv beta iota zeta. rewrite H0.
    rewrite decide_False by lia. by rewrite (Hsame H0).
  - intros name Hpanel Hname. unfold convert_all_to_monthly. cbv beta iota zeta.
    case_decide; cbn [snd]; [|by apply Hother].
    rewrite run_create_unified_dataset_other by done. by apply Hother.
  - intros Hpos merged_df Hm Hw. unfold convert_all_to_monthly. cbv beta iota zeta.
    rewrite decide_True by done. unfold run_create_unified_dataset.
    pose proof Hm as Hm'. unfold create_unified_dataset in Hm'.
    destruct (convert_files can_write read_back fs files).2 as [| |df] eqn:Ecpi;
      [done..|].
    destruct (base_panel df) as [base|] eqn:Eb; [|done].
    cbv zeta. rewrite Hm, Hw, Hm. done.
  - intros count. unfold convert_all_to_monthly. cbv beta iota zeta.
    case_decide; cbn [fst]; [|by intros [= <-]].
    destruct (run_create_unified_dataset _ _ _).1; [by intros [= <-]|done].
Qed.

(** With the quarterly GDP file and the CPI base file, and saves that
    succeed: one file is converted, and the call leaves a panel under
    ['统一月度数据集.csv'], which is not the output of a listed file and
    did not exist before. *)
Lemma convert_all_counts_conversions_witness :
  step_files "统一月度数据集.csv" = Missing
  ∧ (∀ f, f ∈ DEFAULT_FILES → "统一月度数据集.csv"%string ≠ output_filename f)
  ∧ (convert_all_to_monthly (λ _ _, true) Csv step_files (Some DEFAULT_FILES)).1
    = Returned 1
  ∧ ∃ merged_df,
      (convert_all_to_monthly (λ _ _, true) Csv step_files (Some DEFAULT_FILES)).2
        "统一月度数据集.csv" = Csv merged_df.
Proof.
  pose proof (convert_all_counts_conversions (λ _ _, true) Csv step_files DEFAULT_FILES)
    as (_ & _ & _ & _ & _ & Hpanel & _).
  assert (Hcount : (convert_files (λ _ _, true) Csv step_files DEFAULT_FILES).1 = 1)
    by (vm_compute; reflexivity).
  specialize (Hpanel ltac:(rewrite Hcount; lia)
    (default (Frame [] [])
       (create_unified_dataset
          (convert_files (λ _ _, true) Csv step_files DEFAULT_FILES).2 true))
    ltac:(vm_compute; reflexivity) eq_refl).
  split; [reflexivity|]. split.
  { intros f [->|[->|[]%elem_of_nil]%elem_of_cons]%elem_of_cons;
      by vm_compute. }
  rewrite Hpanel, Hcount. cbn [fst snd]. split; [done|].
  eexists. rewrite decide_True by done. reflexivity.
Defined.

Lemma output_filename_gdp : output_filename "GDP_标准日期.csv" = "GDP_月度.csv"%string.
Proof. vm_compute. reflexivity. Qed.

Lemma output_filename_spread :
  output_filename "国债利差_标准日期.csv" = "国债利差_月度.csv"%string.
Proof. vm_compute. reflexivity. Qed.

(** X22: the pipeline step succeeds exactly when [process_file] converts
    the GDP file or the yield-spread file and the CPI base file, if it
    can be read, has both CPI columns; when a readable CPI file lacks
    one, building the panel raises and the step reports failure although
    files were converted. *)
Theorem step_interpolate_succeeds can_write read_back fs :
  step_interpolate can_write read_back fs = true ↔
  ((run_process_file can_write read_back fs "GDP_标准日期.csv").1 = true
   ∨ (run_process_file can_write read_back fs "国债利差_标准日期.csv").1 = true)
  ∧ (∀ df, fs "CPI_标准日期.csv"%string = Csv df → is_Some (base_panel df)).
Proof.
  pose proof (convert_files_from can_write read_back DEFAULT_FILES 0 fs)
    as (Hle & Hiff & _ & Hother).
  fold (convert_files can_write read_back fs DEFAULT_FILES) in Hle, Hiff, Hother.
  assert (Hfiles : ∀ f, f ∈ DEFAULT_FILES →
            f = "GDP_标准日期.csv"%string ∨ f = "国债利差_标准日期.csv"%string).
  { intros f Hf. unfold DEFAULT_FILES in Hf.
    apply elem_of_cons in Hf as [->|Hf]; [by left|].
    apply list_elem_of_singleton in Hf as ->. by right. }
  assert (Hcpi : (convert_files can_write read_back fs DEFAULT_FILES).2 "CPI_标准日期.csv"%string
                 = fs "CPI_标准日期.csv"%string).
  { apply Hother. intros f Hf.
    destruct (Hfiles f Hf) as [->| ->];
      [rewrite output_filename_gdp|rewrite output_filename_spread]; done. }
  assert (Hany : 0 < (convert_files can_write read_back fs DEFAULT_FILES).1 ↔
    (run_process_file can_write read_back fs "GDP_标准日期.csv").1 = true
    ∨ (run_process_file can_write read_back fs "国债利差_标准日期.csv").1 = true).
  { split.
    - intros Hpos.
      destruct ((run_process_file can_write read_back fs "GDP_标准日期.csv").1) eqn:E1;
        [by left|].
      destruct ((run_process_file can_write read_back fs "国债利差_标准日期.csv").1) eqn:E2;
        [by right|].
      exfalso.
      assert ((convert_files can_write read_back fs DEFAULT_FILES).1 = 0); [|lia].
      apply Hiff. intros f Hf. by destruct (Hfiles f Hf) as [->| ->].
    - intros Hor.
      destruct (decide ((convert_files can_write read_back fs DEFAULT_FILES).1 = 0))
        as [H0|H0]; [|lia].
      pose proof (proj1 Hiff H0) as Hall. destruct Hor as [E|E].
      + rewrite (Hall "GDP_标准日期.csv"%string) in E; [done|]. left.
      + rewrite (Hall "国债利差_标准日期.csv"%string) in E; [done|]. right. left. }
  unfold step_interpolate, convert_all_to_monthly. cbv beta iota zeta.
  rewrite <- Hany. clear Hany Hiff Hother.
  destruct (decide (0 < (convert_files can_write read_back fs DEFAULT_FILES).1)) as [Hpos|Hpos];
    cbn [fst].
  - unfold run_create_unified_dataset. rewrite Hcpi.
    destruct (fs "CPI_标准日期.csv"%string) as [| |df]; cbn [fst].
    + rewrite bool_decide_eq_true. split; [|tauto]. intros _. split; [done|]. by intros.
    + rewrite bool_decide_eq_true. split; [|tauto]. intros _. split; [done|]. by intros.
    + destruct (base_panel df) as [base|] eqn:Eb; cbv zeta; cbn [fst].
      * rewrite bool_decide_eq_true. split; [|tauto]. intros _. split; [done|].
        intros df' [= <-]. by rewrite Eb.
      * split; [done|]. intros [_ Hb]. destruct (Hb df eq_refl) as [? ?]. congruence.
  - rewrite bool_decide_eq_true. split; [lia|tauto].
Qed.
